(** * Access-rule filter engine of obsidian-local-rest-api-ng

    A shallow embedding of [src/filters/*.ts]: the rule file parser and
    serializer ([rules-file.ts]), the four matchers ([folder-filter.ts],
    [document-name-filter.ts], [tag-filter.ts], [keyword-filter.ts]) and the
    evaluation chain of [FilterEngine] ([filter-engine.ts]); then the code
    around them: loading and editing the rule file, the filters of search
    results and directory listings, the request handler of
    [securityFilterMiddleware.ts], and the error log of [audit-logger.ts].
    The module [Untyped] embeds the evaluation once more over metadata whose
    front matter tags are any value, where [collectFileTags] can throw.

    JavaScript strings are sequences of UTF-16 code units; they are modelled
    as [list N].  The two external libraries the matchers call, [minimatch]
    and the built-in [RegExp], are parameters of the development. *)

From Stdlib Require Import String Ascii DecimalString.
From Stdlib Require Import List NArith Bool Arith Lia.
Import ListNotations.

Local Open Scope list_scope.

(* ================================================================== *)
(** ** JavaScript strings *)
(* ================================================================== *)

Definition jsstring := list N.

(** An ASCII literal as a JavaScript string. *)
Definition lit (s : string) : jsstring :=
  map N_of_ascii (list_ascii_of_string s).
Arguments lit s%_string.

Definition SPACE : N := 32.
Definition DQUOTE : N := 34.
Definition HASH : N := 35.
Definition PLUS : N := 43.
Definition COMMA : N := 44.
Definition SLASH : N := 47.
Definition TILDE : N := 126.
Definition LF : N := 10.
Definition EM_DASH : N := 8212.

(** ECMAScript [WhiteSpace] and [LineTerminator] code units: what [\s]
    matches and what [trim] strips. *)
Definition isWhiteSpace (c : N) : bool :=
  match c with
  | 9 | 10 | 11 | 12 | 13 | 32 | 160 | 5760
  | 8232 | 8233 | 8239 | 8287 | 12288 | 65279 => true
  | _ => (8192 <=? c) && (c <=? 8202)
  end%N.

Arguments isWhiteSpace c : simpl nomatch.

Definition notWhiteSpace (c : N) : bool := negb (isWhiteSpace c).

Fixpoint jseqb (a b : jsstring) : bool :=
  match a, b with
  | [], [] => true
  | x :: a', y :: b' => (x =? y)%N && jseqb a' b'
  | _, _ => false
  end.

(** A string is truthy when it is not empty. *)
Definition truthy (s : jsstring) : bool :=
  match s with [] => false | _ :: _ => true end.

Fixpoint takeWhile (f : N -> bool) (s : jsstring) : jsstring :=
  match s with
  | [] => []
  | c :: t => if f c then c :: takeWhile f t else []
  end.

Fixpoint dropWhile (f : N -> bool) (s : jsstring) : jsstring :=
  match s with
  | [] => []
  | c :: t => if f c then dropWhile f t else s
  end.

(** [String.prototype.trim]. *)
Definition trimStart (s : jsstring) : jsstring := dropWhile isWhiteSpace s.
Definition trimEnd (s : jsstring) : jsstring :=
  rev (dropWhile isWhiteSpace (rev s)).
Definition trim (s : jsstring) : jsstring := trimEnd (trimStart s).

(** [s.startsWith(p)]. *)
Fixpoint startsWith (p s : jsstring) : bool :=
  match p, s with
  | [], _ => true
  | x :: p', y :: s' => (x =? y)%N && startsWith p' s'
  | _ :: _, [] => false
  end.

(** [s.includes(c)] for a one-unit needle. *)
Definition includesUnit (c : N) (s : jsstring) : bool :=
  existsb (N.eqb c) s.

(** [s.indexOf(needle) !== -1]; the empty needle is found in every string. *)
Fixpoint includes (needle s : jsstring) : bool :=
  startsWith needle s
  || match s with
     | [] => false
     | _ :: t => includes needle t
     end.

(** [s.indexOf(c)] for a one-unit needle, counted from the head of [s];
    [None] stands for -1. *)
Fixpoint indexOfUnit (c : N) (s : jsstring) : option nat :=
  match s with
  | [] => None
  | x :: t => if (x =? c)%N then Some 0
              else option_map S (indexOfUnit c t)
  end.

(** [s.indexOf(c, from)]. *)
Definition indexOfFrom (c : N) (from : nat) (s : jsstring) : option nat :=
  option_map (fun i => from + i) (indexOfUnit c (skipn from s)).

(** [s.lastIndexOf(c)]. *)
Fixpoint lastIndexOfUnit (c : N) (s : jsstring) : option nat :=
  match s with
  | [] => None
  | x :: t =>
      match lastIndexOfUnit c t with
      | Some i => Some (S i)
      | None => if (x =? c)%N then Some 0 else None
      end
  end.

(** [s.slice(a)] and [s.slice(a, b)] for indices within the string. *)
Definition sliceFrom (a : nat) (s : jsstring) : jsstring := skipn a s.
Definition slice (a b : nat) (s : jsstring) : jsstring :=
  firstn (b - a) (skipn a s).

(** [s.slice(0, -n)]. *)
Definition dropLast (n : nat) (s : jsstring) : jsstring :=
  firstn (length s - n) s.

(** [s.split(c)] for a one-unit separator. *)
Fixpoint splitUnit (c : N) (s : jsstring) : list jsstring :=
  match s with
  | [] => [[]]
  | x :: t =>
      if (x =? c)%N then [] :: splitUnit c t
      else match splitUnit c t with
           | h :: rest => (x :: h) :: rest
           | [] => [[x]]
           end
  end.

(** [s.split(/\s+/)]: [inRun] records that the separator run under the
    cursor has already closed the previous piece. *)
Fixpoint splitWsAux (inRun : bool) (s : jsstring) : list jsstring :=
  match s with
  | [] => [[]]
  | x :: t =>
      if isWhiteSpace x then
        if inRun then splitWsAux true t else [] :: splitWsAux true t
      else match splitWsAux false t with
           | h :: rest => (x :: h) :: rest
           | [] => [[x]]
           end
  end.
Definition splitWs (s : jsstring) : list jsstring := splitWsAux false s.

(** [parts.join(sep)]. *)
Fixpoint join (sep : jsstring) (parts : list jsstring) : jsstring :=
  match parts with
  | [] => []
  | [p] => p
  | p :: rest => p ++ sep ++ join sep rest
  end.

(** [toLowerCase] / [toUpperCase] on the ASCII letters; code units outside
    [A-Za-z] are left as they are. *)
Definition lowerUnit (c : N) : N :=
  if ((65 <=? c) && (c <=? 90))%N then (c + 32)%N else c.
Definition upperUnit (c : N) : N :=
  if ((97 <=? c) && (c <=? 122))%N then (c - 32)%N else c.
Definition toLowerCase (s : jsstring) : jsstring := map lowerUnit s.
Definition toUpperCase (s : jsstring) : jsstring := map upperUnit s.

(** Decimal rendering of a number inside a template string. *)
Definition numberToString (n : nat) : jsstring :=
  lit (NilZero.string_of_uint (Nat.to_uint n)).

(** A JavaScript call either completes normally or throws. *)
Inductive Completion (A : Type) : Type :=
| Normal (a : A)
| Throw.
Arguments Normal {A} a.
Arguments Throw {A}.

(* ================================================================== *)
(** ** types.ts *)
(* ================================================================== *)

(** [FilterMode = "deny" | "allow"]. *)
Inductive FilterMode : Type := allow | deny.

(** [FilterType = "folder" | "document-name" | "tag" | "keyword"]. *)
Inductive FilterType : Type :=
| ft_folder | ft_document_name | ft_tag | ft_keyword.

(** [HttpMethod = "GET" | "PUT" | "POST" | "PATCH" | "DELETE"]. *)
Inductive HttpMethod : Type := GET | PUT | POST | PATCH | DELETE.

Definition modeName (m : FilterMode) : jsstring :=
  match m with allow => lit "allow" | deny => lit "deny" end.

Definition methodName (m : HttpMethod) : jsstring :=
  match m with
  | GET => lit "GET" | PUT => lit "PUT" | POST => lit "POST"
  | PATCH => lit "PATCH" | DELETE => lit "DELETE"
  end.

Definition FilterMode_eqb (a b : FilterMode) : bool :=
  match a, b with allow, allow | deny, deny => true | _, _ => false end.

Record FilterRule : Type := mkRule {
  id : jsstring;
  mode : FilterMode;
  pattern : jsstring;
  isRegex : bool;
  enabled : bool;
  description : jsstring;
  methods : option (list HttpMethod);
  regexFlags : option jsstring
}.

Record FilterDecision : Type := mkDecision {
  allowed : bool;
  reason : jsstring;
  matchedRule : option FilterRule;
  filterType : option FilterType
}.

(* ================================================================== *)
(** ** rules-file.ts *)
(* ================================================================== *)

Record ParsedRules : Type := mkParsedRules {
  folder : list FilterRule;
  name : list FilterRule;
  tag : list FilterRule;
  keyword : list FilterRule
}.

(** The [filterType] of a [RuleEntry]:
    ["folder" | "name" | "tag" | "keyword"]. *)
Inductive RuleKind : Type := kind_folder | kind_name | kind_tag | kind_keyword.

Definition kindName (k : RuleKind) : jsstring :=
  match k with
  | kind_folder => lit "folder" | kind_name => lit "name"
  | kind_tag => lit "tag" | kind_keyword => lit "keyword"
  end.

Record RuleEntry : Type := mkEntry {
  rule : FilterRule;
  entryType : RuleKind;
  lineNumber : nat
}.

(** [VALID_MODES.has(mode)] followed by the cast [mode as FilterMode]. *)
Definition validMode (s : jsstring) : option FilterMode :=
  if jseqb s (lit "allow") then Some allow
  else if jseqb s (lit "deny") then Some deny
  else None.

(** [VALID_TYPES.has(filterType)] followed by the cast. *)
Definition validType (s : jsstring) : option RuleKind :=
  if jseqb s (lit "folder") then Some kind_folder
  else if jseqb s (lit "name") then Some kind_name
  else if jseqb s (lit "tag") then Some kind_tag
  else if jseqb s (lit "keyword") then Some kind_keyword
  else None.

(** [VALID_METHODS.has(m)] followed by the cast. *)
Definition validMethod (s : jsstring) : option HttpMethod :=
  if jseqb s (lit "GET") then Some GET
  else if jseqb s (lit "PUT") then Some PUT
  else if jseqb s (lit "POST") then Some POST
  else if jseqb s (lit "PATCH") then Some PATCH
  else if jseqb s (lit "DELETE") then Some DELETE
  else None.

Definition DISABLED_PREFIX : jsstring := lit "#!disabled ".

(** The match of [content] against the anchored pattern of [parseRuleLine]:
    a run of non-blanks (the mode), a run of blanks, a run of non-blanks (the
    type), a run of blanks, then anything up to the end (the remainder).
    Every quantifier is greedy and what follows a run can never start inside
    it, so each group is the maximal run of its class: no backtracking
    changes the split. *)
Definition firstSplit (content : jsstring)
  : option (jsstring * jsstring * jsstring) :=
  let modeStr := takeWhile notWhiteSpace content in
  let r1 := dropWhile notWhiteSpace content in
  let gap1 := takeWhile isWhiteSpace r1 in
  let r2 := dropWhile isWhiteSpace r1 in
  let typeStr := takeWhile notWhiteSpace r2 in
  let r3 := dropWhile notWhiteSpace r2 in
  let gap2 := takeWhile isWhiteSpace r3 in
  let remainder := dropWhile isWhiteSpace r3 in
  if truthy modeStr && truthy gap1 && truthy typeStr && truthy gap2
  then Some (modeStr, typeStr, remainder)
  else None.

Definition isFlagUnit (c : N) : bool :=
  existsb (N.eqb c) (lit "gimsuy").

(** [cleanPattern.match(/\/([gimsuy]+)$/)]: the leftmost slash that is
    followed, up to the end of the string, by one or more flag letters.
    The result is the captured group; the whole match is one unit longer. *)
Fixpoint flagMatch (s : jsstring) : option jsstring :=
  match s with
  | [] => None
  | c :: t =>
      if (c =? SLASH)%N && truthy t && forallb isFlagUnit t then Some t
      else flagMatch t
  end.

(** [methodsStr.split(",").map(m => m.trim().toUpperCase())
      .filter(m => VALID_METHODS.has(m))]. *)
Fixpoint keepValidMethods (ms : list jsstring) : list HttpMethod :=
  match ms with
  | [] => []
  | m :: rest =>
      match validMethod m with
      | Some h => h :: keepValidMethods rest
      | None => keepValidMethods rest
      end
  end.

Definition parseMethods (methodsStr : jsstring) : option (list HttpMethod) :=
  match keepValidMethods
          (map (fun m => toUpperCase (trim m)) (splitUnit COMMA methodsStr))
  with
  | [] => None
  | ms => Some ms
  end.

(** The five [console.warn] exits of [parseRuleLine]. *)
Inductive LineWarning : Type :=
| ExpectedThreeFields | UnterminatedQuote | EmptyPattern
| InvalidMode | InvalidType.

(** [parseRuleLine] returns a [RuleEntry], or [null] after a warning. *)
Inductive LineResult : Type :=
| Entry (e : RuleEntry)
| Rejected (w : LineWarning).

(** The [if]/[else] of [parseRuleLine] that takes [pattern] and
    [methodsStr] out of the trimmed remainder; [None] is the unterminated
    quote. *)
Definition splitPattern (trimmedRemainder : jsstring)
  : option (jsstring * option jsstring) :=
  if startsWith [DQUOTE] trimmedRemainder then
    match indexOfFrom DQUOTE 1 trimmedRemainder with
    | None => None
    | Some closeQuote =>
        let afterQuote :=
          trim (sliceFrom (closeQuote + 1) trimmedRemainder) in
        Some (slice 1 closeQuote trimmedRemainder,
              if truthy afterQuote then Some afterQuote else None)
    end
  else
    let remainderParts := splitWs trimmedRemainder in
    Some (hd [] remainderParts, nth_error remainderParts 1).

Definition parseRuleLine (line : jsstring) (lineIndex : nat) : LineResult :=
  let disabled := startsWith DISABLED_PREFIX line in
  let enabled := negb disabled in
  let content :=
    if disabled then trim (sliceFrom (length DISABLED_PREFIX) line)
    else line in
  match firstSplit content with
  | None => Rejected ExpectedThreeFields
  | Some (modeStr, typeStr, remainder) =>
      match splitPattern (trim remainder) with
      | None => Rejected UnterminatedQuote
      | Some (pattern, methodsStr) =>
          if negb (truthy pattern) then Rejected EmptyPattern
          else
            match validMode (toLowerCase modeStr) with
            | None => Rejected InvalidMode
            | Some mode =>
                match validType (toLowerCase typeStr) with
                | None => Rejected InvalidType
                | Some filterType =>
                    let isRegex := startsWith [TILDE] pattern in
                    let cleanPattern :=
                      if isRegex then sliceFrom 1 pattern else pattern in
                    let flags :=
                      if isRegex then flagMatch cleanPattern else None in
                    let cleanPattern :=
                      match flags with
                      | Some f => dropLast (S (length f)) cleanPattern
                      | None => cleanPattern
                      end in
                    let methods :=
                      match methodsStr with
                      | Some m => if truthy m then parseMethods m else None
                      | None => None
                      end in
                    Entry
                      (mkEntry
                         (mkRule
                            (lit "rule-line-" ++ numberToString (lineIndex + 1))
                            mode cleanPattern isRegex enabled
                            (lit "line " ++ numberToString (lineIndex + 1))
                            methods flags)
                         filterType lineIndex)
                end
            end
      end
  end.

Record ParseResult : Type := mkParseResult {
  grouped : ParsedRules;
  entries : list RuleEntry
}.

Definition emptyRules : ParsedRules := mkParsedRules [] [] [] [].

(** [grouped[filterType]]. *)
Definition group (k : RuleKind) (g : ParsedRules) : list FilterRule :=
  match k with
  | kind_folder => folder g | kind_name => name g
  | kind_tag => tag g | kind_keyword => keyword g
  end.

(** [grouped[filterType].push(rule)]. *)
Definition pushRule (k : RuleKind) (r : FilterRule) (g : ParsedRules)
  : ParsedRules :=
  match k with
  | kind_folder => mkParsedRules (folder g ++ [r]) (name g) (tag g) (keyword g)
  | kind_name => mkParsedRules (folder g) (name g ++ [r]) (tag g) (keyword g)
  | kind_tag => mkParsedRules (folder g) (name g) (tag g ++ [r]) (keyword g)
  | kind_keyword => mkParsedRules (folder g) (name g) (tag g) (keyword g ++ [r])
  end.

(** One turn of the [for] loop of [parseRulesFile], on line [i]; a
    [continue] leaves the accumulated result as it is. *)
Definition parseLine (l : jsstring) (i : nat) (acc : ParseResult)
  : ParseResult :=
  let line := trim l in
  if negb (truthy line) then acc
  else if startsWith [HASH] line && negb (startsWith DISABLED_PREFIX line)
  then acc
  else
    match parseRuleLine line i with
    | Rejected _ => acc
    | Entry entry =>
        mkParseResult
          (if enabled (rule entry)
           then pushRule (entryType entry) (rule entry) (grouped acc)
           else grouped acc)
          (entries acc ++ [entry])
    end.

(** The [for] loop of [parseRulesFile], from line [i] on. *)
Fixpoint parseLines (lines : list jsstring) (i : nat) (acc : ParseResult)
  : ParseResult :=
  match lines with
  | [] => acc
  | l :: rest => parseLines rest (S i) (parseLine l i acc)
  end.

Definition parseRulesFile (content : jsstring) : ParseResult :=
  parseLines (splitUnit LF content) 0 (mkParseResult emptyRules []).

(** The local constants of [serializeRule]. *)
Definition flagSuffix (rule : FilterRule) : jsstring :=
  match regexFlags rule with
  | Some f => if isRegex rule && truthy f then SLASH :: f else []
  | None => []
  end.

Definition rawPattern (rule : FilterRule) : jsstring :=
  if isRegex rule then TILDE :: pattern rule ++ flagSuffix rule
  else pattern rule.

Definition patternStr (rule : FilterRule) : jsstring :=
  if includesUnit SPACE (rawPattern rule)
  then DQUOTE :: rawPattern rule ++ [DQUOTE]
  else rawPattern rule.

Definition methodStr (rule : FilterRule) : jsstring :=
  match methods rule with
  | Some ((_ :: _) as ms) => lit "  " ++ join [COMMA] (map methodName ms)
  | _ => []
  end.

Definition serializeRule (filterType : jsstring) (rule : FilterRule)
  : jsstring :=
  let prefix := if enabled rule then [] else DISABLED_PREFIX in
  prefix ++ modeName (mode rule) ++ lit "  " ++ filterType ++ lit "  "
    ++ patternStr rule ++ methodStr rule.

(* ================================================================== *)
(** ** The host: vault and metadata cache *)
(* ================================================================== *)

(** What [vault.getAbstractFileByPath] returns for a path that exists. *)
Inductive TAbstractFile : Type := TFile (path : jsstring).

(** The part of Obsidian's [CachedMetadata] that [collectFileTags] reads:
    [inlineTags] is the [tag] field of every entry of [cache.tags] (absent
    when [cache.tags] is), [frontmatterTags] is [cache.frontmatter?.tags]. *)
Record CachedMetadata : Type := mkCache {
  inlineTags : option (list jsstring);
  frontmatterTags : option (list jsstring)
}.

(** [app.vault] and [app.metadataCache]. *)
Record App : Type := mkApp {
  getAbstractFileByPath : jsstring -> option TAbstractFile;
  getFileCache : TAbstractFile -> option CachedMetadata;
  cachedRead : TAbstractFile -> Completion jsstring
}.

(** The [settings] argument of [evaluateFile]. *)
Record Settings : Type := mkSettings {
  defaultPolicy : FilterMode;
  globalAllowTag : jsstring;
  globalDenyTag : jsstring
}.

(** [const tag = t.startsWith("#") ? t : `#${t}`]. *)
Definition withHash (t : jsstring) : jsstring :=
  if startsWith [HASH] t then t else HASH :: t.

Inductive TagResult : Type :=
| found (tags : list jsstring)
| file_not_found
| cache_unavailable.

(** tag-filter.ts, [collectFileTags]. *)
Definition collectFileTags (filePath : jsstring) (app : App) : TagResult :=
  match getAbstractFileByPath app filePath with
  | None => file_not_found
  | Some file =>
      match getFileCache app file with
      | None => cache_unavailable
      | Some cache =>
          let tags :=
            match inlineTags cache with Some ts => ts | None => [] end
            ++ match frontmatterTags cache with
               | Some ts => map withHash ts
               | None => []
               end in
          found (map toLowerCase tags)
      end
  end.

(** [lowerTags.includes(s)] and [lowerTags.some(t => t === s)]. *)
Definition hasTag (s : jsstring) (lowerTags : list jsstring) : bool :=
  existsb (fun t => jseqb t s) lowerTags.

Definition tagUnavailable (why : jsstring) : jsstring :=
  lit "Tag cache unavailable " ++ [EM_DASH] ++ lit " denied (" ++ why
    ++ lit ")".

(** tag-filter.ts, [checkGlobalTags]. *)
Definition checkGlobalTags (filePath : jsstring) (app : App)
    (globalAllowTag globalDenyTag : jsstring) : option FilterDecision :=
  match collectFileTags filePath app with
  | file_not_found => None
  | cache_unavailable =>
      if truthy globalDenyTag || truthy globalAllowTag then
        Some (mkDecision false (tagUnavailable (lit "global tags configured"))
                None (Some ft_tag))
      else None
  | found lowerTags =>
      if truthy globalDenyTag && hasTag (toLowerCase globalDenyTag) lowerTags
      then
        Some (mkDecision false
                (lit "Global deny tag " ++ [DQUOTE] ++ globalDenyTag
                   ++ [DQUOTE] ++ lit " present")
                None (Some ft_tag))
      else if truthy globalAllowTag
              && hasTag (toLowerCase globalAllowTag) lowerTags
      then
        Some (mkDecision true
                (lit "Global allow tag " ++ [DQUOTE] ++ globalAllowTag
                   ++ [DQUOTE] ++ lit " present")
                None (Some ft_tag))
      else None
  end.

(** The decision a matcher builds for the rule it stops at:
    [{ allowed: rule.mode === "allow", reason: `<label>: ${rule.mode} by
    <what> "${rule.pattern}"`, matchedRule: rule, filterType }]. *)
Definition ruleDecision (label what : jsstring) (ft : FilterType)
    (r : FilterRule) : FilterDecision :=
  mkDecision (FilterMode_eqb (mode r) allow)
    (label ++ lit ": " ++ modeName (mode r) ++ lit " by " ++ what ++ lit " "
       ++ [DQUOTE] ++ pattern r ++ [DQUOTE])
    (Some r) (Some ft).

(** The test of one custom tag rule against the collected tags. *)
Definition tagRuleMatches (lowerTags : list jsstring) (r : FilterRule)
  : bool :=
  if includesUnit PLUS (pattern r) then
    let requiredTags :=
      map (fun t => toLowerCase (trim t)) (splitUnit PLUS (pattern r)) in
    forallb (fun rt => hasTag rt lowerTags) requiredTags
  else hasTag (toLowerCase (pattern r)) lowerTags.

(** The [for] loop of [checkTagFilter]. *)
Fixpoint tagRulesLoop (lowerTags : list jsstring) (rules : list FilterRule)
  : option FilterDecision :=
  match rules with
  | [] => None
  | r :: rest =>
      if negb (enabled r) then tagRulesLoop lowerTags rest
      else if tagRuleMatches lowerTags r then
        Some (ruleDecision (lit "Tag filter") (lit "tag") ft_tag r)
      else tagRulesLoop lowerTags rest
  end.

(** tag-filter.ts, [checkTagFilter]. *)
Definition checkTagFilter (filePath : jsstring) (rules : list FilterRule)
    (app : App) : option FilterDecision :=
  match collectFileTags filePath app with
  | file_not_found => None
  | cache_unavailable =>
      Some (mkDecision false (tagUnavailable (lit "tag rules configured"))
              None (Some ft_tag))
  | found lowerTags => tagRulesLoop lowerTags rules
  end.

(** [filePath.substring(filePath.lastIndexOf("/") + 1)], or the whole path
    when it has no slash. *)
Definition basename (filePath : jsstring) : jsstring :=
  match lastIndexOfUnit SLASH filePath with
  | Some lastSlash => sliceFrom (lastSlash + 1) filePath
  | None => filePath
  end.

Section Matchers.

(** [minimatch(p, pattern, { dot: true })] of the minimatch package. *)
Variable minimatch : jsstring -> jsstring -> bool.

(** [new RegExp(pattern, flags)]: the constructor throws a [SyntaxError] on
    an invalid pattern, and otherwise yields the [test] method of the
    regular expression. *)
Variable RegExp : jsstring -> option jsstring -> Completion (jsstring -> bool).

(** folder-filter.ts, [checkFolderFilter]. *)
Fixpoint checkFolderFilter (filePath : jsstring) (rules : list FilterRule)
  : option FilterDecision :=
  match rules with
  | [] => None
  | r :: rest =>
      if negb (enabled r) then checkFolderFilter filePath rest
      else
        let hit := Some (ruleDecision (lit "Folder filter") (lit "pattern")
                           ft_folder r) in
        if isRegex r then
          match RegExp (pattern r) None with
          | Throw => checkFolderFilter filePath rest
          | Normal test =>
              if test filePath then hit else checkFolderFilter filePath rest
          end
        else if minimatch filePath (pattern r) then hit
        else checkFolderFilter filePath rest
  end.

(** The [for] loop of [checkDocumentNameFilter]. *)
Fixpoint nameRulesLoop (base : jsstring) (rules : list FilterRule)
  : option FilterDecision :=
  match rules with
  | [] => None
  | r :: rest =>
      if negb (enabled r) then nameRulesLoop base rest
      else
        let hit := Some (ruleDecision (lit "Document name filter")
                           (lit "pattern") ft_document_name r) in
        if isRegex r then
          match RegExp (pattern r) None with
          | Throw => nameRulesLoop base rest
          | Normal test =>
              if test base then hit else nameRulesLoop base rest
          end
        else if minimatch base (pattern r) then hit
        else nameRulesLoop base rest
  end.

(** document-name-filter.ts, [checkDocumentNameFilter]. *)
Definition checkDocumentNameFilter (filePath : jsstring)
    (rules : list FilterRule) : option FilterDecision :=
  nameRulesLoop (basename filePath) rules.

(** The [for] loop of [checkKeywordFilter]. *)
Fixpoint keywordRulesLoop (content : jsstring) (rules : list FilterRule)
  : option FilterDecision :=
  match rules with
  | [] => None
  | r :: rest =>
      if negb (enabled r) then keywordRulesLoop content rest
      else
        let hit := Some (ruleDecision (lit "Keyword filter") (lit "pattern")
                           ft_keyword r) in
        if isRegex r then
          match RegExp (pattern r) None with
          | Throw => keywordRulesLoop content rest
          | Normal test =>
              if test content then hit else keywordRulesLoop content rest
          end
        else if includes (pattern r) content then hit
        else keywordRulesLoop content rest
  end.

(** keyword-filter.ts, [checkKeywordFilter]. *)
Definition checkKeywordFilter (filePath : jsstring) (rules : list FilterRule)
    (app : App) : option FilterDecision :=
  match getAbstractFileByPath app filePath with
  | None => None
  | Some file =>
      match cachedRead app file with
      | Throw =>
          Some (mkDecision false (lit "File read error") None
                  (Some ft_keyword))
      | Normal content => keywordRulesLoop content rules
      end
  end.

(* ================================================================== *)
(** ** filter-engine.ts *)
(* ================================================================== *)

Record FilterEngine : Type := mkEngine {
  app : App;
  fileRules : option ParsedRules
}.

(** [FilterEngine.methodAllowed]. *)
Definition methodAllowed (r : option FilterRule) (method : jsstring) : bool :=
  match r with
  | None => true
  | Some r =>
      match methods r with
      | None => true
      | Some [] => true
      | Some ms =>
          existsb (fun m => jseqb (methodName m) (toUpperCase method)) ms
      end
  end.

(** The guard every stage puts on a matcher's result:
    [!method || this.methodAllowed(result.matchedRule, method)]. *)
Definition applies (method : option jsstring) (result : FilterDecision)
  : bool :=
  match method with
  | None => true
  | Some m => negb (truthy m) || methodAllowed (matchedRule result) m
  end.

Definition defaultDecision (settings : Settings) : FilterDecision :=
  mkDecision (FilterMode_eqb (defaultPolicy settings) allow)
    (lit "Default policy: " ++ modeName (defaultPolicy settings))
    None None.

(** What one stage of [evaluateFile] returns, if it returns:
    [if (result && (!method || this.methodAllowed(result.matchedRule,
    method))) return result;]. *)
Definition returned (method : option jsstring)
    (result : option FilterDecision) : option FilterDecision :=
  match result with
  | Some r => if applies method r then Some r else None
  | None => None
  end.

(** [FilterEngine.evaluateFile]: each [match] is one [if] block of the
    source, [Some] is its [return] and [None] falls to the next block. *)
Definition evaluateFile (this : FilterEngine) (filePath : jsstring)
    (settings : Settings) (method : option jsstring) : FilterDecision :=
  match checkGlobalTags filePath (app this)
          (globalAllowTag settings) (globalDenyTag settings) with
  | Some globalTagResult => globalTagResult
  | None =>
  match
    match fileRules this with
    | None => None
    | Some rules =>
    match
      if 0 <? length (folder rules)
      then returned method (checkFolderFilter filePath (folder rules))
      else None
    with
    | Some result => Some result
    | None =>
    match
      if 0 <? length (name rules)
      then returned method (checkDocumentNameFilter filePath (name rules))
      else None
    with
    | Some result => Some result
    | None =>
    match
      if 0 <? length (tag rules)
      then returned method (checkTagFilter filePath (tag rules) (app this))
      else None
    with
    | Some result => Some result
    | None =>
      if 0 <? length (keyword rules)
      then returned method
             (checkKeywordFilter filePath (keyword rules) (app this))
      else None
    end end end
    end
  with
  | Some result => result
  | None => defaultDecision settings
  end
  end.

(** [results.filter((p): p is string => p !== null)]. *)
Fixpoint notNull {A : Type} (results : list (option A)) : list A :=
  match results with
  | [] => []
  | Some p :: rest => p :: notNull rest
  | None :: rest => notNull rest
  end.

End Matchers.

(* ================================================================== *)
(** ** Vocabulary of the properties *)
(* ================================================================== *)

Section Vocabulary.

Variable minimatch : jsstring -> jsstring -> bool.
Variable RegExp : jsstring -> option jsstring -> Completion (jsstring -> bool).

(** The test the three pattern matchers run on one regular-expression rule:
    a constructor that throws counts as no match. *)
Definition regexFires (r : FilterRule) (subject : jsstring) : bool :=
  match RegExp (pattern r) None with
  | Normal test => test subject
  | Throw => false
  end.

(** An enabled rule whose pattern matches the candidate, per matcher. *)
Definition folderRuleFires (filePath : jsstring) (r : FilterRule) : bool :=
  enabled r
  && if isRegex r then regexFires r filePath
     else minimatch filePath (pattern r).

Definition nameRuleFires (filePath : jsstring) (r : FilterRule) : bool :=
  enabled r
  && if isRegex r then regexFires r (basename filePath)
     else minimatch (basename filePath) (pattern r).

Definition keywordRuleFires (content : jsstring) (r : FilterRule) : bool :=
  enabled r
  && if isRegex r then regexFires r content
     else includes (pattern r) content.

Definition tagRuleFires (lowerTags : list jsstring) (r : FilterRule) : bool :=
  enabled r && tagRuleMatches lowerTags r.

(** A regular-expression rule whose pattern the constructor rejects. *)
Definition invalidRegex (r : FilterRule) : Prop :=
  isRegex r = true /\ RegExp (pattern r) None = Throw.

(** The matcher of each kind, on the rule list of that kind. *)
Definition runMatcher (this : FilterEngine) (k : RuleKind)
    (filePath : jsstring) (rules : ParsedRules) : option FilterDecision :=
  match k with
  | kind_folder => checkFolderFilter minimatch RegExp filePath (folder rules)
  | kind_name =>
      checkDocumentNameFilter minimatch RegExp filePath (name rules)
  | kind_tag => checkTagFilter filePath (tag rules) (app this)
  | kind_keyword =>
      checkKeywordFilter RegExp filePath (keyword rules) (app this)
  end.

(** One [if] block of [evaluateFile]. *)
Definition stage (this : FilterEngine) (k : RuleKind) (filePath : jsstring)
    (rules : ParsedRules) (method : option jsstring)
  : option FilterDecision :=
  if 0 <? length (group k rules)
  then returned method (runMatcher this k filePath rules)
  else None.

(** The blocks of the kinds [ks] in turn, then the default policy. *)
Fixpoint chain (this : FilterEngine) (ks : list RuleKind)
    (filePath : jsstring) (rules : ParsedRules) (settings : Settings)
    (method : option jsstring) : FilterDecision :=
  match ks with
  | [] => defaultDecision settings
  | k :: ks' =>
      match stage this k filePath rules method with
      | Some result => result
      | None => chain this ks' filePath rules settings method
      end
  end.

End Vocabulary.

(** The candidates for which a matcher fails closed: the tag matcher when
    the file exists without cached metadata, the keyword matcher when the
    file exists and reading it throws. *)
Definition failsClosed (a : App) (k : RuleKind) (filePath : jsstring) : Prop :=
  match k with
  | kind_tag => collectFileTags filePath a = cache_unavailable
  | kind_keyword =>
      exists file, getAbstractFileByPath a filePath = Some file
                   /\ cachedRead a file = Throw
  | _ => False
  end.

(** The rule [r] with its [regexFlags] replaced. *)
Definition withRegexFlags (f : option jsstring) (r : FilterRule) : FilterRule :=
  mkRule (id r) (mode r) (pattern r) (isRegex r) (enabled r) (description r)
    (methods r) f.

(** The rule [r] with its [isRegex] replaced. *)
Definition withIsRegex (b : bool) (r : FilterRule) : FilterRule :=
  mkRule (id r) (mode r) (pattern r) b (enabled r) (description r)
    (methods r) (regexFlags r).

(** The decision each matcher builds for the rule it stops at. *)
Definition folderHit : FilterRule -> FilterDecision :=
  ruleDecision (lit "Folder filter") (lit "pattern") ft_folder.
Definition nameHit : FilterRule -> FilterDecision :=
  ruleDecision (lit "Document name filter") (lit "pattern") ft_document_name.
Definition tagHit : FilterRule -> FilterDecision :=
  ruleDecision (lit "Tag filter") (lit "tag") ft_tag.
Definition keywordHit : FilterRule -> FilterDecision :=
  ruleDecision (lit "Keyword filter") (lit "pattern") ft_keyword.

Definition RuleKind_eqb (a b : RuleKind) : bool :=
  match a, b with
  | kind_folder, kind_folder | kind_name, kind_name
  | kind_tag, kind_tag | kind_keyword, kind_keyword => true
  | _, _ => false
  end.

(** The rules of the enabled entries of kind [k], in the order of the
    entries. *)
Definition activeOf (k : RuleKind) (es : list RuleEntry) : list FilterRule :=
  map rule
    (filter (fun e => enabled (rule e) && RuleKind_eqb (entryType e) k) es).

(** A line that is blank or starts with [#] once trimmed: a comment or a
    disabled rule. *)
Definition inertLine (l : jsstring) : bool :=
  negb (truthy (trim l)) || startsWith [HASH] (trim l).

(** Two files that differ only in their inert lines. *)
Definition sameActiveLines (c1 c2 : jsstring) : Prop :=
  Forall2 (fun l1 l2 => l1 = l2 \/ (inertLine l1 = true /\ inertLine l2 = true))
    (splitUnit LF c1) (splitUnit LF c2).

(** The fields the round trip is about. *)
Definition sameRule (r r' : FilterRule) : Prop :=
  mode r' = mode r
  /\ pattern r' = pattern r
  /\ isRegex r' = isRegex r
  /\ regexFlags r' = regexFlags r
  /\ methods r' = methods r
  /\ enabled r' = enabled r.

(** The rules that the line format can carry: the pattern as written out
    is not empty and holds no line feed; it holds no double quote if it has
    a space, and otherwise holds no white space and does not open with a
    double quote; a pattern that is not a regular expression does not open
    with a tilde and has no flags; a regular expression either has flags,
    one or more of the letters [gimsuy], or has none and does not end in a
    slash followed by such letters; the method list is absent or not
    empty. *)
Definition roundTrips (r : FilterRule) : Prop :=
  rawPattern r <> []
  /\ includesUnit LF (rawPattern r) = false
  /\ (if includesUnit SPACE (rawPattern r)
      then includesUnit DQUOTE (rawPattern r) = false
      else forallb notWhiteSpace (rawPattern r) = true
           /\ startsWith [DQUOTE] (rawPattern r) = false)
  /\ (if isRegex r
      then match regexFlags r with
           | Some f => f <> [] /\ forallb isFlagUnit f = true
           | None => flagMatch (pattern r) = None
           end
      else startsWith [TILDE] (pattern r) = false /\ regexFlags r = None)
  /\ methods r <> Some [].

(** A string that is empty or whose first unit fails [f]. *)
Definition stopsAt (f : N -> bool) (s : jsstring) : Prop :=
  match s with
  | [] => True
  | c :: _ => f c = false
  end.

(** [allow folder ~^notes/my]: a regular expression without flags. *)
Definition notesRule : FilterRule :=
  mkRule (lit "r1") allow (lit "^notes/my") true true (lit "test") None None.

(** The grouped rules are the enabled entries. *)
Definition groupedIsActive (acc : ParseResult) : Prop :=
  forall k, group k (grouped acc) = activeOf k (entries acc).

(** Every entry comes from the line whose index it records. *)
Definition entriesFromLines (lines : list jsstring) (i : nat)
    (old : list RuleEntry) (acc : ParseResult) : Prop :=
  forall e, In e (entries acc) ->
    In e old
    \/ (i <= lineNumber e
        /\ exists l, nth_error lines (lineNumber e - i) = Some l
                     /\ parseRuleLine (trim l) (lineNumber e) = Entry e).

(** The rule [parseRuleLine] builds on line [i] from the fields of [r]. *)
Definition reparsed (r : FilterRule) (i : nat) : FilterRule :=
  mkRule (lit "rule-line-" ++ numberToString (i + 1)) (mode r) (pattern r)
    (isRegex r) (enabled r) (lit "line " ++ numberToString (i + 1))
    (methods r) (regexFlags r).

Definition stageOrder : list RuleKind :=
  [kind_folder; kind_name; kind_tag; kind_keyword].

(** [sub] is [l] with some elements left out, the others in place. *)
Inductive Subsequence {A : Type} : list A -> list A -> Prop :=
| sub_nil : Subsequence [] []
| sub_keep x sub l : Subsequence sub l -> Subsequence (x :: sub) (x :: l)
| sub_skip x sub l : Subsequence sub l -> Subsequence sub (x :: l).

(** *** Stand-ins for the two libraries, for the worked examples *)

Definition isAlnum (c : N) : bool :=
  ((48 <=? c) && (c <=? 57) || (65 <=? c) && (c <=? 90)
   || (97 <=? c) && (c <=? 122))%N.

(** [minimatch] restricted to patterns without glob syntax, where it is
    string equality. *)
Definition plainMinimatch (p pat : jsstring) : bool := jseqb p pat.

(** [RegExp] restricted to patterns of letters and digits, where [test] is
    a substring search, up to ASCII case under the flag [i].  Every other
    pattern is rejected, as the real constructor rejects the pattern [(]. *)
Definition plainRegExp (pat : jsstring) (flags : option jsstring)
  : Completion (jsstring -> bool) :=
  if truthy pat && forallb isAlnum pat then
    match flags with
    | Some f =>
        if includesUnit 105 f
        then Normal (fun s => includes (toLowerCase pat) (toLowerCase s))
        else Normal (includes pat)
    | None => Normal (includes pat)
    end
  else Throw.

(** *** Worked examples *)

Definition exampleRule (m : FilterMode) (pat : jsstring) : FilterRule :=
  mkRule (lit "r1") m pat false true (lit "test") None None.

(** A vault holding one file, at [path]. *)
Definition oneFileVault (path : jsstring) (cache : option CachedMetadata)
    (read : Completion jsstring) : App :=
  mkApp (fun p => if jseqb p path then Some (TFile p) else None)
        (fun _ => cache)
        (fun _ => read).

Definition notePath : jsstring := lit "Public/note.md".


(** [deny keyword ~password/i]. *)
Definition passwordRule : FilterRule :=
  mkRule (lit "test-rule") deny (lit "password") true true (lit "test") None
    (Some (lit "i")).

(** A rule whose pattern is not a regular expression. *)
Definition brokenRule : FilterRule :=
  mkRule (lit "r0") deny (lit "(") true true (lit "test") None None.

Definition noGlobalTags (d : FilterMode) : Settings := mkSettings d [] [].
Definition aiTags (d : FilterMode) : Settings :=
  mkSettings d (lit "#ai-allow") (lit "#ai-deny").

(* ================================================================== *)
(** ** rules-file.ts: loading and editing the rule file *)
(* ================================================================== *)

From Stdlib Require Import ZArith Sorted.
From Stdlib Require DecimalNat DecimalFacts.

(** Obsidian's [DataAdapter], as far as reading goes: [adapter.exists] and
    [adapter.read], each of which may reject. *)
Record DataAdapter : Type := mkAdapter {
  adapterExists : jsstring -> Completion bool;
  adapterRead : jsstring -> Completion jsstring
}.

(** [`${pluginDir}/access-rules.conf`]. *)
Definition rulesPath (pluginDir : jsstring) : jsstring :=
  pluginDir ++ lit "/access-rules.conf".

(** [loadRulesFile]: [null] when the file does not exist, and, through the
    [catch], when [exists] or [read] rejects. *)
Definition loadRulesFile (adapter : DataAdapter) (pluginDir : jsstring)
  : option ParseResult :=
  match adapterExists adapter (rulesPath pluginDir) with
  | Throw => None
  | Normal false => None
  | Normal true =>
      match adapterRead adapter (rulesPath pluginDir) with
      | Throw => None
      | Normal content => Some (parseRulesFile content)
      end
  end.

(** [FilterEngine.reloadRules]: [this.fileRules = result?.grouped ?? null]. *)
Definition reloadRules (this : FilterEngine) (adapter : DataAdapter)
    (pluginDir : jsstring) : FilterEngine :=
  mkEngine (app this)
    (match loadRulesFile adapter pluginDir with
     | Some result => Some (grouped result)
     | None => None
     end).

(** [mutateFile]: the content it writes back to the rule file.  A read that
    rejects starts from the empty content. *)
Definition mutateFile (adapter : DataAdapter) (pluginDir : jsstring)
    (mutator : list jsstring -> list jsstring) : jsstring :=
  let content :=
    match adapterRead adapter (rulesPath pluginDir) with
    | Normal c => c
    | Throw => []
    end in
  join [LF] (mutator (splitUnit LF content)).

(** The mutator of [appendRule]. *)
Definition appendLine (line : jsstring) (lines : list jsstring)
  : list jsstring :=
  (if (0 <? length lines) && truthy (trim (last lines []))
   then lines ++ [[]] else lines)
  ++ [line].

Definition appendRule (adapter : DataAdapter) (pluginDir : jsstring)
    (filterType : jsstring) (rule : FilterRule) : jsstring :=
  mutateFile adapter pluginDir (appendLine (serializeRule filterType rule)).

(** [lines.splice(n, 1)] and [lines[n] = x], for [n] within the array. *)
Definition removeAt (n : nat) (lines : list jsstring) : list jsstring :=
  firstn n lines ++ skipn (S n) lines.
Definition replaceAt (n : nat) (x : jsstring) (lines : list jsstring)
  : list jsstring :=
  firstn n lines ++ x :: skipn (S n) lines.

(** The mutator of [removeRuleByLine]. *)
Definition removeLine (lineNumber : Z) (lines : list jsstring)
  : list jsstring :=
  if ((0 <=? lineNumber) && (lineNumber <? Z.of_nat (length lines)))%Z
  then removeAt (Z.to_nat lineNumber) lines
  else lines.

Definition removeRuleByLine (adapter : DataAdapter) (pluginDir : jsstring)
    (lineNumber : Z) : jsstring :=
  mutateFile adapter pluginDir (removeLine lineNumber).

(** The mutator of [toggleRuleByLine]. *)
Definition toggleLine (lineNumber : Z) (enabled : bool)
    (lines : list jsstring) : list jsstring :=
  if ((lineNumber <? 0) || (Z.of_nat (length lines) <=? lineNumber))%Z
  then lines
  else
    let n := Z.to_nat lineNumber in
    let line := trim (nth n lines []) in
    if enabled && startsWith DISABLED_PREFIX line
    then replaceAt n (sliceFrom (length DISABLED_PREFIX) line) lines
    else if negb enabled && negb (startsWith DISABLED_PREFIX line)
    then replaceAt n (DISABLED_PREFIX ++ line) lines
    else lines.

Definition toggleRuleByLine (adapter : DataAdapter) (pluginDir : jsstring)
    (lineNumber : Z) (enabled : bool) : jsstring :=
  mutateFile adapter pluginDir (toggleLine lineNumber enabled).

(** An adapter whose rule file holds [content]. *)
Definition fileHolding (content : jsstring) : DataAdapter :=
  mkAdapter (fun _ => Normal true) (fun _ => Normal content).

(** *** What a line contributes *)

(** The entry that one turn of the loop of [parseRulesFile] pushes for line
    [l] at index [i], if it pushes one. *)
Definition lineEntry (l : jsstring) (i : nat) : option RuleEntry :=
  let line := trim l in
  if negb (truthy line) then None
  else if startsWith [HASH] line && negb (startsWith DISABLED_PREFIX line)
  then None
  else
    match parseRuleLine line i with
    | Entry e => Some e
    | Rejected _ => None
    end.

Fixpoint lineEntries (lines : list jsstring) (i : nat) : list RuleEntry :=
  match lines with
  | [] => []
  | l :: rest =>
      match lineEntry l i with
      | Some e => e :: lineEntries rest (S i)
      | None => lineEntries rest (S i)
      end
  end.

(** The entry [e] as it is read on line [j]: the line index enters the
    entry as [lineNumber], in the rule's [id] and in its [description]. *)
Definition atLine (j : nat) (e : RuleEntry) : RuleEntry :=
  mkEntry
    (mkRule (lit "rule-line-" ++ numberToString (j + 1)) (mode (rule e))
       (pattern (rule e)) (isRegex (rule e)) (enabled (rule e))
       (lit "line " ++ numberToString (j + 1)) (methods (rule e))
       (regexFlags (rule e)))
    (entryType e) j.

(** The entry [e] with the enabled flag of its rule set to [b]. *)
Definition setEnabled (b : bool) (e : RuleEntry) : RuleEntry :=
  mkEntry
    (mkRule (id (rule e)) (mode (rule e)) (pattern (rule e))
       (isRegex (rule e)) b (description (rule e)) (methods (rule e))
       (regexFlags (rule e)))
    (entryType e) (lineNumber e).

(** What [parseRuleLine] does once it has the content and the enabled flag
    of the line. *)
Definition parseContent (content : jsstring) (enabled : bool)
    (lineIndex : nat) : LineResult :=
  match firstSplit content with
  | None => Rejected ExpectedThreeFields
  | Some (modeStr, typeStr, remainder) =>
      match splitPattern (trim remainder) with
      | None => Rejected UnterminatedQuote
      | Some (pattern, methodsStr) =>
          if negb (truthy pattern) then Rejected EmptyPattern
          else
            match validMode (toLowerCase modeStr) with
            | None => Rejected InvalidMode
            | Some mode =>
                match validType (toLowerCase typeStr) with
                | None => Rejected InvalidType
                | Some filterType =>
                    let isRegex := startsWith [TILDE] pattern in
                    let cleanPattern :=
                      if isRegex then sliceFrom 1 pattern else pattern in
                    let flags :=
                      if isRegex then flagMatch cleanPattern else None in
                    let cleanPattern :=
                      match flags with
                      | Some f => dropLast (S (length f)) cleanPattern
                      | None => cleanPattern
                      end in
                    let methods :=
                      match methodsStr with
                      | Some m => if truthy m then parseMethods m else None
                      | None => None
                      end in
                    Entry
                      (mkEntry
                         (mkRule
                            (lit "rule-line-" ++ numberToString (lineIndex + 1))
                            mode cleanPattern isRegex enabled
                            (lit "line " ++ numberToString (lineIndex + 1))
                            methods flags)
                         filterType lineIndex)
                end
            end
      end
  end.

(** The shape every rule that comes out of the parser has. *)
Definition parsedShape (r : FilterRule) : Prop :=
  methods r <> Some []
  /\ (isRegex r = false ->
      pattern r <> [] /\ startsWith [TILDE] (pattern r) = false
      /\ regexFlags r = None)
  /\ (forall f, regexFlags r = Some f ->
        isRegex r = true /\ f <> [] /\ forallb isFlagUnit f = true)
  /\ (isRegex r = true -> regexFlags r = None ->
      flagMatch (pattern r) = None).

(* ================================================================== *)
(** ** filter-engine.ts: search results *)
(* ================================================================== *)

Section SearchResults.

(** A search result is any record; [filenameOf] and [pathOf] read its
    [filename] and [path] fields, absent when [null] or [undefined]. *)
Variable Item : Type.
Variable filenameOf : Item -> option jsstring.
Variable pathOf : Item -> option jsstring.

(** [item.filename ?? item.path]. *)
Definition itemPath (item : Item) : option jsstring :=
  match filenameOf item with
  | Some f => Some f
  | None => pathOf item
  end.

End SearchResults.

(* ================================================================== *)
(** ** securityFilterMiddleware.ts *)
(* ================================================================== *)

(** [s.endsWith(suffix)]. *)
Definition endsWith (suffix s : jsstring) : bool :=
  startsWith (rev suffix) (rev s).

(** [list.includes(s)] and [set.has(s)] on strings. *)
Definition hasString (s : jsstring) (l : list jsstring) : bool :=
  existsb (jseqb s) l.

Definition WRITE_METHODS : list jsstring :=
  [lit "PUT"; lit "POST"; lit "PATCH"; lit "DELETE"].

Definition EXEMPT_ROUTES : list jsstring := [lit "/"; lit "/openapi.yaml"].

Definition WRITE_CAPABLE_PREFIXES : list jsstring :=
  [lit "/vault/"; lit "/active/"; lit "/periodic/"; lit "/commands/";
   lit "/open/"].

(** The first [replace] of [normalizeVaultPath]: every maximal run of two
    or more slashes becomes one slash; a single slash is not matched.
    [afterSlash] tells that the unit before the cursor was a slash. *)
Fixpoint collapseSlashes (afterSlash : bool) (s : jsstring) : jsstring :=
  match s with
  | [] => []
  | c :: t =>
      if (c =? SLASH)%N then
        if afterSlash then collapseSlashes true t
        else SLASH :: collapseSlashes true t
      else c :: collapseSlashes false t
  end.

(** [normalizeVaultPath]: the second [replace] drops the leading
    slashes. *)
Definition normalizeVaultPath (raw : jsstring) : jsstring :=
  dropWhile (N.eqb SLASH) (collapseSlashes false raw).

(** The settings object the middleware reads: the two switches, and the
    fields that [evaluateFile] reads from the same object. *)
Record SecuritySettings : Type := mkSecuritySettings {
  securityFilterEnabled : bool;
  readOnlyMode : bool;
  policy : Settings
}.

(** The request: [req.method], [req.path], [req.ip]. *)
Record Request : Type := mkRequest {
  reqMethod : option jsstring;
  reqPath : jsstring;
  reqIp : option jsstring
}.

(** [SecurityErrorCode], declared in constants.ts. *)
Inductive SecurityErrorCode : Type := AccessDenied | WriteOperationDenied.

(** The [errorCode] of a JSON answer: a [SecurityErrorCode] or a number. *)
Inductive ErrorCode : Type :=
| Security (c : SecurityErrorCode)
| Numeric (n : N).

(** [res.status(status).json({ message, errorCode })]. *)
Record JsonAnswer : Type := mkAnswer {
  status : nat;
  answerMessage : jsstring;
  errorCode : ErrorCode
}.

Inductive LogLevel : Type := level_error | level_warn | level_info.

(** The argument of [auditLogger.logError]. *)
Record LogEntry : Type := mkLogEntry {
  logLevel : LogLevel;
  logMessage : jsstring;
  logClientIp : jsstring;
  logMethod : option jsstring;
  logPath : jsstring;
  logStatus : nat
}.

(** The wrappers the middleware puts around [res.json]. *)
Inductive Interceptor : Type :=
| ListingInterceptor (dirPrefix : jsstring)
| SearchInterceptor.

Inductive NextCall : Type := NotCalled | Called | CalledWithError.

(** Everything one run of the middleware does. *)
Record Outcome : Type := mkOutcome {
  answer : option JsonAnswer;
  next : NextCall;
  attached : list Interceptor;
  logged : list LogEntry
}.

Definition filterTypeName (ft : FilterType) : jsstring :=
  match ft with
  | ft_folder => lit "folder"
  | ft_document_name => lit "document-name"
  | ft_tag => lit "tag"
  | ft_keyword => lit "keyword"
  end.

Section Middleware.

Variable minimatch : jsstring -> jsstring -> bool.
Variable RegExp : jsstring -> option jsstring -> Completion (jsstring -> bool).

(** [decodeURIComponent]: the decoded string, or the message of the
    [URIError] it throws. *)
Variable decodeURIComponent : jsstring -> jsstring + jsstring.

(** [return next()] and the final [next()]. *)
Definition passOn (wrappers : list Interceptor) : Outcome :=
  mkOutcome None Called wrappers [].

(** [auditLogger.logError(...); res.status(...).json(...); return]. *)
Definition refuse (wrappers : list Interceptor) (req : Request)
    (level : LogLevel) (message method decodedPath : jsstring)
    (code : nat) (text : jsstring) (errorCode : ErrorCode) : Outcome :=
  mkOutcome (Some (mkAnswer code text errorCode)) NotCalled wrappers
    [mkLogEntry level message
       (match reqIp req with Some ip => ip | None => lit "127.0.0.1" end)
       (Some method) decodedPath code].

(** The handler that [createSecurityFilterMiddleware] returns.
    [activeFile] is the path of [app.workspace.getActiveFile()]. *)
Definition securityFilter (activeFile : option jsstring)
    (settings : SecuritySettings) (filterEngine : FilterEngine)
    (req : Request) : Outcome :=
  if negb (securityFilterEnabled settings) then passOn []
  else
  let method :=
    toUpperCase
      (match reqMethod req with Some m => m | None => lit "GET" end) in
  match decodeURIComponent (reqPath req) with
  | inr message =>
      mkOutcome None CalledWithError []
        [mkLogEntry level_error
           (lit "security filter exception: " ++ message)
           (match reqIp req with Some ip => ip | None => lit "127.0.0.1" end)
           (reqMethod req) (reqPath req) 500]
  | inl decodedPath =>
  if hasString decodedPath EXEMPT_ROUTES || endsWith (lit ".crt") decodedPath
  then passOn []
  else
  if readOnlyMode settings && hasString method WRITE_METHODS
     && existsb (fun p => startsWith p decodedPath) WRITE_CAPABLE_PREFIXES
  then refuse [] req level_warn
         (lit "write operation denied by read-only mode") method decodedPath
         403 (lit "Access denied") (Security WriteOperationDenied)
  else
  match
    (* Vault path filtering: [inl] is a [return], [inr] carries on. *)
    if startsWith (lit "/vault/") decodedPath then
      let rawVaultPath := sliceFrom (length (lit "/vault/")) decodedPath in
      let vaultPath := normalizeVaultPath rawVaultPath in
      if includes (lit "..") vaultPath || includes [0%N] vaultPath then
        inl (refuse [] req level_error
               (lit "path traversal attempt blocked") method decodedPath
               400 (lit "Bad request") (Numeric 40000%N))
      else
        let isFile := truthy vaultPath && negb (endsWith (lit "/") vaultPath) in
        let decision :=
          evaluateFile minimatch RegExp filterEngine vaultPath
            (policy settings) (Some method) in
        if isFile && negb (allowed decision) then
          inl (refuse [] req level_warn
                 (lit "access denied by "
                    ++ match filterType decision with
                       | Some ft => filterTypeName ft
                       | None => lit "default policy"
                       end
                    ++ lit ": " ++ reason decision)
                 method decodedPath
                 403 (lit "Access denied") (Security AccessDenied))
        else if negb (truthy vaultPath) || endsWith (lit "/") vaultPath
        then inr [ListingInterceptor vaultPath]
        else inr []
    else inr []
  with
  | inl outcome => outcome
  | inr wrappers =>
  match
    (* Active file filtering. *)
    if startsWith (lit "/active/") decodedPath then
      match activeFile with
      | Some activePath =>
          let decision :=
            evaluateFile minimatch RegExp filterEngine activePath
              (policy settings) (Some method) in
          if negb (allowed decision) then
            Some (refuse wrappers req level_warn
                    (lit "active file access denied: " ++ reason decision)
                    method decodedPath
                    403 (lit "Access denied") (Security AccessDenied))
          else None
      | None => None
      end
    else None
  with
  | Some outcome => outcome
  | None =>
  let wrappers :=
    if startsWith (lit "/search") decodedPath
    then wrappers ++ [SearchInterceptor] else wrappers in
  if startsWith (lit "/commands/") decodedPath
     && jseqb method (lit "POST") && readOnlyMode settings
  then refuse wrappers req level_warn
         (lit "command execution denied by read-only mode") method
         decodedPath 403 (lit "Access denied") (Security WriteOperationDenied)
  else passOn wrappers
  end end end.

End Middleware.

(* ================================================================== *)
(** ** The host without its type declarations *)
(* ================================================================== *)

(** [Promise.all(promises)], once every promise has settled: the values in
    the order of the promises, or a rejection when one of them rejects. *)
Fixpoint promiseAll {A : Type} (promises : list (Completion A))
  : Completion (list A) :=
  match promises with
  | [] => Normal []
  | Throw :: _ => Throw
  | Normal x :: rest =>
      match promiseAll rest with
      | Normal xs => Normal (x :: xs)
      | Throw => Throw
      end
  end.

(** The source receives the metadata cache and the vault as [any].  The
    definitions above take the front matter tags of a file to be strings,
    as the loop of [collectFileTags] does; front matter is parsed YAML,
    though, and [tags: [2024]] gives a number.  This module embeds the same
    functions over a cache whose front matter tags are any value, and so
    has the path on which [collectFileTags] throws. *)
Module Untyped.

(** An entry that the loop over [cache.frontmatter.tags] meets: a string,
    or another value (a number, a boolean, [null], a mapping), on which
    [t.startsWith] is not a function. *)
Inductive TagEntry : Type :=
| StringEntry (t : jsstring)
| OtherEntry.

(** A truthy [cache.frontmatter.tags]: something [for ... of] iterates (an
    array with its entries, a string with its code points), or a value
    that is not iterable (a number, [true], a mapping). *)
Inductive FrontmatterTags : Type :=
| Iterable (entries : list TagEntry)
| NotIterable.

(** [inlineTags] is the [tag] field of every entry of [cache.tags], which
    Obsidian's own parser fills with strings; [frontmatterTags] is
    [cache.frontmatter?.tags], absent when it is falsy. *)
Record CachedMetadata : Type := mkCache {
  inlineTags : option (list jsstring);
  frontmatterTags : option FrontmatterTags
}.

(** [app.vault] and [app.metadataCache]. *)
Record App : Type := mkApp {
  getAbstractFileByPath : jsstring -> option TAbstractFile;
  getFileCache : TAbstractFile -> option CachedMetadata;
  cachedRead : TAbstractFile -> Completion jsstring
}.

(** The loop over the front matter tags:
    [const tag = t.startsWith("#") ? t : `#${t}`; tags.push(tag)]. *)
Fixpoint frontmatterLoop (entries : list TagEntry)
  : Completion (list jsstring) :=
  match entries with
  | [] => Normal []
  | OtherEntry :: _ => Throw
  | StringEntry t :: rest =>
      match frontmatterLoop rest with
      | Normal tags => Normal (withHash t :: tags)
      | Throw => Throw
      end
  end.

(** tag-filter.ts, [collectFileTags]: it throws a [TypeError] when the
    front matter tags cannot be iterated or hold an entry that is not a
    string. *)
Definition collectFileTags (filePath : jsstring) (app : App)
  : Completion TagResult :=
  match getAbstractFileByPath app filePath with
  | None => Normal file_not_found
  | Some file =>
      match getFileCache app file with
      | None => Normal cache_unavailable
      | Some cache =>
          let tags :=
            match inlineTags cache with Some ts => ts | None => [] end in
          match
            match frontmatterTags cache with
            | None => Normal []
            | Some NotIterable => Throw
            | Some (Iterable entries) => frontmatterLoop entries
            end
          with
          | Throw => Throw
          | Normal fromFrontmatter =>
              Normal (found (map toLowerCase (tags ++ fromFrontmatter)))
          end
      end
  end.

(** tag-filter.ts, [checkGlobalTags]. *)
Definition checkGlobalTags (filePath : jsstring) (app : App)
    (globalAllowTag globalDenyTag : jsstring)
  : Completion (option FilterDecision) :=
  match collectFileTags filePath app with
  | Throw => Throw
  | Normal file_not_found => Normal None
  | Normal cache_unavailable =>
      if truthy globalDenyTag || truthy globalAllowTag then
        Normal
          (Some (mkDecision false
                   (tagUnavailable (lit "global tags configured"))
                   None (Some ft_tag)))
      else Normal None
  | Normal (found lowerTags) =>
      if truthy globalDenyTag && hasTag (toLowerCase globalDenyTag) lowerTags
      then
        Normal
          (Some (mkDecision false
                   (lit "Global deny tag " ++ [DQUOTE] ++ globalDenyTag
                      ++ [DQUOTE] ++ lit " present")
                   None (Some ft_tag)))
      else if truthy globalAllowTag
              && hasTag (toLowerCase globalAllowTag) lowerTags
      then
        Normal
          (Some (mkDecision true
                   (lit "Global allow tag " ++ [DQUOTE] ++ globalAllowTag
                      ++ [DQUOTE] ++ lit " present")
                   None (Some ft_tag)))
      else Normal None
  end.

(** tag-filter.ts, [checkTagFilter]. *)
Definition checkTagFilter (filePath : jsstring) (rules : list FilterRule)
    (app : App) : Completion (option FilterDecision) :=
  match collectFileTags filePath app with
  | Throw => Throw
  | Normal file_not_found => Normal None
  | Normal cache_unavailable =>
      Normal
        (Some (mkDecision false (tagUnavailable (lit "tag rules configured"))
                 None (Some ft_tag)))
  | Normal (found lowerTags) => Normal (tagRulesLoop lowerTags rules)
  end.

Record FilterEngine : Type := mkEngine {
  app : App;
  fileRules : option ParsedRules
}.

Section Engine.

Variable minimatch : jsstring -> jsstring -> bool.
Variable RegExp : jsstring -> option jsstring -> Completion (jsstring -> bool).

(** keyword-filter.ts, [checkKeywordFilter]: a read that rejects is caught
    and denied. *)
Definition checkKeywordFilter (filePath : jsstring) (rules : list FilterRule)
    (app : App) : option FilterDecision :=
  match getAbstractFileByPath app filePath with
  | None => None
  | Some file =>
      match cachedRead app file with
      | Throw =>
          Some (mkDecision false (lit "File read error") None
                  (Some ft_keyword))
      | Normal content => keywordRulesLoop RegExp content rules
      end
  end.

(** [FilterEngine.evaluateFile]: [Throw] is the rejection of the promise,
    [Normal] its decision.  Nothing in the function catches what
    [checkGlobalTags] or [checkTagFilter] throws. *)
Definition evaluateFile (this : FilterEngine) (filePath : jsstring)
    (settings : Settings) (method : option jsstring)
  : Completion FilterDecision :=
  match checkGlobalTags filePath (app this)
          (globalAllowTag settings) (globalDenyTag settings) with
  | Throw => Throw
  | Normal (Some globalTagResult) => Normal globalTagResult
  | Normal None =>
  match fileRules this with
  | None => Normal (defaultDecision settings)
  | Some rules =>
  match
    if 0 <? length (folder rules)
    then returned method
           (checkFolderFilter minimatch RegExp filePath (folder rules))
    else None
  with
  | Some result => Normal result
  | None =>
  match
    if 0 <? length (name rules)
    then returned method
           (checkDocumentNameFilter minimatch RegExp filePath (name rules))
    else None
  with
  | Some result => Normal result
  | None =>
  match
    if 0 <? length (tag rules)
    then match checkTagFilter filePath (tag rules) (app this) with
         | Throw => Throw
         | Normal result => Normal (returned method result)
         end
    else Normal None
  with
  | Throw => Throw
  | Normal (Some result) => Normal result
  | Normal None =>
  match
    if 0 <? length (keyword rules)
    then returned method
           (checkKeywordFilter filePath (keyword rules) (app this))
    else None
  with
  | Some result => Normal result
  | None => Normal (defaultDecision settings)
  end end end end end
  end.

(** [FilterEngine.filterPaths]: the [Promise.all] rejects when one
    evaluation rejects, and the function with it. *)
Definition filterPaths (this : FilterEngine) (paths : list jsstring)
    (settings : Settings) : Completion (list jsstring) :=
  match
    promiseAll
      (map (fun p =>
              match evaluateFile this p settings (Some (lit "GET")) with
              | Throw => Throw
              | Normal decision =>
                  Normal (if allowed decision then Some p else None)
              end)
         paths)
  with
  | Throw => Throw
  | Normal results => Normal (notNull results)
  end.

(** Whether [evaluateFile] returns a decision that allows [p] for GET. *)
Definition allowsGet (this : FilterEngine) (settings : Settings)
    (p : jsstring) : bool :=
  match evaluateFile this p settings (Some (lit "GET")) with
  | Normal decision => allowed decision
  | Throw => false
  end.

(** The [res.json] that [attachResponseInterceptor] installs, on a body
    whose [files] is an array of strings: the [files] it hands to the
    original [res.json].  The [.catch] hands on an empty listing when
    [filterPaths] rejects. *)
Definition interceptListing (filterEngine : FilterEngine)
    (settings : SecuritySettings) (dirPrefix : jsstring)
    (files : list jsstring) : list jsstring :=
  let fullPaths := map (fun f => dirPrefix ++ f) files in
  match filterPaths filterEngine fullPaths (policy settings) with
  | Normal filtered => map (fun f => sliceFrom (length dirPrefix) f) filtered
  | Throw => []
  end.

Section SearchResults.

(** A search result is any record; [filenameOf] and [pathOf] read its
    [filename] and [path] fields, absent when [null] or [undefined]. *)
Variable Item : Type.
Variable filenameOf : Item -> option jsstring.
Variable pathOf : Item -> option jsstring.

(** [FilterEngine.filterSearchResults]. *)
Definition filterSearchResults (this : FilterEngine) (results : list Item)
    (settings : Settings) : Completion (list Item) :=
  match
    promiseAll
      (map (fun item =>
              match itemPath Item filenameOf pathOf item with
              | None => Normal (Some item)
              | Some p =>
                  if negb (truthy p) then Normal (Some item)
                  else
                    match evaluateFile this p settings (Some (lit "GET")) with
                    | Throw => Throw
                    | Normal decision =>
                        Normal (if allowed decision then Some item else None)
                    end
              end)
         results)
  with
  | Throw => Throw
  | Normal filtered => Normal (notNull filtered)
  end.

End SearchResults.

(** [decodeURIComponent]: the decoded string, or the message of the
    [URIError] it throws. *)
Variable decodeURIComponent : jsstring -> jsstring + jsstring.

(** The message of the [TypeError] that [collectFileTags] throws; its text
    is the JavaScript engine's. *)
Variable typeErrorMessage : jsstring.

(** The [catch] of the handler. *)
Definition caught (wrappers : list Interceptor) (req : Request)
    (message : jsstring) : Outcome :=
  mkOutcome None CalledWithError wrappers
    [mkLogEntry level_error
       (lit "security filter exception: " ++ message)
       (match reqIp req with Some ip => ip | None => lit "127.0.0.1" end)
       (reqMethod req) (reqPath req) 500].

(** The handler that [createSecurityFilterMiddleware] returns.
    [activeFile] is the path of [app.workspace.getActiveFile()]. *)
Definition securityFilter (activeFile : option jsstring)
    (settings : SecuritySettings) (filterEngine : FilterEngine)
    (req : Request) : Outcome :=
  if negb (securityFilterEnabled settings) then passOn []
  else
  let method :=
    toUpperCase
      (match reqMethod req with Some m => m | None => lit "GET" end) in
  match decodeURIComponent (reqPath req) with
  | inr message => caught [] req message
  | inl decodedPath =>
  if hasString decodedPath EXEMPT_ROUTES || endsWith (lit ".crt") decodedPath
  then passOn []
  else
  if readOnlyMode settings && hasString method WRITE_METHODS
     && existsb (fun p => startsWith p decodedPath) WRITE_CAPABLE_PREFIXES
  then refuse [] req level_warn
         (lit "write operation denied by read-only mode") method decodedPath
         403 (lit "Access denied") (Security WriteOperationDenied)
  else
  match
    (* Vault path filtering: [inl] is a [return] or the [catch], [inr]
       carries on. *)
    if startsWith (lit "/vault/") decodedPath then
      let rawVaultPath := sliceFrom (length (lit "/vault/")) decodedPath in
      let vaultPath := normalizeVaultPath rawVaultPath in
      if includes (lit "..") vaultPath || includes [0%N] vaultPath then
        inl (refuse [] req level_error
               (lit "path traversal attempt blocked") method decodedPath
               400 (lit "Bad request") (Numeric 40000%N))
      else
        let listing :=
          if negb (truthy vaultPath) || endsWith (lit "/") vaultPath
          then inr [ListingInterceptor vaultPath]
          else inr [] in
        if truthy vaultPath && negb (endsWith (lit "/") vaultPath) then
          match evaluateFile filterEngine vaultPath (policy settings)
                  (Some method) with
          | Throw => inl (caught [] req typeErrorMessage)
          | Normal decision =>
              if negb (allowed decision) then
                inl (refuse [] req level_warn
                       (lit "access denied by "
                          ++ match filterType decision with
                             | Some ft => filterTypeName ft
                             | None => lit "default policy"
                             end
                          ++ lit ": " ++ reason decision)
                       method decodedPath
                       403 (lit "Access denied") (Security AccessDenied))
              else listing
          end
        else listing
    else inr []
  with
  | inl outcome => outcome
  | inr wrappers =>
  match
    (* Active file filtering. *)
    if startsWith (lit "/active/") decodedPath then
      match activeFile with
      | Some activePath =>
          match evaluateFile filterEngine activePath (policy settings)
                  (Some method) with
          | Throw => Some (caught wrappers req typeErrorMessage)
          | Normal decision =>
              if negb (allowed decision) then
                Some (refuse wrappers req level_warn
                        (lit "active file access denied: " ++ reason decision)
                        method decodedPath
                        403 (lit "Access denied") (Security AccessDenied))
              else None
          end
      | None => None
      end
    else None
  with
  | Some outcome => outcome
  | None =>
  let wrappers :=
    if startsWith (lit "/search") decodedPath
    then wrappers ++ [SearchInterceptor] else wrappers in
  if startsWith (lit "/commands/") decodedPath
     && jseqb method (lit "POST") && readOnlyMode settings
  then refuse wrappers req level_warn
         (lit "command execution denied by read-only mode") method
         decodedPath 403 (lit "Access denied") (Security WriteOperationDenied)
  else passOn wrappers
  end end end.

End Engine.

End Untyped.

(** A cache whose front matter tags are the strings [ts] is, untyped, the
    array of these strings. *)
Definition untypedCache (cache : CachedMetadata) : Untyped.CachedMetadata :=
  Untyped.mkCache (inlineTags cache)
    (match frontmatterTags cache with
     | Some ts => Some (Untyped.Iterable (map Untyped.StringEntry ts))
     | None => None
     end).

Definition untypedApp (a : App) : Untyped.App :=
  Untyped.mkApp (getAbstractFileByPath a)
    (fun file =>
       match getFileCache a file with
       | Some cache => Some (untypedCache cache)
       | None => None
       end)
    (cachedRead a).

Definition untypedEngine (this : FilterEngine) : Untyped.FilterEngine :=
  Untyped.mkEngine (untypedApp (app this)) (fileRules this).

(** The strings among the entries of the front matter tags. *)
Fixpoint stringEntries (entries : list Untyped.TagEntry) : list jsstring :=
  match entries with
  | [] => []
  | Untyped.StringEntry t :: rest => t :: stringEntries rest
  | Untyped.OtherEntry :: rest => stringEntries rest
  end.

(** An untyped cache read as a cache of strings: entries that are not
    strings are left out, and so is a value that cannot be iterated. *)
Definition typedCache (cache : Untyped.CachedMetadata) : CachedMetadata :=
  mkCache (Untyped.inlineTags cache)
    (match Untyped.frontmatterTags cache with
     | Some (Untyped.Iterable entries) => Some (stringEntries entries)
     | Some Untyped.NotIterable => None
     | None => None
     end).

Definition typedApp (a : Untyped.App) : App :=
  mkApp (Untyped.getAbstractFileByPath a)
    (fun file =>
       match Untyped.getFileCache a file with
       | Some cache => Some (typedCache cache)
       | None => None
       end)
    (Untyped.cachedRead a).

Definition typedEngine (this : Untyped.FilterEngine) : FilterEngine :=
  mkEngine (typedApp (Untyped.app this)) (Untyped.fileRules this).

(* ================================================================== *)
(** ** audit-logger.ts: reading the log back *)
(* ================================================================== *)

(** [lines.slice(start)] for an integer [start]: a negative start counts
    from the end of the array. *)
Definition sliceArray {A : Type} (start : Z) (l : list A) : list A :=
  if (start <? 0)%Z
  then skipn (Z.to_nat (Z.max (Z.of_nat (length l) + start) 0)) l
  else skipn (Z.to_nat start) l.

(** The lines [readRecentLines] returns for a log that holds [content]:
    [content.split("\n").filter(l => l.trim()).slice(-count)]. *)
Definition recentLines (content : jsstring) (count : Z) : list jsstring :=
  sliceArray (- count)
    (filter (fun l => truthy (trim l)) (splitUnit LF content)).

Inductive LogType : Type := access_log | error_log.

Record AuditLogger : Type := mkLogger {
  accessLogPath : option jsstring;
  errorLogPath : option jsstring;
  loggerAdapter : option DataAdapter
}.

(** [AuditLogger.readRecentLines]; a rejection of the adapter rejects the
    call. *)
Definition readRecentLines (this : AuditLogger) (logType : LogType)
    (count : Z) : Completion (list jsstring) :=
  let path :=
    match logType with
    | access_log => accessLogPath this
    | error_log => errorLogPath this
    end in
  match path, loggerAdapter this with
  | Some p, Some adapter =>
      if negb (truthy p) then Normal []
      else
        match adapterExists adapter p with
        | Throw => Throw
        | Normal false => Normal []
        | Normal true =>
            match adapterRead adapter p with
            | Throw => Throw
            | Normal content => Normal (recentLines content count)
            end
        end
  | _, _ => Normal []
  end.

(* ================================================================== *)
(** ** audit-logger.ts: writing the error log *)
(* ================================================================== *)

(** The files behind the vault adapter: the content at each path, [None]
    where no file exists. *)
Definition Files : Type := jsstring -> option jsstring.

(** [adapter.write(path, content)]. *)
Definition writeFile (fs : Files) (path content : jsstring) : Files :=
  fun p => if jseqb p path then Some content else fs p.

(** What [adapter.exists] and [adapter.read] answer over these files. *)
Definition adapterOf (fs : Files) : DataAdapter :=
  mkAdapter
    (fun p => Normal (match fs p with Some _ => true | None => false end))
    (fun p => match fs p with Some c => Normal c | None => Throw end).

(** The logger that the constructor builds over the files [fs]. *)
Definition loggerOver (accessPath errorPath : option jsstring) (fs : Files)
  : AuditLogger :=
  mkLogger accessPath errorPath (Some (adapterOf fs)).

(** The fields of [new Date()] that [logError] reads, in local time;
    [getMonth] counts from zero. *)
Record LocalTime : Type := mkTime {
  getFullYear : nat;
  getMonth : nat;
  getDate : nat;
  getHours : nat;
  getMinutes : nat;
  getSeconds : nat
}.

Definition DIGIT_ZERO : N := 48.

(** [s.padStart(targetLength, pad)] for a pad of one unit. *)
Definition padStart (targetLength : nat) (pad : N) (s : jsstring) : jsstring :=
  repeat pad (targetLength - length s) ++ s.

Definition levelName (level : LogLevel) : jsstring :=
  match level with
  | level_error => lit "error"
  | level_warn => lit "warn"
  | level_info => lit "info"
  end.

(** The line [logError] builds.  An absent [clientIp] or [path] is the
    empty string here, an absent [statusCode] is zero: the source tests
    each field for truthiness only. *)
Definition errorLogLine (now : LocalTime) (entry : LogEntry) : jsstring :=
  let date :=
    join (lit "/")
      [numberToString (getFullYear now);
       padStart 2 DIGIT_ZERO (numberToString (getMonth now + 1));
       padStart 2 DIGIT_ZERO (numberToString (getDate now))] in
  let time :=
    join (lit ":")
      [padStart 2 DIGIT_ZERO (numberToString (getHours now));
       padStart 2 DIGIT_ZERO (numberToString (getMinutes now));
       padStart 2 DIGIT_ZERO (numberToString (getSeconds now))] in
  let parts :=
    [date ++ lit " " ++ time ++ lit " [" ++ levelName (logLevel entry)
       ++ lit "] " ++ logMessage entry]
    ++ (if truthy (logClientIp entry)
        then [lit "client: " ++ logClientIp entry] else [])
    ++ (match logMethod entry with
        | Some m => if truthy m then [lit "method: " ++ m] else []
        | None => []
        end)
    ++ (if truthy (logPath entry)
        then [lit "path: " ++ logPath entry] else [])
    ++ (if (logStatus entry =? 0)%nat then []
        else [lit "status: " ++ numberToString (logStatus entry)]) in
  join (lit ", ") parts ++ [LF].

(** [AuditLogger.appendToLog], once its promise has settled: the files
    after the call. *)
Definition appendToLog (this : AuditLogger) (fs : Files)
    (logPath line : jsstring) : Files :=
  match loggerAdapter this with
  | None => fs
  | Some _ =>
      match fs logPath with
      | Some content => writeFile fs logPath (content ++ line)
      | None => writeFile fs logPath line
      end
  end.

(** [AuditLogger.logError] at the time [now]. *)
Definition logError (this : AuditLogger) (fs : Files) (now : LocalTime)
    (entry : LogEntry) : Files :=
  match errorLogPath this with
  | Some p =>
      if negb (truthy p) then fs
      else appendToLog this fs p (errorLogLine now entry)
  | None => fs
  end.

(** One of the two blocks of [clearLogs]. *)
Definition clearLog (this : AuditLogger) (path : option jsstring)
    (fs : Files) : Files :=
  match path, loggerAdapter this with
  | Some p, Some _ =>
      if truthy p then
        match fs p with
        | Some _ => writeFile fs p []
        | None => fs
        end
      else fs
  | _, _ => fs
  end.

(** [AuditLogger.clearLogs]. *)
Definition clearLogs (this : AuditLogger) (fs : Files) : Files :=
  clearLog this (errorLogPath this) (clearLog this (accessLogPath this) fs).

(** The log entry has no line feed in any of its texts. *)
Definition oneLine (entry : LogEntry) : Prop :=
  includesUnit LF (logMessage entry) = false
  /\ includesUnit LF (logClientIp entry) = false
  /\ (forall m, logMethod entry = Some m -> includesUnit LF m = false)
  /\ includesUnit LF (logPath entry) = false.

(* ================================================================== *)
(** ** Worked examples for the editing, middleware and logging code *)
(* ================================================================== *)

(** A rule file of three lines: a comment, a folder rule and a disabled
    keyword rule. *)
Definition exampleConf : jsstring :=
  join [LF]
    [lit "# rules";
     lit "allow  folder  Public/note.md";
     lit "#!disabled deny  keyword  ~password/i  GET,POST"].

Definition examplePluginDir : jsstring := lit ".obsidian/plugins/rest".

(** The entry of the third line of [exampleConf]. *)
Definition exampleEntry : RuleEntry :=
  mkEntry
    (mkRule (lit "rule-line-3") deny (lit "password") true false
       (lit "line 3") (Some [GET; POST]) (Some (lit "i")))
    kind_keyword 2.

(** [decodeURIComponent] restricted to strings without a percent sign,
    which it returns as they are. *)
Definition plainDecode (s : jsstring) : jsstring + jsstring := inl s.

(** An engine over a vault that holds [notePath], with one rule that
    allows it. *)
Definition noteEngine : FilterEngine :=
  mkEngine (oneFileVault notePath None (Normal []))
    (Some (mkParsedRules [exampleRule allow notePath] [] [] [])).

(** The filter switched on, read-only mode on, deny by default. *)
Definition strictSettings : SecuritySettings :=
  mkSecuritySettings true true (noGlobalTags deny).

(** An error log of one line. *)
Definition exampleLogPath : jsstring := lit "logs/error.log".
Definition exampleFiles : Files :=
  fun p => if jseqb p exampleLogPath
           then Some (lit "2026/11/02 09:05:00 [warn] started" ++ [LF])
           else None.

Definition exampleLogEntry : LogEntry :=
  mkLogEntry level_warn (lit "access denied by default policy: none")
    (lit "127.0.0.1") (Some (lit "GET")) (lit "/vault/secret.md") 403.

Definition exampleTime : LocalTime := mkTime 2026 10 2 9 5 7.

(** *** Worked examples on an untyped host *)

(** [const isAscii = s => [...s].every(c => c.charCodeAt(0) < 128)]: the
    strings on which [toUpperCase] and [toLowerCase] above are the
    JavaScript methods. *)
Definition isAscii (s : jsstring) : bool := forallb (fun c => c <? 128)%N s.

Definition yearPath : jsstring := lit "Public/2024.md".

(** A vault of two files: [notePath], without cached metadata, and
    [yearPath], whose front matter says [tags: [2024]]. *)
Definition numericTagVault : Untyped.App :=
  Untyped.mkApp
    (fun p => if jseqb p notePath || jseqb p yearPath
              then Some (TFile p) else None)
    (fun file =>
       match file with
       | TFile p =>
           if jseqb p yearPath
           then Some (Untyped.mkCache None
                        (Some (Untyped.Iterable [Untyped.OtherEntry])))
           else None
       end)
    (fun _ => Normal []).

(** Rules that allow every file of the two by its path. *)
Definition numericTagEngine : Untyped.FilterEngine :=
  Untyped.mkEngine numericTagVault
    (Some (mkParsedRules
             [exampleRule allow notePath; exampleRule allow yearPath]
             [] [] [])).

(* ================================================================== *)
(** ** Facts about JavaScript strings *)
(* ================================================================== *)

Lemma jseqb_eq (a b : jsstring) : jseqb a b = true <-> a = b.
Proof.
  revert b; induction a as [|x a IH]; intros [|y b]; simpl;
    try (split; [discriminate | discriminate]); [tauto|].
  rewrite andb_true_iff, N.eqb_eq, IH.
  split; [intros [-> ->]; reflexivity | intros H; inversion H; auto].
Qed.

Lemma jseqb_refl (a : jsstring) : jseqb a a = true.
Proof. apply jseqb_eq; reflexivity. Qed.

Lemma truthy_true (s : jsstring) : truthy s = true <-> s <> [].
Proof. destruct s; simpl; split; congruence. Qed.

Lemma truthy_false (s : jsstring) : truthy s = false <-> s = [].
Proof. destruct s; simpl; split; congruence. Qed.

Lemma hasTag_In (s : jsstring) (tags : list jsstring) :
  hasTag s tags = true <-> In s tags.
Proof.
  unfold hasTag; rewrite existsb_exists; split.
  - intros (t & Hin & Heq). apply jseqb_eq in Heq. now subst.
  - intros Hin. exists s. split; [assumption | apply jseqb_refl].
Qed.

Lemma hasTag_not_In (s : jsstring) (tags : list jsstring) :
  hasTag s tags = false <-> ~ In s tags.
Proof.
  rewrite <- hasTag_In. destruct (hasTag s tags); split; congruence.
Qed.

(* ================================================================== *)
(** ** The evaluation chain *)
(* ================================================================== *)

Section Engine.

Variable minimatch : jsstring -> jsstring -> bool.
Variable RegExp : jsstring -> option jsstring -> Completion (jsstring -> bool).

Local Abbreviation evaluate := (evaluateFile minimatch RegExp).
Local Abbreviation stageOf := (stage minimatch RegExp).
Local Abbreviation chainOf := (chain minimatch RegExp).
Local Abbreviation matcherOf := (runMatcher minimatch RegExp).

(** [evaluateFile] is the global-tag check followed by the four blocks in
    the order folder, name, tag, keyword. *)
Lemma evaluateFile_chain this filePath settings method :
  evaluate this filePath settings method =
  match checkGlobalTags filePath (app this)
          (globalAllowTag settings) (globalDenyTag settings) with
  | Some g => g
  | None =>
      match fileRules this with
      | None => defaultDecision settings
      | Some rules => chainOf this stageOrder filePath rules settings method
      end
  end.
Proof.
  unfold evaluateFile, stageOrder; simpl; unfold stage; simpl.
  destruct (checkGlobalTags _ _ _ _); [reflexivity|].
  destruct (fileRules this) as [rules|]; [|reflexivity].
  repeat match goal with
         | |- context [if ?b then _ else _] => destruct b
         | |- context [returned ?m ?r] => destruct (returned m r)
         end; reflexivity.
Qed.

(** Stages that return nothing are passed over. *)
Lemma chain_skip this pre post filePath rules settings method :
  (forall k, In k pre -> stageOf this k filePath rules method = None) ->
  chainOf this (pre ++ post) filePath rules settings method =
  chainOf this post filePath rules settings method.
Proof.
  induction pre as [|k pre IH]; intros Hpre; simpl; [reflexivity|].
  rewrite (Hpre k (or_introl eq_refl)).
  apply IH. intros k' Hk'. apply Hpre. now right.
Qed.





(** C1: when the tag set of the candidate is retrievable, the configured
    global deny tag found in it makes [evaluateFile] deny, and the configured
    global allow tag found in it, with the deny tag not configured or not
    found, makes [evaluateFile] allow; no rule list, method or default
    policy takes part.  With both tags found the first statement applies:
    deny wins. *)
Theorem C1_global_tags_override this filePath settings method lowerTags :
  collectFileTags filePath (app this) = found lowerTags ->
  (globalDenyTag settings <> [] ->
   In (toLowerCase (globalDenyTag settings)) lowerTags ->
   allowed (evaluate this filePath settings method) = false)
  /\
  (globalAllowTag settings <> [] ->
   In (toLowerCase (globalAllowTag settings)) lowerTags ->
   globalDenyTag settings = []
   \/ ~ In (toLowerCase (globalDenyTag settings)) lowerTags ->
   allowed (evaluate this filePath settings method) = true).
Proof.
  intros Htags. unfold evaluateFile, checkGlobalTags. rewrite Htags. split.
  - intros Hcfg Hin.
    apply truthy_true in Hcfg. apply hasTag_In in Hin.
    rewrite Hcfg, Hin. reflexivity.
  - intros Hcfg Hin Hdeny.
    apply truthy_true in Hcfg. apply hasTag_In in Hin.
    assert (truthy (globalDenyTag settings)
            && hasTag (toLowerCase (globalDenyTag settings)) lowerTags = false)
      as ->.
    { destruct Hdeny as [-> | Hno]; [reflexivity|].
      apply hasTag_not_In in Hno. rewrite Hno. apply andb_false_r. }
    rewrite Hcfg, Hin. reflexivity.
Qed.


(** A decision without a matched rule passes the method guard. *)
Lemma applies_no_rule method d : matchedRule d = None -> applies method d = true.
Proof.
  intros H. destruct method as [m|]; simpl; [|reflexivity].
  rewrite H. apply orb_true_r.
Qed.


Lemma failsClosed_decision this k filePath rules :
  failsClosed (app this) k filePath ->
  exists d, matcherOf this k filePath rules = Some d
            /\ allowed d = false /\ matchedRule d = None.
Proof.
  destruct k; simpl; try contradiction.
  - intros H. unfold checkTagFilter. rewrite H. eexists; repeat split.
  - intros (file & Hfile & Hread). unfold checkKeywordFilter.
    rewrite Hfile, Hread. eexists; repeat split.
Qed.

(** C10: a fail-closed denial carries no matched rule, [methodAllowed] lets
    a decision without a matched rule through for every method, and so the
    block that reaches a failing-closed matcher returns its denial from
    [evaluateFile] whatever the method of the candidate is. *)
Theorem C10_fail_closed_ignores_method
    this filePath settings rules method k pre post :
  failsClosed (app this) k filePath ->
  fileRules this = Some rules ->
  checkGlobalTags filePath (app this)
    (globalAllowTag settings) (globalDenyTag settings) = None ->
  stageOrder = pre ++ k :: post ->
  (forall k', In k' pre -> stageOf this k' filePath rules method = None) ->
  group k rules <> [] ->
  exists d,
    matcherOf this k filePath rules = Some d
    /\ allowed d = false
    /\ matchedRule d = None
    /\ (forall m, methodAllowed (matchedRule d) m = true)
    /\ evaluate this filePath settings method = d.
Proof.
  intros Hfail Hrules Hglobal Horder Hpre Hne.
  destruct (failsClosed_decision this k filePath rules Hfail)
    as (d & Hd & Hdeny & Hnone).
  exists d. repeat split; try assumption.
  - intros m. now rewrite Hnone.
  - rewrite evaluateFile_chain, Hglobal, Hrules, Horder.
    rewrite chain_skip by assumption. cbn [chain]. unfold stage.
    destruct (group k rules) as [|r0 rs]; [contradiction|]. cbn [length Nat.ltb Nat.leb].
    rewrite Hd. cbn [returned]. now rewrite applies_no_rule.
Qed.

Lemma notNull_filter {A : Type} (keep : A -> bool) (l : list A) :
  notNull (map (fun p => if keep p then Some p else None) l) = filter keep l.
Proof.
  induction l as [|x l IH]; simpl; [reflexivity|].
  destruct (keep x); simpl; now rewrite IH.
Qed.

Lemma filter_Subsequence {A : Type} (keep : A -> bool) (l : list A) :
  Subsequence (filter keep l) l.
Proof.
  induction l as [|x l IH]; simpl; [constructor|].
  destruct (keep x); now constructor.
Qed.

Lemma collectFileTags_unavailable a filePath file :
  getAbstractFileByPath a filePath = Some file ->
  getFileCache a file = None ->
  collectFileTags filePath a = cache_unavailable.
Proof. intros H1 H2. unfold collectFileTags. now rewrite H1, H2. Qed.

Lemma collectFileTags_not_found a filePath :
  getAbstractFileByPath a filePath = None ->
  collectFileTags filePath a = file_not_found.
Proof. intros H. unfold collectFileTags. now rewrite H. Qed.

(** C2 (amended): for a candidate that exists without cached metadata the
    tag matcher returns a denial whose reason mentions unavailability, and
    [evaluateFile] returns such a denial when a global tag is configured, or
    when custom tag rules are configured and neither the folder block nor
    the name block has returned.  For a candidate that exists and whose read
    throws, the keyword matcher returns a denial with the reason
    [File read error], which does not mention unavailability, and
    [evaluateFile] returns it when keyword rules are configured and no
    earlier block has returned.  For a candidate that does not exist the
    global-tag check, the tag matcher and the keyword matcher return
    nothing. *)
Theorem C2_fail_closed_unless_decided_earlier
    this filePath settings method :
  let a := app this in
  let result := evaluate this filePath settings method in
  (forall file,
      getAbstractFileByPath a filePath = Some file ->
      getFileCache a file = None ->
      (forall rs, exists d,
          checkTagFilter filePath rs a = Some d
          /\ allowed d = false
          /\ includes (lit "unavailable") (reason d) = true)
      /\ (globalDenyTag settings <> [] \/ globalAllowTag settings <> [] ->
          allowed result = false
          /\ includes (lit "unavailable") (reason result) = true)
      /\ (forall rules,
             fileRules this = Some rules ->
             tag rules <> [] ->
             stageOf this kind_folder filePath rules method = None ->
             stageOf this kind_name filePath rules method = None ->
             allowed result = false
             /\ includes (lit "unavailable") (reason result) = true))
  /\
  (forall file,
      getAbstractFileByPath a filePath = Some file ->
      cachedRead a file = Throw ->
      let denial :=
        mkDecision false (lit "File read error") None (Some ft_keyword) in
      (forall rs, checkKeywordFilter RegExp filePath rs a = Some denial)
      /\ includes (lit "unavailable") (reason denial) = false
      /\ (forall rules,
             fileRules this = Some rules ->
             keyword rules <> [] ->
             checkGlobalTags filePath a
               (globalAllowTag settings) (globalDenyTag settings) = None ->
             stageOf this kind_folder filePath rules method = None ->
             stageOf this kind_name filePath rules method = None ->
             stageOf this kind_tag filePath rules method = None ->
             result = denial))
  /\
  (getAbstractFileByPath a filePath = None ->
   checkGlobalTags filePath a
     (globalAllowTag settings) (globalDenyTag settings) = None
   /\ (forall rs, checkTagFilter filePath rs a = None)
   /\ (forall rs, checkKeywordFilter RegExp filePath rs a = None)).
Proof.
  intros a result. split; [|split].
  - intros file Hfile Hcache.
    pose proof (collectFileTags_unavailable a filePath file Hfile Hcache)
      as Hun.
    split; [|split].
    + intros rs. unfold checkTagFilter. rewrite Hun.
      eexists. split; [reflexivity|]. split; reflexivity.
    + intros Hcfg. subst result. unfold evaluateFile, checkGlobalTags.
      fold a. rewrite Hun.
      assert (truthy (globalDenyTag settings)
              || truthy (globalAllowTag settings) = true) as ->.
      { apply orb_true_iff.
        destruct Hcfg as [H|H]; apply truthy_true in H; auto. }
      split; reflexivity.
    + intros rules Hrules Hne Hfolder Hname. subst result.
      rewrite evaluateFile_chain. unfold checkGlobalTags. fold a.
      rewrite Hun, Hrules.
      destruct (truthy (globalDenyTag settings)
                || truthy (globalAllowTag settings));
        [split; reflexivity|].
      unfold stageOrder. cbn [chain]. rewrite Hfolder, Hname.
      unfold stage. cbn [group runMatcher].
      destruct (tag rules) as [|r0 rs]; [contradiction|].
      cbn [length Nat.ltb Nat.leb].
      unfold checkTagFilter. fold a. rewrite Hun. cbn [returned].
      rewrite applies_no_rule by reflexivity.
      split; reflexivity.
  - intros file Hfile Hread denial.
    assert (forall rs, checkKeywordFilter RegExp filePath rs a = Some denial)
      as Hkw.
    { intros rs. unfold checkKeywordFilter. now rewrite Hfile, Hread. }
    split; [exact Hkw|]. split; [reflexivity|].
    intros rules Hrules Hne Hglobal Hfolder Hname Htag. subst result.
    rewrite evaluateFile_chain. fold a. rewrite Hglobal, Hrules.
    unfold stageOrder. cbn [chain]. rewrite Hfolder, Hname, Htag.
    unfold stage. cbn [group runMatcher].
    destruct (keyword rules) as [|r0 rs]; [contradiction|].
    cbn [length Nat.ltb Nat.leb]. fold a. rewrite Hkw. cbn [returned].
    rewrite applies_no_rule by reflexivity. reflexivity.
  - intros Hnone.
    pose proof (collectFileTags_not_found a filePath Hnone) as Hnf.
    unfold checkGlobalTags, checkTagFilter, checkKeywordFilter.
    rewrite Hnf, Hnone. auto.
Qed.

End Engine.

(* ================================================================== *)
(** ** The matchers *)
(* ================================================================== *)

Lemma find_first {A : Type} (f : A -> bool) (pre post : list A) (x : A) :
  (forall y, In y pre -> f y = false) ->
  f x = true ->
  find f (pre ++ x :: post) = Some x.
Proof.
  induction pre as [|y pre IH]; intros Hpre Hx; simpl.
  - now rewrite Hx.
  - rewrite (Hpre y (or_introl eq_refl)).
    apply IH; [|assumption]. intros z Hz. apply Hpre. now right.
Qed.

Lemma find_without {A : Type} (f : A -> bool) (pre post : list A) (x : A) :
  f x = false ->
  find f (pre ++ x :: post) = find f (pre ++ post).
Proof.
  intros Hx. induction pre as [|y pre IH]; simpl.
  - now rewrite Hx.
  - destruct (f y); [reflexivity | exact IH].
Qed.

Lemma find_filter {A : Type} (f g : A -> bool) (l : list A) :
  (forall x, f x = true -> g x = true) ->
  find f (filter g l) = find f l.
Proof.
  intros Himp. induction l as [|x l IH]; simpl; [reflexivity|].
  destruct (g x) eqn:G; simpl.
  - destruct (f x); [reflexivity | exact IH].
  - destruct (f x) eqn:F; [|exact IH].
    apply Himp in F. congruence.
Qed.

Section Matching.

Variable minimatch : jsstring -> jsstring -> bool.
Variable RegExp : jsstring -> option jsstring -> Completion (jsstring -> bool).

Local Abbreviation folderFires := (folderRuleFires minimatch RegExp).
Local Abbreviation nameFires := (nameRuleFires minimatch RegExp).
Local Abbreviation keywordFires := (keywordRuleFires RegExp).

(** Each loop stops at the first rule that fires. *)
Lemma checkFolderFilter_find filePath rules :
  checkFolderFilter minimatch RegExp filePath rules
  = option_map folderHit (find (folderFires filePath) rules).
Proof.
  induction rules as [|r rules IH]; simpl; [reflexivity|].
  unfold folderRuleFires, regexFires.
  destruct (enabled r); simpl; [|exact IH].
  destruct (isRegex r).
  - destruct (RegExp (pattern r) None) as [test|]; [|exact IH].
    destruct (test filePath); [reflexivity | exact IH].
  - destruct (minimatch filePath (pattern r)); [reflexivity | exact IH].
Qed.

Lemma checkDocumentNameFilter_find filePath rules :
  checkDocumentNameFilter minimatch RegExp filePath rules
  = option_map nameHit (find (nameFires filePath) rules).
Proof.
  unfold checkDocumentNameFilter.
  induction rules as [|r rules IH]; simpl; [reflexivity|].
  unfold nameRuleFires, regexFires.
  destruct (enabled r); simpl; [|exact IH].
  destruct (isRegex r).
  - destruct (RegExp (pattern r) None) as [test|]; [|exact IH].
    destruct (test (basename filePath)); [reflexivity | exact IH].
  - destruct (minimatch (basename filePath) (pattern r));
      [reflexivity | exact IH].
Qed.

Lemma keywordRulesLoop_find content rules :
  keywordRulesLoop RegExp content rules
  = option_map keywordHit (find (keywordFires content) rules).
Proof.
  induction rules as [|r rules IH]; simpl; [reflexivity|].
  unfold keywordRuleFires, regexFires.
  destruct (enabled r); simpl; [|exact IH].
  destruct (isRegex r).
  - destruct (RegExp (pattern r) None) as [test|]; [|exact IH].
    destruct (test content); [reflexivity | exact IH].
  - destruct (includes (pattern r) content); [reflexivity | exact IH].
Qed.

Lemma tagRulesLoop_find lowerTags rules :
  tagRulesLoop lowerTags rules
  = option_map tagHit (find (tagRuleFires lowerTags) rules).
Proof.
  induction rules as [|r rules IH]; simpl; [reflexivity|].
  unfold tagRuleFires.
  destruct (enabled r); simpl; [|exact IH].
  destruct (tagRuleMatches lowerTags r); [reflexivity | exact IH].
Qed.

(** C6: in each of the four matchers, the first rule of the list (in list
    order) that is enabled and whose pattern matches the candidate decides:
    the matcher returns the decision built from that rule, allowed exactly
    when its mode is allow, whatever rules follow it. *)
Theorem C6_first_match_wins
    (filePath : jsstring) (a : App) (pre post : list FilterRule)
    (r : FilterRule) :
  ((forall r', In r' pre -> folderFires filePath r' = false) ->
   folderFires filePath r = true ->
   checkFolderFilter minimatch RegExp filePath (pre ++ r :: post)
   = Some (folderHit r))
  /\
  ((forall r', In r' pre -> nameFires filePath r' = false) ->
   nameFires filePath r = true ->
   checkDocumentNameFilter minimatch RegExp filePath (pre ++ r :: post)
   = Some (nameHit r))
  /\
  (forall lowerTags,
      collectFileTags filePath a = found lowerTags ->
      (forall r', In r' pre -> tagRuleFires lowerTags r' = false) ->
      tagRuleFires lowerTags r = true ->
      checkTagFilter filePath (pre ++ r :: post) a = Some (tagHit r))
  /\
  (forall file content,
      getAbstractFileByPath a filePath = Some file ->
      cachedRead a file = Normal content ->
      (forall r', In r' pre -> keywordFires content r' = false) ->
      keywordFires content r = true ->
      checkKeywordFilter RegExp filePath (pre ++ r :: post) a
      = Some (keywordHit r))
  /\
  (forall hit, In hit [folderHit; nameHit; tagHit; keywordHit] ->
      allowed (hit r) = FilterMode_eqb (mode r) allow
      /\ matchedRule (hit r) = Some r).
Proof.
  split; [|split; [|split; [|split]]].
  - intros Hpre Hr.
    now rewrite checkFolderFilter_find, (find_first _ pre post r Hpre Hr).
  - intros Hpre Hr.
    now rewrite checkDocumentNameFilter_find,
      (find_first _ pre post r Hpre Hr).
  - intros lowerTags Htags Hpre Hr. unfold checkTagFilter. rewrite Htags.
    now rewrite tagRulesLoop_find, (find_first _ pre post r Hpre Hr).
  - intros file content Hfile Hread Hpre Hr. unfold checkKeywordFilter.
    rewrite Hfile, Hread.
    now rewrite keywordRulesLoop_find, (find_first _ pre post r Hpre Hr).
  - intros hit Hin. simpl in Hin.
    destruct Hin as [<-|[<-|[<-|[<-|[]]]]]; split; reflexivity.
Qed.

(** The length test in front of the folder and name blocks changes
    nothing: their matchers return nothing on the empty list. *)
Lemma guard_redundant (method : option jsstring)
    (check : list FilterRule -> option FilterDecision) (l : list FilterRule) :
  check [] = None ->
  (if 0 <? length l then returned method (check l) else None)
  = returned method (check l).
Proof. intros H. destruct l; [now rewrite H | reflexivity]. Qed.

(** C9: a rule whose pattern the [RegExp] constructor rejects is passed
    over by the folder, name and keyword matchers: each returns, for every
    candidate, what it returns on the list without that rule, and so does
    [evaluateFile] for a folder or name rule.  For a keyword rule it does
    so as long as another keyword rule remains or the keyword matcher does
    not fail closed on the candidate: a rule that is the only keyword rule
    still switches the keyword block on.  The throw is consumed inside the
    loop: the matcher still returns a value.  The tag matcher compiles no
    pattern: it tests the rule as it tests the same rule not marked as a
    regular expression. *)
Theorem C9_invalid_regex_is_skipped
    (filePath : jsstring) (a : App) (pre post : list FilterRule)
    (r : FilterRule) :
  invalidRegex RegExp r ->
  (checkFolderFilter minimatch RegExp filePath (pre ++ r :: post)
   = checkFolderFilter minimatch RegExp filePath (pre ++ post)
   /\ checkDocumentNameFilter minimatch RegExp filePath (pre ++ r :: post)
      = checkDocumentNameFilter minimatch RegExp filePath (pre ++ post)
   /\ checkKeywordFilter RegExp filePath (pre ++ r :: post) a
      = checkKeywordFilter RegExp filePath (pre ++ post) a)
  /\
  (forall fo na ta kw settings method,
      evaluateFile minimatch RegExp
        (mkEngine a (Some (mkParsedRules (pre ++ r :: post) na ta kw)))
        filePath settings method
      = evaluateFile minimatch RegExp
          (mkEngine a (Some (mkParsedRules (pre ++ post) na ta kw)))
          filePath settings method
      /\ evaluateFile minimatch RegExp
           (mkEngine a (Some (mkParsedRules fo (pre ++ r :: post) ta kw)))
           filePath settings method
         = evaluateFile minimatch RegExp
             (mkEngine a (Some (mkParsedRules fo (pre ++ post) ta kw)))
             filePath settings method
      /\ (pre ++ post <> [] \/ ~ failsClosed a kind_keyword filePath ->
          evaluateFile minimatch RegExp
            (mkEngine a (Some (mkParsedRules fo na ta (pre ++ r :: post))))
            filePath settings method
          = evaluateFile minimatch RegExp
              (mkEngine a (Some (mkParsedRules fo na ta (pre ++ post))))
              filePath settings method))
  /\
  (forall lowerTags,
      tagRuleFires lowerTags r
      = tagRuleFires lowerTags (withIsRegex false r)).
Proof.
  intros [Hregex Hthrow].
  assert (forall s, regexFires RegExp r s = false) as Hno.
  { intros s. unfold regexFires. now rewrite Hthrow. }
  assert (checkFolderFilter minimatch RegExp filePath (pre ++ r :: post)
          = checkFolderFilter minimatch RegExp filePath (pre ++ post))
    as Hfolder.
  { rewrite !checkFolderFilter_find. f_equal. apply find_without.
    unfold folderRuleFires. rewrite Hregex, Hno. apply andb_false_r. }
  assert (checkDocumentNameFilter minimatch RegExp filePath
            (pre ++ r :: post)
          = checkDocumentNameFilter minimatch RegExp filePath (pre ++ post))
    as Hname.
  { rewrite !checkDocumentNameFilter_find. f_equal. apply find_without.
    unfold nameRuleFires. rewrite Hregex, Hno. apply andb_false_r. }
  assert (checkKeywordFilter RegExp filePath (pre ++ r :: post) a
          = checkKeywordFilter RegExp filePath (pre ++ post) a) as Hkeyword.
  { unfold checkKeywordFilter.
    destruct (getAbstractFileByPath a filePath) as [file|]; [|reflexivity].
    destruct (cachedRead a file) as [content|]; [|reflexivity].
    rewrite !keywordRulesLoop_find. f_equal. apply find_without.
    unfold keywordRuleFires. rewrite Hregex, Hno. apply andb_false_r. }
  split; [auto|]. split; [|reflexivity].
  intros fo na ta kw settings method. unfold evaluateFile.
  cbn [fileRules folder name tag keyword app].
  split; [|split].
  - rewrite !(guard_redundant method (checkFolderFilter minimatch RegExp
                                        filePath)) by reflexivity.
    now rewrite Hfolder.
  - rewrite !(guard_redundant method (checkDocumentNameFilter minimatch
                                        RegExp filePath)) by reflexivity.
    now rewrite Hname.
  - intros Hrest. rewrite Hkeyword.
    destruct (pre ++ post) as [|r0 rest] eqn:E; [|destruct pre; reflexivity].
    destruct Hrest as [Hrest | Hopen]; [contradiction|].
    apply app_eq_nil in E. destruct E as [-> ->].
    cbn [Datatypes.app length Nat.ltb Nat.leb].
    assert (checkKeywordFilter RegExp filePath [] a = None) as ->;
      [|reflexivity].
    unfold checkKeywordFilter.
    destruct (getAbstractFileByPath a filePath) as [file|] eqn:Hfile;
      [|reflexivity].
    destruct (cachedRead a file) as [content|] eqn:Hread; [reflexivity|].
    exfalso. apply Hopen. exists file. now split.
Qed.

(** The matchers skip disabled rules. *)
Lemma matchers_skip_disabled (filePath : jsstring) (a : App)
    (rules : list FilterRule) :
  checkFolderFilter minimatch RegExp filePath (filter enabled rules)
  = checkFolderFilter minimatch RegExp filePath rules
  /\ checkDocumentNameFilter minimatch RegExp filePath (filter enabled rules)
     = checkDocumentNameFilter minimatch RegExp filePath rules
  /\ checkTagFilter filePath (filter enabled rules) a
     = checkTagFilter filePath rules a
  /\ checkKeywordFilter RegExp filePath (filter enabled rules) a
     = checkKeywordFilter RegExp filePath rules a.
Proof.
  split; [|split; [|split]].
  - rewrite !checkFolderFilter_find. f_equal. apply find_filter.
    intros x H. unfold folderRuleFires in H. now apply andb_true_iff in H.
  - rewrite !checkDocumentNameFilter_find. f_equal. apply find_filter.
    intros x H. unfold nameRuleFires in H. now apply andb_true_iff in H.
  - unfold checkTagFilter.
    destruct (collectFileTags filePath a); try reflexivity.
    rewrite !tagRulesLoop_find. f_equal. apply find_filter.
    intros x H. unfold tagRuleFires in H. now apply andb_true_iff in H.
  - unfold checkKeywordFilter.
    destruct (getAbstractFileByPath a filePath) as [file|]; [|reflexivity].
    destruct (cachedRead a file) as [content|]; [|reflexivity].
    rewrite !keywordRulesLoop_find. f_equal. apply find_filter.
    intros x H. unfold keywordRuleFires in H. now apply andb_true_iff in H.
Qed.

(** A matcher never stops at a disabled rule. *)
Lemma matched_rule_enabled (this : FilterEngine) (k : RuleKind)
    (filePath : jsstring) (rules : ParsedRules) d r :
  runMatcher minimatch RegExp this k filePath rules = Some d ->
  matchedRule d = Some r ->
  enabled r = true.
Proof.
  assert (forall (f : FilterRule -> bool) hit l,
             (forall x, f x = true -> enabled x = true) ->
             (forall x, matchedRule (hit x) = Some x) ->
             option_map hit (find f l) = Some d ->
             matchedRule d = Some r -> enabled r = true) as Hfind.
  { intros f hit l Hf Hhit Hd Hr.
    destruct (find f l) as [x|] eqn:E; [|discriminate].
    apply find_some in E. destruct E as [_ E]. apply Hf in E.
    inversion Hd; subst d. rewrite Hhit in Hr. congruence. }
  destruct k; simpl.
  - rewrite checkFolderFilter_find. apply Hfind; [|reflexivity].
    intros x H. unfold folderRuleFires in H. now apply andb_true_iff in H.
  - rewrite checkDocumentNameFilter_find. apply Hfind; [|reflexivity].
    intros x H. unfold nameRuleFires in H. now apply andb_true_iff in H.
  - unfold checkTagFilter. destruct (collectFileTags filePath (app this)).
    + rewrite tagRulesLoop_find. apply Hfind; [|reflexivity].
      intros x H. unfold tagRuleFires in H. now apply andb_true_iff in H.
    + discriminate.
    + intros H Hr. inversion H; subst d. discriminate.
  - unfold checkKeywordFilter.
    destruct (getAbstractFileByPath (app this) filePath) as [file|];
      [|discriminate].
    destruct (cachedRead (app this) file) as [content|].
    + rewrite keywordRulesLoop_find. apply Hfind; [|reflexivity].
      intros x H. unfold keywordRuleFires in H. now apply andb_true_iff in H.
    + intros H Hr. inversion H; subst d. discriminate.
Qed.

End Matching.

(* ================================================================== *)
(** ** The rule file: what the parser keeps *)
(* ================================================================== *)

(** An entry records the index of its line, and is enabled exactly when the
    line does not carry the disabled marker. *)
Lemma parseRuleLine_Entry line i e :
  parseRuleLine line i = Entry e ->
  lineNumber e = i
  /\ enabled (rule e) = negb (startsWith DISABLED_PREFIX line).
Proof.
  unfold parseRuleLine.
  repeat match goal with
         | |- context [match ?x with _ => _ end] =>
             lazymatch x with
             | startsWith DISABLED_PREFIX line => fail
             | _ => destruct x
             end
         | |- Rejected _ = Entry _ -> _ => discriminate
         end;
    intros H; inversion H; subst e; simpl; split; reflexivity.
Qed.

Lemma group_pushRule k k0 r g :
  group k (pushRule k0 r g)
  = group k g ++ (if RuleKind_eqb k0 k then [r] else []).
Proof. destruct k, k0; simpl; now rewrite ?app_nil_r. Qed.

Lemma activeOf_snoc k es e :
  activeOf k (es ++ [e])
  = activeOf k es
    ++ (if enabled (rule e) && RuleKind_eqb (entryType e) k
        then [rule e] else []).
Proof.
  unfold activeOf. rewrite filter_app, map_app. simpl.
  now destruct (enabled (rule e) && RuleKind_eqb (entryType e) k).
Qed.

Lemma parseLine_active l i acc :
  groupedIsActive acc -> groupedIsActive (parseLine l i acc).
Proof.
  intros Inv. unfold parseLine.
  destruct (negb (truthy (trim l))); [assumption|].
  destruct (startsWith [HASH] (trim l) && _); [assumption|].
  destruct (parseRuleLine (trim l) i) as [e|]; [|assumption].
  intros k. simpl. rewrite activeOf_snoc, <- Inv.
  destruct (enabled (rule e)); simpl.
  - apply group_pushRule.
  - now rewrite app_nil_r.
Qed.

Lemma parseLines_active lines i acc :
  groupedIsActive acc -> groupedIsActive (parseLines lines i acc).
Proof.
  revert i acc. induction lines as [|l lines IH]; intros i acc Inv; simpl.
  - assumption.
  - apply IH. now apply parseLine_active.
Qed.

Lemma parseLine_entries l i acc e :
  In e (entries (parseLine l i acc)) ->
  In e (entries acc)
  \/ (lineNumber e = i /\ parseRuleLine (trim l) i = Entry e).
Proof.
  unfold parseLine.
  destruct (negb (truthy (trim l))); [auto|].
  destruct (startsWith [HASH] (trim l) && _); [auto|].
  destruct (parseRuleLine (trim l) i) as [e'|] eqn:E; [|auto].
  simpl. rewrite in_app_iff. simpl. intros [H|[<-|[]]]; [auto|].
  right. split; [|reflexivity]. now apply parseRuleLine_Entry in E.
Qed.

Lemma parseLines_entries lines i acc :
  entriesFromLines lines i (entries acc) (parseLines lines i acc).
Proof.
  revert i acc. induction lines as [|l lines IH]; intros i acc e He; simpl in *.
  - now left.
  - destruct (IH (S i) (parseLine l i acc) e He) as [Hold | (Hle & l' & Hl' & Hp)].
    + destruct (parseLine_entries l i acc e Hold) as [H | [Hn Hp]]; [now left|].
      right. split; [lia|]. exists l. rewrite Hn, Nat.sub_diag. now split.
    + right. split; [lia|]. exists l'. split; [|assumption].
      replace (lineNumber e - i) with (S (lineNumber e - S i)) by lia.
      exact Hl'.
Qed.

(** An inert line adds nothing to the grouped rules. *)
Lemma parseLine_inert l i acc :
  inertLine l = true -> grouped (parseLine l i acc) = grouped acc.
Proof.
  unfold inertLine, parseLine. intros H.
  destruct (truthy (trim l)); cbn [negb orb] in *; [|reflexivity].
  rewrite H. cbn [andb].
  destruct (startsWith DISABLED_PREFIX (trim l)) eqn:D; cbn [negb];
    [|reflexivity].
  destruct (parseRuleLine (trim l) i) as [e|] eqn:E; [|reflexivity].
  apply parseRuleLine_Entry in E. destruct E as [_ E].
  rewrite D in E. cbn [negb] in E. cbn [grouped]. now rewrite E.
Qed.

Lemma parseLine_grouped l i acc1 acc2 :
  grouped acc1 = grouped acc2 ->
  grouped (parseLine l i acc1) = grouped (parseLine l i acc2).
Proof.
  intros H. unfold parseLine.
  destruct (negb (truthy (trim l))); [assumption|].
  destruct (startsWith [HASH] (trim l) && _); [assumption|].
  destruct (parseRuleLine (trim l) i) as [e|]; [|assumption].
  simpl. now rewrite H.
Qed.

Lemma parseLines_inert lines1 lines2 i acc1 acc2 :
  Forall2 (fun l1 l2 =>
             l1 = l2 \/ (inertLine l1 = true /\ inertLine l2 = true))
    lines1 lines2 ->
  grouped acc1 = grouped acc2 ->
  grouped (parseLines lines1 i acc1) = grouped (parseLines lines2 i acc2).
Proof.
  intros Hlines. revert i acc1 acc2.
  induction Hlines as [|l1 l2 r1 r2 Hl _ IH]; intros i acc1 acc2 Hacc; simpl.
  - assumption.
  - apply IH. destruct Hl as [<- | [H1 H2]].
    + now apply parseLine_grouped.
    + now rewrite !parseLine_inert.
Qed.

Lemma activeOf_enabled k es r : In r (activeOf k es) -> enabled r = true.
Proof.
  unfold activeOf. rewrite in_map_iff. intros (e & <- & He).
  apply filter_In in He. destruct He as [_ He].
  now apply andb_true_iff in He.
Qed.

Lemma parseRulesFile_active content :
  groupedIsActive (parseRulesFile content).
Proof.
  apply parseLines_active. intros k. now destruct k.
Qed.

Section DisabledRules.

Variable minimatch : jsstring -> jsstring -> bool.
Variable RegExp : jsstring -> option jsstring -> Completion (jsstring -> bool).

(** C7: a disabled rule takes no part in any decision.  The grouped rules
    that [parseRulesFile] hands to the engine are exactly the rules of the
    enabled entries, so every one of them is enabled, while a disabled rule
    is kept in the entry list with the index of its line; rewriting,
    commenting out or blanking disabled lines of a file, whatever their
    patterns, changes no decision of [evaluateFile]; and each matcher
    returns on any rule list what it returns on its enabled rules, never
    stopping at a disabled one. *)
Theorem C7_disabled_rules_never_decide (content : jsstring) (a : App) :
  let parsed := parseRulesFile content in
  (forall k r, In r (group k (grouped parsed)) -> enabled r = true)
  /\ (forall k, group k (grouped parsed) = activeOf k (entries parsed))
  /\ (forall e, In e (entries parsed) ->
        enabled (rule e) = false ->
        exists l, nth_error (splitUnit LF content) (lineNumber e) = Some l
                  /\ startsWith DISABLED_PREFIX (trim l) = true
                  /\ parseRuleLine (trim l) (lineNumber e) = Entry e)
  /\ (forall content' filePath settings method,
        sameActiveLines content content' ->
        evaluateFile minimatch RegExp (mkEngine a (Some (grouped parsed)))
          filePath settings method
        = evaluateFile minimatch RegExp
            (mkEngine a (Some (grouped (parseRulesFile content'))))
            filePath settings method)
  /\ (forall filePath rules,
        checkFolderFilter minimatch RegExp filePath (filter enabled rules)
        = checkFolderFilter minimatch RegExp filePath rules
        /\ checkDocumentNameFilter minimatch RegExp filePath
             (filter enabled rules)
           = checkDocumentNameFilter minimatch RegExp filePath rules
        /\ checkTagFilter filePath (filter enabled rules) a
           = checkTagFilter filePath rules a
        /\ checkKeywordFilter RegExp filePath (filter enabled rules) a
           = checkKeywordFilter RegExp filePath rules a)
  /\ (forall k filePath rules d r,
        runMatcher minimatch RegExp (mkEngine a (Some rules)) k filePath rules
        = Some d ->
        matchedRule d = Some r ->
        enabled r = true).
Proof.
  intros parsed.
  assert (forall k, group k (grouped parsed) = activeOf k (entries parsed))
    as Hactive by apply parseRulesFile_active.
  split; [|split; [|split; [|split; [|split]]]].
  - intros k r Hin. rewrite Hactive in Hin. now apply activeOf_enabled in Hin.
  - exact Hactive.
  - intros e He Hoff.
    destruct (parseLines_entries (splitUnit LF content) 0
                (mkParseResult emptyRules []) e He)
      as [[] | (_ & l & Hl & Hp)].
    rewrite Nat.sub_0_r in Hl. exists l. split; [assumption|].
    split; [|assumption].
    apply parseRuleLine_Entry in Hp. destruct Hp as [_ Hp].
    rewrite Hoff in Hp. now destruct (startsWith DISABLED_PREFIX (trim l)).
  - intros content' filePath settings method Hsame.
    subst parsed. unfold parseRulesFile.
    now rewrite (parseLines_inert _ _ 0 _ (mkParseResult emptyRules []) Hsame
                   eq_refl).
  - intros filePath rules. apply matchers_skip_disabled.
  - intros k filePath rules d r. apply matched_rule_enabled.
Qed.

End DisabledRules.

(* ================================================================== *)
(** ** Regular-expression flags *)
(* ================================================================== *)

Section RegexFlags.

Variable minimatch : jsstring -> jsstring -> bool.
Variable RegExp : jsstring -> option jsstring -> Completion (jsstring -> bool).

(** No matcher reads [regexFlags]: whether a rule fires is the same for
    every value of the field. *)
Lemma fires_ignore_regexFlags f r s :
  folderRuleFires minimatch RegExp s (withRegexFlags f r)
  = folderRuleFires minimatch RegExp s r
  /\ nameRuleFires minimatch RegExp s (withRegexFlags f r)
     = nameRuleFires minimatch RegExp s r
  /\ keywordRuleFires RegExp s (withRegexFlags f r)
     = keywordRuleFires RegExp s r.
Proof. repeat split. Qed.

Lemma find_map_fires (fires : FilterRule -> bool) f rules :
  (forall r, fires (withRegexFlags f r) = fires r) ->
  option_map (fun r => FilterMode_eqb (mode r) allow)
    (find fires (map (withRegexFlags f) rules))
  = option_map (fun r => FilterMode_eqb (mode r) allow) (find fires rules).
Proof.
  intros E. induction rules as [|r rules IH]; simpl; [reflexivity|].
  rewrite E. destruct (fires r); [reflexivity | exact IH].
Qed.

(** The verdict of the folder, name and keyword matchers is the same
    whatever flags the rules carry. *)
Lemma verdict_ignores_regexFlags f filePath a rules :
  option_map allowed
    (checkFolderFilter minimatch RegExp filePath
       (map (withRegexFlags f) rules))
  = option_map allowed (checkFolderFilter minimatch RegExp filePath rules)
  /\ option_map allowed
       (checkDocumentNameFilter minimatch RegExp filePath
          (map (withRegexFlags f) rules))
     = option_map allowed
         (checkDocumentNameFilter minimatch RegExp filePath rules)
  /\ option_map allowed
       (checkKeywordFilter RegExp filePath (map (withRegexFlags f) rules) a)
     = option_map allowed (checkKeywordFilter RegExp filePath rules a).
Proof.
  assert (forall (o : option FilterRule) hit,
             (forall r, allowed (hit r) = FilterMode_eqb (mode r) allow) ->
             option_map allowed (option_map hit o)
             = option_map (fun r => FilterMode_eqb (mode r) allow) o) as Hmap.
  { intros [r|] hit H; simpl; [now rewrite H | reflexivity]. }
  split; [|split].
  - rewrite !checkFolderFilter_find, !Hmap by reflexivity.
    now apply find_map_fires.
  - rewrite !checkDocumentNameFilter_find, !Hmap by reflexivity.
    now apply find_map_fires.
  - unfold checkKeywordFilter.
    destruct (getAbstractFileByPath a filePath) as [file|]; [|reflexivity].
    destruct (cachedRead a file) as [content|]; [|reflexivity].
    rewrite !keywordRulesLoop_find, !Hmap by reflexivity.
    now apply find_map_fires.
Qed.

End RegexFlags.

(** C5 (the code departs from the claim): the rule [deny keyword
    ~password/i] asks for a case-insensitive test, and a regular expression
    built with its flag does find [password] in the content
    [This has Password uppercase]; [checkKeywordFilter] builds the expression
    without the flag and returns nothing, as it does for the same rule
    without any flag. *)
Theorem C5_case_insensitive_flag_not_applied :
  let content := lit "This has Password uppercase" in
  let a := oneFileVault (lit "some/file.md") None (Normal content) in
  (exists test,
      plainRegExp (pattern passwordRule) (regexFlags passwordRule)
      = Normal test
      /\ test content = true)
  /\ checkKeywordFilter plainRegExp (lit "some/file.md") [passwordRule] a
     = None
  /\ checkKeywordFilter plainRegExp (lit "some/file.md")
       [withRegexFlags None passwordRule] a
     = None.
Proof.
  intros content a. split; [|split].
  - eexists. split; [reflexivity|]. vm_compute. reflexivity.
  - vm_compute. reflexivity.
  - vm_compute. reflexivity.
Qed.

(* ================================================================== *)
(** ** Worked examples *)
(* ================================================================== *)

(** C1 at work: a note tagged with both global tags is denied although a
    folder rule allows its path; a note in the frontmatter of which only
    [ai-allow] appears is allowed although a folder rule denies its path. *)
Lemma C1_global_tags_override_witness :
  let both :=
    mkEngine
      (oneFileVault notePath
         (Some (mkCache (Some [lit "#AI-Deny"; lit "#ai-allow"]) None))
         (Normal []))
      (Some (mkParsedRules [exampleRule allow notePath] [] [] [])) in
  let allowOnly :=
    mkEngine
      (oneFileVault notePath
         (Some (mkCache None (Some [lit "ai-allow"]))) (Normal []))
      (Some (mkParsedRules [exampleRule deny notePath] [] [] [])) in
  allowed
    (evaluateFile plainMinimatch plainRegExp both notePath (aiTags allow)
       (Some (lit "GET")))
  = false
  /\ allowed
       (evaluateFile plainMinimatch plainRegExp allowOnly notePath
          (aiTags deny) (Some (lit "GET")))
     = true.
Proof.
  intros both allowOnly. split.
  - apply (proj1 (C1_global_tags_override plainMinimatch plainRegExp
                    both notePath (aiTags allow) (Some (lit "GET"))
                    [lit "#ai-deny"; lit "#ai-allow"] eq_refl)).
    + discriminate.
    + left. reflexivity.
  - apply (proj2 (C1_global_tags_override plainMinimatch plainRegExp
                    allowOnly notePath (aiTags deny) (Some (lit "GET"))
                    [lit "#ai-allow"] eq_refl)).
    + discriminate.
    + left. reflexivity.
    + right. intros [H|[]]. vm_compute in H. discriminate H.
Defined.

(** C2 as it was stated fails: the file exists, its metadata is unavailable
    and its content unreadable, a tag rule and a keyword rule are
    configured, and the evaluation allows the file, because the folder rule
    decides first. *)
Lemma C2_counterexample :
  let a := oneFileVault notePath None Throw in
  let rules :=
    mkParsedRules [exampleRule allow notePath] []
      [exampleRule deny (lit "#secret")] [exampleRule deny (lit "password")] in
  (exists file, getAbstractFileByPath a notePath = Some file
                /\ getFileCache a file = None
                /\ cachedRead a file = Throw)
  /\ tag rules <> []
  /\ keyword rules <> []
  /\ allowed
       (evaluateFile plainMinimatch plainRegExp (mkEngine a (Some rules))
          notePath (noGlobalTags deny) (Some (lit "GET")))
     = true.
Proof.
  intros a rules. split; [|split; [|split]].
  - exists (TFile notePath). repeat split.
  - discriminate.
  - discriminate.
  - vm_compute. reflexivity.
Defined.

(** C2 (amended) at work, on the note whose metadata is unavailable and
    whose read throws: with the global tags configured it is denied whatever
    the folder rule says; with a tag rule only, it is denied for its metadata;
    with a keyword rule only and its metadata back, it is denied for the read
    error; and for a path that does not exist the three checks are silent. *)
Lemma C2_fail_closed_unless_decided_earlier_witness :
  let a := oneFileVault notePath None Throw in
  let folderOnly := mkParsedRules [exampleRule allow notePath] [] [] [] in
  let tagOnly := mkParsedRules [] [] [exampleRule allow (lit "#public")] [] in
  let b := oneFileVault notePath (Some (mkCache None None)) Throw in
  let keywordOnly :=
    mkParsedRules [] [] [] [exampleRule deny (lit "password")] in
  let get := Some (lit "GET") in
  let byGlobal :=
    evaluateFile plainMinimatch plainRegExp (mkEngine a (Some folderOnly))
      notePath (aiTags allow) get in
  let byTag :=
    evaluateFile plainMinimatch plainRegExp (mkEngine a (Some tagOnly))
      notePath (noGlobalTags allow) get in
  let byKeyword :=
    evaluateFile plainMinimatch plainRegExp (mkEngine b (Some keywordOnly))
      notePath (noGlobalTags allow) get in
  (allowed byGlobal = false
   /\ includes (lit "unavailable") (reason byGlobal) = true)
  /\ (allowed byTag = false
      /\ includes (lit "unavailable") (reason byTag) = true)
  /\ byKeyword
     = mkDecision false (lit "File read error") None (Some ft_keyword)
  /\ (forall rs, checkTagFilter (lit "Other/new.md") rs a = None).
Proof.
  intros a folderOnly tagOnly b keywordOnly get byGlobal byTag byKeyword.
  split; [|split; [|split]].
  - destruct (C2_fail_closed_unless_decided_earlier plainMinimatch plainRegExp
                (mkEngine a (Some folderOnly)) notePath (aiTags allow) get)
      as [Hmeta _].
    destruct (Hmeta (TFile notePath) eq_refl eq_refl) as (_ & Hglobal & _).
    apply Hglobal. left. discriminate.
  - destruct (C2_fail_closed_unless_decided_earlier plainMinimatch plainRegExp
                (mkEngine a (Some tagOnly)) notePath (noGlobalTags allow) get)
      as [Hmeta _].
    destruct (Hmeta (TFile notePath) eq_refl eq_refl) as (_ & _ & Hcustom).
    apply (Hcustom tagOnly eq_refl); [discriminate | reflexivity | reflexivity].
  - destruct (C2_fail_closed_unless_decided_earlier plainMinimatch plainRegExp
                (mkEngine b (Some keywordOnly)) notePath (noGlobalTags allow)
                get) as (_ & Hread & _).
    destruct (Hread (TFile notePath) eq_refl eq_refl) as (_ & _ & Hengine).
    apply (Hengine keywordOnly eq_refl); [discriminate | reflexivity ..].
  - destruct (C2_fail_closed_unless_decided_earlier plainMinimatch plainRegExp
                (mkEngine a None) (lit "Other/new.md") (noGlobalTags allow)
                get) as (_ & _ & Hnone).
    apply (Hnone eq_refl).
Defined.


(** C6 at work: in each matcher the second rule is the first that
    matches, and it decides although the third matches too. *)
Lemma C6_first_match_wins_witness :
  let a :=
    oneFileVault notePath (Some (mkCache (Some [lit "#Public"]) None))
      (Normal (lit "my password")) in
  checkFolderFilter plainMinimatch plainRegExp notePath
    ([exampleRule deny (lit "Private/x.md")]
       ++ exampleRule allow notePath :: [exampleRule deny notePath])
  = Some (folderHit (exampleRule allow notePath))
  /\ checkDocumentNameFilter plainMinimatch plainRegExp notePath
       ([exampleRule deny (lit "x.md")]
          ++ exampleRule allow (lit "note.md")
          :: [exampleRule deny (lit "note.md")])
     = Some (nameHit (exampleRule allow (lit "note.md")))
  /\ checkTagFilter notePath
       ([exampleRule deny (lit "#secret")]
          ++ exampleRule allow (lit "#public")
          :: [exampleRule deny (lit "#public")]) a
     = Some (tagHit (exampleRule allow (lit "#public")))
  /\ checkKeywordFilter plainRegExp notePath
       ([exampleRule allow (lit "token")]
          ++ exampleRule deny (lit "password")
          :: [exampleRule allow (lit "my")]) a
     = Some (keywordHit (exampleRule deny (lit "password"))).
Proof.
  intros a. split; [|split; [|split]].
  - apply (proj1 (C6_first_match_wins plainMinimatch plainRegExp notePath a
                    [exampleRule deny (lit "Private/x.md")]
                    [exampleRule deny notePath]
                    (exampleRule allow notePath))).
    + intros r' [<-|[]]. reflexivity.
    + reflexivity.
  - apply (proj1 (proj2 (C6_first_match_wins plainMinimatch plainRegExp
                           notePath a
                           [exampleRule deny (lit "x.md")]
                           [exampleRule deny (lit "note.md")]
                           (exampleRule allow (lit "note.md"))))).
    + intros r' [<-|[]]. reflexivity.
    + reflexivity.
  - apply (proj1 (proj2 (proj2 (C6_first_match_wins plainMinimatch
                                  plainRegExp notePath a
                                  [exampleRule deny (lit "#secret")]
                                  [exampleRule deny (lit "#public")]
                                  (exampleRule allow (lit "#public")))))
             [lit "#public"] eq_refl).
    + intros r' [<-|[]]. reflexivity.
    + reflexivity.
  - apply (proj1 (proj2 (proj2 (proj2 (C6_first_match_wins plainMinimatch
                                         plainRegExp notePath a
                                         [exampleRule allow (lit "token")]
                                         [exampleRule allow (lit "my")]
                                         (exampleRule deny (lit "password"))))))
             (TFile notePath) (lit "my password") eq_refl eq_refl).
    + intros r' [<-|[]]. reflexivity.
    + reflexivity.
Defined.

(** C9 at work: the rule with the pattern [(] is passed over, and the
    keyword rule after it denies the file. *)
Lemma C9_invalid_regex_is_skipped_witness :
  let a := oneFileVault notePath None (Normal (lit "my password")) in
  let good := exampleRule deny (lit "password") in
  checkKeywordFilter plainRegExp notePath ([] ++ brokenRule :: [good]) a
  = checkKeywordFilter plainRegExp notePath ([] ++ [good]) a
  /\ evaluateFile plainMinimatch plainRegExp
       (mkEngine a (Some (mkParsedRules [] [] [] ([] ++ brokenRule :: [good]))))
       notePath (noGlobalTags allow) (Some (lit "GET"))
     = evaluateFile plainMinimatch plainRegExp
         (mkEngine a (Some (mkParsedRules [] [] [] ([] ++ [good]))))
         notePath (noGlobalTags allow) (Some (lit "GET")).
Proof.
  intros a good.
  destruct (C9_invalid_regex_is_skipped plainMinimatch plainRegExp notePath a
              [] [good] brokenRule (conj eq_refl eq_refl))
    as ((_ & _ & Hkeyword) & Hengine & _).
  split; [exact Hkeyword|].
  apply (Hengine [] [] [] [] (noGlobalTags allow) (Some (lit "GET"))).
  left. discriminate.
Defined.

(** The claim as the specification states it fails twice.  A rule with an
    invalid pattern that is the only keyword rule changes the verdict of a
    file that cannot be read: with it the file is denied, without it the
    default policy allows the file.  And the tag matcher never compiles a
    pattern: a tag rule marked as a regular expression whose pattern is
    invalid is compared as it stands, and decides. *)
Lemma C9_counterexample :
  let a :=
    oneFileVault notePath (Some (mkCache None (Some [lit "("]))) Throw in
  let tagRule :=
    mkRule (lit "r0") deny (lit "#(") true true (lit "test") None None in
  let get := Some (lit "GET") in
  invalidRegex plainRegExp brokenRule
  /\ evaluateFile plainMinimatch plainRegExp
       (mkEngine a (Some (mkParsedRules [] [] [] ([] ++ brokenRule :: []))))
       notePath (noGlobalTags allow) get
     = mkDecision false (lit "File read error") None (Some ft_keyword)
  /\ allowed
       (evaluateFile plainMinimatch plainRegExp
          (mkEngine a (Some (mkParsedRules [] [] [] ([] ++ []))))
          notePath (noGlobalTags allow) get)
     = true
  /\ invalidRegex plainRegExp tagRule
  /\ checkTagFilter notePath [tagRule] a = Some (tagHit tagRule)
  /\ evaluateFile plainMinimatch plainRegExp
       (mkEngine a (Some (mkParsedRules [] [] [tagRule] [])))
       notePath (noGlobalTags allow) get
     = tagHit tagRule.
Proof.
  intros a tagRule get. repeat split; reflexivity.
Defined.

(** C10 at work: the only tag rule is scoped to GET, the metadata of the
    file is unavailable, and the PUT request is denied all the same. *)
Lemma C10_fail_closed_ignores_method_witness :
  let tagRule :=
    mkRule (lit "r1") allow (lit "#public") false true (lit "test")
      (Some [GET]) None in
  let rules := mkParsedRules [] [] [tagRule] [] in
  let this := mkEngine (oneFileVault notePath None (Normal [])) (Some rules) in
  exists d,
    runMatcher plainMinimatch plainRegExp this kind_tag notePath rules = Some d
    /\ allowed d = false
    /\ matchedRule d = None
    /\ (forall m, methodAllowed (matchedRule d) m = true)
    /\ evaluateFile plainMinimatch plainRegExp this notePath
         (noGlobalTags allow) (Some (lit "PUT")) = d.
Proof.
  intros tagRule rules this.
  apply (C10_fail_closed_ignores_method plainMinimatch plainRegExp this
           notePath (noGlobalTags allow) rules (Some (lit "PUT")) kind_tag
           [kind_folder; kind_name] [kind_keyword]).
  - reflexivity.
  - reflexivity.
  - reflexivity.
  - reflexivity.
  - intros k' [<-|[<-|[]]]; reflexivity.
  - discriminate.
Defined.

(* ================================================================== *)
(** ** The rule file: serialize, then parse *)
(* ================================================================== *)

Lemma takeWhile_app (f : N -> bool) (s rest : jsstring) :
  forallb f s = true -> stopsAt f rest ->
  takeWhile f (s ++ rest) = s /\ dropWhile f (s ++ rest) = rest.
Proof.
  intros Hs Hrest. induction s as [|c s IH]; simpl in *.
  - destruct rest as [|c rest]; simpl in *; [auto|]. now rewrite Hrest.
  - apply andb_true_iff in Hs. destruct Hs as [Hc Hs]. rewrite Hc.
    destruct (IH Hs) as [-> ->]. auto.
Qed.

Lemma trimStart_id (s : jsstring) :
  stopsAt isWhiteSpace s -> trimStart s = s.
Proof.
  unfold trimStart. destruct s as [|c s]; simpl; [reflexivity|].
  now intros ->.
Qed.

Lemma trim_id (s : jsstring) :
  stopsAt isWhiteSpace s -> stopsAt isWhiteSpace (rev s) -> trim s = s.
Proof.
  intros Hhead Hlast. unfold trim. rewrite (trimStart_id s Hhead).
  unfold trimEnd. fold (trimStart (rev s)).
  rewrite (trimStart_id _ Hlast). apply rev_involutive.
Qed.

(** The last unit of a concatenation is the last unit of its second part. *)
Lemma stopsAt_rev_app (f : N -> bool) (s t : jsstring) :
  t <> [] -> stopsAt f (rev t) -> stopsAt f (rev (s ++ t)).
Proof.
  intros Hne Ht. rewrite rev_app_distr.
  destruct (rev t) as [|c u] eqn:E.
  - apply (f_equal (@rev N)) in E. rewrite rev_involutive in E. contradiction.
  - exact Ht.
Qed.

Lemma stopsAt_forallb (s : jsstring) :
  forallb notWhiteSpace s = true -> stopsAt isWhiteSpace s.
Proof.
  destruct s as [|c s]; simpl; [trivial|].
  intros H. apply andb_true_iff in H. destruct H as [H _].
  unfold notWhiteSpace in H. now apply negb_true_iff in H.
Qed.

Lemma forallb_rev (f : N -> bool) (s : jsstring) :
  forallb f s = true -> forallb f (rev s) = true.
Proof.
  rewrite !forallb_forall. intros H x Hx. apply H. now apply in_rev.
Qed.

Lemma includesUnit_app (c : N) (s t : jsstring) :
  includesUnit c (s ++ t) = includesUnit c s || includesUnit c t.
Proof. apply existsb_app. Qed.

Lemma indexOfUnit_app (c : N) (s t : jsstring) :
  includesUnit c s = false -> indexOfUnit c (s ++ c :: t) = Some (length s).
Proof.
  induction s as [|x s IH]; simpl.
  - now rewrite N.eqb_refl.
  - intros H. apply orb_false_iff in H. destruct H as [Hx Hs].
    rewrite N.eqb_sym, Hx, (IH Hs). reflexivity.
Qed.

Lemma splitUnit_none (c : N) (s : jsstring) :
  includesUnit c s = false -> splitUnit c s = [s].
Proof.
  induction s as [|x s IH]; simpl; [reflexivity|].
  intros H. apply orb_false_iff in H. destruct H as [Hx Hs].
  rewrite N.eqb_sym, Hx, (IH Hs). reflexivity.
Qed.

Lemma splitUnit_app (c : N) (s t : jsstring) :
  includesUnit c s = false ->
  splitUnit c (s ++ c :: t) = s :: splitUnit c t.
Proof.
  induction s as [|x s IH]; simpl.
  - now rewrite N.eqb_refl.
  - intros H. apply orb_false_iff in H. destruct H as [Hx Hs].
    rewrite N.eqb_sym, Hx, (IH Hs). reflexivity.
Qed.

Lemma splitWs_word (s : jsstring) :
  forallb notWhiteSpace s = true -> splitWsAux false s = [s].
Proof.
  induction s as [|x s IH]; simpl; [reflexivity|].
  intros H. apply andb_true_iff in H. destruct H as [Hx Hs].
  unfold notWhiteSpace in Hx. apply negb_true_iff in Hx.
  rewrite Hx, (IH Hs). reflexivity.
Qed.

Lemma splitWs_word_app (s rest : jsstring) :
  forallb notWhiteSpace s = true ->
  splitWsAux false (s ++ rest)
  = match splitWsAux false rest with
    | h :: t => (s ++ h) :: t
    | [] => [s]
    end.
Proof.
  induction s as [|x s IH]; simpl.
  - intros _. destruct (splitWsAux false rest) eqn:E; [|reflexivity].
    destruct rest as [|y rest]; simpl in E; [discriminate|].
    destruct (isWhiteSpace y); [discriminate|].
    destruct (splitWsAux false rest); discriminate.
  - intros H. apply andb_true_iff in H. destruct H as [Hx Hs].
    unfold notWhiteSpace in Hx. apply negb_true_iff in Hx.
    rewrite Hx, (IH Hs).
    destruct (splitWsAux false rest); reflexivity.
Qed.

(** Two blank-free words around two spaces split into the two words. *)
Lemma splitWs_two_words (s t : jsstring) :
  forallb notWhiteSpace s = true ->
  forallb notWhiteSpace t = true ->
  t <> [] ->
  splitWs (s ++ lit "  " ++ t) = [s; t].
Proof.
  intros Hs Ht Hne. unfold splitWs. rewrite (splitWs_word_app _ _ Hs).
  destruct t as [|y t]; [contradiction|].
  simpl in Ht. apply andb_true_iff in Ht. destruct Ht as [Hy Ht].
  unfold notWhiteSpace in Hy. apply negb_true_iff in Hy.
  simpl. rewrite Hy, (splitWs_word t Ht), app_nil_r. reflexivity.
Qed.

Lemma flagMatch_suffix (p f : jsstring) :
  f <> [] -> forallb isFlagUnit f = true ->
  flagMatch (p ++ SLASH :: f) = Some f.
Proof.
  intros Hne Hf. induction p as [|c p IH]; simpl.
  - apply truthy_true in Hne. now rewrite Hne, Hf.
  - rewrite forallb_app. simpl.
    now rewrite !andb_false_r.
Qed.

Lemma dropLast_app (p q : jsstring) : dropLast (length q) (p ++ q) = p.
Proof.
  unfold dropLast. rewrite length_app.
  replace (length p + length q - length q) with (length p + 0) by lia.
  rewrite firstn_app_2. simpl. apply app_nil_r.
Qed.

(** *** The method list *)

Lemma methodName_plain (h : HttpMethod) :
  forallb notWhiteSpace (methodName h) = true
  /\ includesUnit COMMA (methodName h) = false
  /\ includesUnit LF (methodName h) = false
  /\ methodName h <> []
  /\ toUpperCase (trim (methodName h)) = methodName h
  /\ validMethod (methodName h) = Some h.
Proof. destruct h; repeat split; discriminate. Qed.

Lemma join_methods_cons (h : HttpMethod) (ms : list HttpMethod) :
  ms <> [] ->
  join [COMMA] (map methodName (h :: ms))
  = methodName h ++ COMMA :: join [COMMA] (map methodName ms).
Proof. destruct ms; [contradiction | reflexivity]. Qed.

Lemma join_methods_plain (ms : list HttpMethod) :
  ms <> [] ->
  let joined := join [COMMA] (map methodName ms) in
  forallb notWhiteSpace joined = true
  /\ includesUnit LF joined = false
  /\ joined <> []
  /\ splitUnit COMMA joined = map methodName ms.
Proof.
  induction ms as [|h ms IH]; [contradiction|]. intros _.
  destruct (methodName_plain h) as (Hws & Hcomma & Hlf & Hne & _).
  destruct ms as [|h' ms].
  - simpl. repeat split; try assumption. now apply splitUnit_none.
  - assert (h' :: ms <> []) as Hms by discriminate.
    specialize (IH Hms). cbv zeta in IH.
    destruct IH as (IHws & IHlf & IHne & IHsplit).
    cbv zeta. rewrite (join_methods_cons h (h' :: ms) Hms).
    repeat split.
    + rewrite forallb_app. cbn [forallb]. now rewrite Hws, IHws.
    + rewrite includesUnit_app. cbn [includesUnit existsb].
      fold (includesUnit LF (join [COMMA] (map methodName (h' :: ms)))).
      now rewrite Hlf, IHlf.
    + destruct (methodName h); [contradiction | discriminate].
    + rewrite (splitUnit_app _ _ _ Hcomma), IHsplit. reflexivity.
Qed.

Lemma keepValidMethods_names (ms : list HttpMethod) :
  keepValidMethods
    (map (fun m => toUpperCase (trim m)) (map methodName ms)) = ms.
Proof.
  induction ms as [|h ms IH]; simpl; [reflexivity|].
  destruct (methodName_plain h) as (_ & _ & _ & _ & -> & ->).
  now rewrite IH.
Qed.

Lemma parseMethods_join (ms : list HttpMethod) :
  ms <> [] -> parseMethods (join [COMMA] (map methodName ms)) = Some ms.
Proof.
  intros Hne. unfold parseMethods.
  destruct (join_methods_plain ms Hne) as (_ & _ & _ & ->).
  rewrite keepValidMethods_names. destruct ms; [contradiction | reflexivity].
Qed.

(** *** The serialized line *)

Lemma firstSplit_serialized (m : FilterMode) (k : RuleKind) (rest : jsstring) :
  stopsAt isWhiteSpace rest ->
  firstSplit (modeName m ++ lit "  " ++ kindName k ++ lit "  " ++ rest)
  = Some (modeName m, kindName k, rest).
Proof.
  intros Hrest. unfold firstSplit.
  destruct rest as [|c rest].
  - destruct m, k; reflexivity.
  - simpl in Hrest. destruct m, k; simpl; rewrite Hrest; reflexivity.
Qed.

Lemma startsWith_app (p s : jsstring) : startsWith p (p ++ s) = true.
Proof.
  induction p as [|x p IH]; simpl; [reflexivity|].
  now rewrite N.eqb_refl, IH.
Qed.

Lemma skipn_prefix (p s : jsstring) : sliceFrom (length p) (p ++ s) = s.
Proof.
  unfold sliceFrom. induction p as [|x p IH]; simpl; [reflexivity | exact IH].
Qed.

Lemma methodStr_cases (r : FilterRule) :
  methods r <> Some [] ->
  (methods r = None /\ methodStr r = [])
  \/ (exists ms, ms <> [] /\ methods r = Some ms
                /\ methodStr r = lit "  " ++ join [COMMA] (map methodName ms)).
Proof.
  unfold methodStr. destruct (methods r) as [[|h ms]|]; intros H.
  - contradiction.
  - right. exists (h :: ms). repeat split. discriminate.
  - now left.
Qed.

Lemma patternStr_head (r : FilterRule) :
  roundTrips r ->
  patternStr r <> [] /\ stopsAt isWhiteSpace (patternStr r)
  /\ stopsAt isWhiteSpace (rev (patternStr r))
  /\ includesUnit LF (patternStr r) = false.
Proof.
  intros (Hne & Hlf & Hquote & _). unfold patternStr.
  destruct (includesUnit SPACE (rawPattern r)).
  - repeat split; [discriminate | | ].
    + rewrite app_comm_cons, rev_app_distr. reflexivity.
    + cbn [includesUnit existsb]. fold (includesUnit LF (rawPattern r ++ [DQUOTE])).
      rewrite includesUnit_app, Hlf. reflexivity.
  - destruct Hquote as [Hws _]. repeat split; try assumption.
    + now apply stopsAt_forallb.
    + apply stopsAt_forallb. now apply forallb_rev.
Qed.

(** The part of the line after the type has no blank at either end. *)
Lemma tail_tight (r : FilterRule) :
  roundTrips r ->
  let tail := patternStr r ++ methodStr r in
  tail <> [] /\ stopsAt isWhiteSpace tail /\ stopsAt isWhiteSpace (rev tail)
  /\ includesUnit LF tail = false.
Proof.
  intros Hr. pose proof Hr as (_ & _ & _ & _ & Hms).
  destruct (patternStr_head r Hr) as (Hne & Hhead & Hlast & Hlf).
  cbv zeta. split; [|split; [|split]].
  - destruct (patternStr r); [contradiction | discriminate].
  - destruct (patternStr r); [contradiction | exact Hhead].
  - destruct (methodStr_cases r Hms) as [[_ ->] | (ms & Hne' & _ & ->)].
    + now rewrite app_nil_r.
    + destruct (join_methods_plain ms Hne') as (Hws & _ & Hjoin & _).
      rewrite !app_assoc. apply stopsAt_rev_app; [assumption|].
      apply stopsAt_forallb. now apply forallb_rev.
  - rewrite includesUnit_app, Hlf.
    destruct (methodStr_cases r Hms) as [[_ ->] | (ms & Hne' & _ & ->)].
    + reflexivity.
    + destruct (join_methods_plain ms Hne') as (_ & Hjoin & _).
      rewrite includesUnit_app, Hjoin. reflexivity.
Qed.

Lemma slice_quoted (raw rest : jsstring) :
  slice 1 (1 + length raw) (DQUOTE :: raw ++ DQUOTE :: rest) = raw.
Proof.
  unfold slice. replace (1 + length raw - 1) with (length raw) by lia.
  cbn [skipn]. rewrite firstn_app, Nat.sub_diag, firstn_all. cbn [firstn].
  apply app_nil_r.
Qed.

Lemma sliceFrom_quoted (raw rest : jsstring) :
  sliceFrom (1 + length raw + 1) (DQUOTE :: raw ++ DQUOTE :: rest) = rest.
Proof.
  unfold sliceFrom.
  replace (1 + length raw + 1) with (S (length (raw ++ [DQUOTE])))
    by (rewrite length_app; simpl; lia).
  cbn [skipn].
  replace (raw ++ DQUOTE :: rest) with ((raw ++ [DQUOTE]) ++ rest)
    by (now rewrite <- app_assoc).
  apply skipn_prefix.
Qed.

(** The pattern and the method list come back out of the tail. *)
Lemma splitPattern_serialized (r : FilterRule) :
  roundTrips r ->
  splitPattern (patternStr r ++ methodStr r)
  = Some (rawPattern r,
          match methods r with
          | Some ms => Some (join [COMMA] (map methodName ms))
          | None => None
          end).
Proof.
  intros Hr. pose proof Hr as (Hne & _ & Hquote & _ & Hms).
  unfold splitPattern, patternStr.
  destruct (includesUnit SPACE (rawPattern r)).
  - rewrite <- app_comm_cons, <- app_assoc.
    cbn [Datatypes.app startsWith]. rewrite N.eqb_refl. cbn [andb].
    unfold indexOfFrom. cbn [skipn].
    rewrite (indexOfUnit_app DQUOTE _ _ Hquote). cbn [option_map].
    rewrite slice_quoted, sliceFrom_quoted.
    destruct (methodStr_cases r Hms) as [[-> ->] | (ms & Hne' & -> & ->)].
    + reflexivity.
    + destruct (join_methods_plain ms Hne') as (Hws & _ & Hjoin & _).
      assert (trim (lit "  " ++ join [COMMA] (map methodName ms))
              = join [COMMA] (map methodName ms)) as ->.
      { change (lit "  " ++ join [COMMA] (map methodName ms))
          with (SPACE :: SPACE :: join [COMMA] (map methodName ms)).
        unfold trim.
        change (trimStart (SPACE :: SPACE :: join [COMMA] (map methodName ms)))
          with (trimStart (join [COMMA] (map methodName ms))).
        apply trim_id; apply stopsAt_forallb; [|apply forallb_rev]; assumption. }
      apply truthy_true in Hjoin. now rewrite Hjoin.
  - destruct Hquote as [Hws Hnoquote]. 
    destruct (methodStr_cases r Hms) as [[-> ->] | (ms & Hne' & -> & ->)].
    + rewrite app_nil_r, Hnoquote. unfold splitWs.
      rewrite (splitWs_word _ Hws). reflexivity.
    + destruct (join_methods_plain ms Hne') as (Hjws & _ & Hjoin & _).
      assert (startsWith [DQUOTE]
                (rawPattern r ++ lit "  " ++ join [COMMA] (map methodName ms))
              = false) as ->.
      { destruct (rawPattern r); [contradiction | exact Hnoquote]. }
      now rewrite (splitWs_two_words _ _ Hws Hjws Hjoin).
Qed.

(** How [parseRuleLine] reads the pattern back: the tilde, the flags and
    the clean pattern. *)
Lemma regex_fields_serialized (r : FilterRule) :
  roundTrips r ->
  let raw := rawPattern r in
  let isRx := startsWith [TILDE] raw in
  let clean := if isRx then sliceFrom 1 raw else raw in
  let flags := if isRx then flagMatch clean else None in
  isRx = isRegex r
  /\ flags = regexFlags r
  /\ match flags with
     | Some f => dropLast (S (length f)) clean
     | None => clean
     end = pattern r.
Proof.
  intros (_ & _ & _ & Hregex & _). unfold rawPattern, flagSuffix.
  destruct (isRegex r); cbv zeta.
  - cbn [startsWith andb sliceFrom skipn]. rewrite N.eqb_refl. cbn [andb].
    destruct (regexFlags r) as [f|].
    + destruct Hregex as [Hne Hflags].
      pose proof Hne as Ht. apply truthy_true in Ht. rewrite Ht. cbn [andb].
      rewrite (flagMatch_suffix _ _ Hne Hflags).
      repeat split. apply (dropLast_app (pattern r) (SLASH :: f)).
    + rewrite app_nil_r, Hregex. repeat split.
  - destruct Hregex as [-> ->]. repeat split.
Qed.

Lemma validMode_modeName (m : FilterMode) :
  validMode (toLowerCase (modeName m)) = Some m.
Proof. now destruct m. Qed.

Lemma validType_kindName (k : RuleKind) :
  validType (toLowerCase (kindName k)) = Some k.
Proof. now destruct k. Qed.

Lemma body_not_disabled (m : FilterMode) (rest : jsstring) :
  startsWith DISABLED_PREFIX (modeName m ++ rest) = false
  /\ startsWith [HASH] (modeName m ++ rest) = false
  /\ stopsAt isWhiteSpace (modeName m ++ rest).
Proof. destruct m; repeat split. Qed.

Lemma parseRuleLine_serializeRule (k : RuleKind) (r : FilterRule) (i : nat) :
  roundTrips r ->
  parseRuleLine (serializeRule (kindName k) r) i
  = Entry (mkEntry (reparsed r i) k i).
Proof.
  intros Hr.
  destruct (tail_tight r Hr) as (Hne & Hhead & Hlast & _).
  set (tail := patternStr r ++ methodStr r) in *.
  set (body := modeName (mode r) ++ lit "  " ++ kindName k ++ lit "  " ++ tail).
  assert (serializeRule (kindName k) r
          = (if enabled r then [] else DISABLED_PREFIX) ++ body) as ->
    by reflexivity.
  destruct (body_not_disabled (mode r)
              (lit "  " ++ kindName k ++ lit "  " ++ tail))
    as (Hoff & _ & Hbody). fold body in Hoff, Hbody.
  assert (trim body = body) as Htrim.
  { apply trim_id; [assumption|]. unfold body.
    rewrite !app_assoc. now apply stopsAt_rev_app. }
  unfold parseRuleLine.
  assert ((if startsWith DISABLED_PREFIX
                ((if enabled r then [] else DISABLED_PREFIX) ++ body)
           then trim (sliceFrom (length DISABLED_PREFIX)
                        ((if enabled r then [] else DISABLED_PREFIX) ++ body))
           else (if enabled r then [] else DISABLED_PREFIX) ++ body) = body
          /\ negb (startsWith DISABLED_PREFIX
                     ((if enabled r then [] else DISABLED_PREFIX) ++ body))
             = enabled r) as [-> ->].
  { destruct (enabled r).
    - change ([] ++ body) with body. now rewrite Hoff.
    - now rewrite startsWith_app, skipn_prefix, Htrim. }
  unfold body at 1. rewrite (firstSplit_serialized _ _ _ Hhead).
  rewrite (trim_id tail Hhead Hlast). unfold tail.
  rewrite (splitPattern_serialized r Hr).
  pose proof Hr as (Hraw & _ & _ & _ & Hms).
  apply truthy_true in Hraw. rewrite Hraw. cbn [negb].
  rewrite validMode_modeName, validType_kindName.
  destruct (regex_fields_serialized r Hr) as (-> & Hflags & Hclean).
  rewrite Hflags in *. rewrite Hclean.
  unfold reparsed. do 3 f_equal.
  destruct (methods r) as [[|h ms]|]; [contradiction| |reflexivity].
  assert (h :: ms <> []) as Hcons by discriminate.
  destruct (join_methods_plain _ Hcons) as (_ & _ & Hjoin & _).
  apply truthy_true in Hjoin. rewrite Hjoin.
  now apply parseMethods_join.
Qed.

Lemma parseRulesFile_serializeRule (k : RuleKind) (r : FilterRule) :
  roundTrips r ->
  parseRulesFile (serializeRule (kindName k) r)
  = mkParseResult
      (if enabled r then pushRule k (reparsed r 0) emptyRules else emptyRules)
      [mkEntry (reparsed r 0) k 0].
Proof.
  intros Hr. unfold parseRulesFile.
  pose proof (parseRuleLine_serializeRule k r 0 Hr) as Hparse.
  destruct (tail_tight r Hr) as (Hne & Hhead & Hlast & Hlf).
  set (line := serializeRule (kindName k) r) in *.
  set (tail := patternStr r ++ methodStr r) in *.
  assert (line = (if enabled r then [] else DISABLED_PREFIX)
                 ++ (modeName (mode r) ++ lit "  " ++ kindName k ++ lit "  ")
                 ++ tail) as Hline.
  { unfold line, serializeRule, tail. now rewrite <- !app_assoc. }
  assert (includesUnit LF line = false) as Hnolf.
  { rewrite Hline, !includesUnit_app, Hlf.
    destruct (enabled r), (mode r), k; reflexivity. }
  assert (stopsAt isWhiteSpace line /\ truthy line = true
          /\ startsWith [HASH] line
             && negb (startsWith DISABLED_PREFIX line) = false) as (Hh & Ht & Hc).
  { rewrite Hline. destruct (enabled r), (mode r); repeat split. }
  assert (trim line = line) as Htrim.
  { apply trim_id; [assumption|]. rewrite Hline, !app_assoc.
    now apply stopsAt_rev_app. }
  rewrite (splitUnit_none LF line Hnolf). cbn [parseLines]. unfold parseLine.
  rewrite Htrim, Ht, Hc, Hparse. cbn [negb]. reflexivity.
Qed.

(** C4 (amended): for every matcher kind and every rule that the line
    format can carry ([roundTrips]), parsing the line that [serializeRule]
    writes yields one entry, of that kind, whose rule has the mode, pattern,
    isRegex, regexFlags, methods and enabled flag of the rule serialized;
    it is in the grouped rules of that kind exactly when it is enabled. *)
Theorem C4_round_trip_of_representable_rules (k : RuleKind) (r : FilterRule) :
  roundTrips r ->
  exists e,
    parseRuleLine (serializeRule (kindName k) r) 0 = Entry e
    /\ entries (parseRulesFile (serializeRule (kindName k) r)) = [e]
    /\ group k (grouped (parseRulesFile (serializeRule (kindName k) r)))
       = (if enabled r then [rule e] else [])
    /\ entryType e = k
    /\ sameRule r (rule e).
Proof.
  intros Hr. exists (mkEntry (reparsed r 0) k 0).
  rewrite (parseRuleLine_serializeRule k r 0 Hr).
  rewrite (parseRulesFile_serializeRule k r Hr).
  split; [reflexivity|]. split; [reflexivity|]. split.
  - destruct (enabled r), k; reflexivity.
  - split; [reflexivity|]. repeat split.
Qed.

(** C4 as it was stated fails: the rule [allow folder ~^notes/my], a
    regular expression without flags, is written as
    [allow  folder  ~^notes/my] and read back as the pattern [^notes] with
    the flags [my]. *)
Lemma C4_counterexample :
  serializeRule (kindName kind_folder) notesRule
  = lit "allow  folder  ~^notes/my"
  /\ exists e,
       entries (parseRulesFile (serializeRule (kindName kind_folder) notesRule))
       = [e]
       /\ pattern (rule e) = lit "^notes"
       /\ regexFlags (rule e) = Some (lit "my")
       /\ ~ sameRule notesRule (rule e).
Proof.
  split; [reflexivity|].
  eexists. split; [vm_compute; reflexivity|].
  split; [reflexivity|]. split; [reflexivity|].
  intros (_ & Hpattern & _). vm_compute in Hpattern. discriminate Hpattern.
Defined.

(** C4 (amended) at work: a disabled regular-expression rule with a space
    in its pattern, the flag [i] and two methods. *)
Lemma C4_round_trip_of_representable_rules_witness :
  let r :=
    mkRule (lit "r1") deny (lit "my password") true false (lit "test")
      (Some [GET; POST]) (Some (lit "i")) in
  exists e,
    parseRuleLine (serializeRule (kindName kind_keyword) r) 0 = Entry e
    /\ entries (parseRulesFile (serializeRule (kindName kind_keyword) r)) = [e]
    /\ group kind_keyword
         (grouped (parseRulesFile (serializeRule (kindName kind_keyword) r)))
       = (if enabled r then [rule e] else [])
    /\ entryType e = kind_keyword
    /\ sameRule r (rule e).
Proof.
  intros r. apply (C4_round_trip_of_representable_rules kind_keyword r).
  unfold roundTrips. repeat split; try discriminate; reflexivity.
Defined.

(** C7 at work: a disabled deny rule for the note weighs as much as a
    comment in its place; the note is allowed by the rule that follows. *)
Lemma C7_disabled_rules_never_decide_witness :
  let a := oneFileVault notePath None (Normal []) in
  let content :=
    lit "#!disabled deny folder Public/note.md" ++ [LF]
      ++ lit "allow folder Public/note.md" in
  let content' :=
    lit "# nothing here" ++ [LF] ++ lit "allow folder Public/note.md" in
  evaluateFile plainMinimatch plainRegExp
    (mkEngine a (Some (grouped (parseRulesFile content))))
    notePath (noGlobalTags deny) (Some (lit "GET"))
  = evaluateFile plainMinimatch plainRegExp
      (mkEngine a (Some (grouped (parseRulesFile content'))))
      notePath (noGlobalTags deny) (Some (lit "GET")).
Proof.
  intros a content content'.
  destruct (C7_disabled_rules_never_decide plainMinimatch plainRegExp
              content a) as (_ & _ & _ & Hsame & _).
  apply Hsame. unfold sameActiveLines.
  change (splitUnit LF content)
    with [lit "#!disabled deny folder Public/note.md";
          lit "allow folder Public/note.md"].
  change (splitUnit LF content')
    with [lit "# nothing here"; lit "allow folder Public/note.md"].
  constructor; [right; split; reflexivity|].
  constructor; [left; reflexivity|].
  constructor.
Defined.

(* ================================================================== *)
(** ** The rule file: lines and entries *)
(* ================================================================== *)

Lemma splitUnit_nonempty (c : N) (s : jsstring) : splitUnit c s <> [].
Proof.
  destruct s as [|x s]; simpl; [discriminate|].
  destruct (x =? c)%N; [discriminate|].
  destruct (splitUnit c s); discriminate.
Qed.

Lemma splitUnit_pieces (c : N) (s : jsstring) :
  Forall (fun l => includesUnit c l = false) (splitUnit c s).
Proof.
  induction s as [|x s IH]; simpl.
  - repeat constructor.
  - destruct (x =? c)%N eqn:E.
    + constructor; [reflexivity | exact IH].
    + destruct (splitUnit c s) as [|h rest]; [repeat constructor; simpl|].
      * now rewrite N.eqb_sym, E.
      * inversion IH; subst. constructor; [|assumption].
        simpl. now rewrite N.eqb_sym, E.
Qed.

(** Splitting into lines and joining them again gives the text back. *)
Lemma join_splitUnit (c : N) (s : jsstring) :
  join [c] (splitUnit c s) = s.
Proof.
  induction s as [|x s IH]; simpl; [reflexivity|].
  destruct (x =? c)%N eqn:E.
  - apply N.eqb_eq in E. subst x.
    pose proof (splitUnit_nonempty c s) as Hne.
    destruct (splitUnit c s) as [|h rest]; [contradiction|].
    simpl in *. now rewrite IH.
  - pose proof (splitUnit_nonempty c s) as Hne.
    destruct (splitUnit c s) as [|h rest]; [contradiction|].
    destruct rest; simpl in *; now rewrite <- IH.
Qed.

Lemma splitUnit_join (c : N) (ls : list jsstring) :
  ls <> [] ->
  Forall (fun l => includesUnit c l = false) ls ->
  splitUnit c (join [c] ls) = ls.
Proof.
  induction ls as [|l ls IH]; [contradiction|]. intros _ Hall.
  inversion Hall as [|? ? Hl Hls]; subst.
  destruct ls as [|l' ls].
  - simpl. now apply splitUnit_none.
  - change (join [c] (l :: l' :: ls)) with (l ++ c :: join [c] (l' :: ls)).
    rewrite (splitUnit_app c l _ Hl), IH; [reflexivity | discriminate | assumption].
Qed.

Lemma parseLine_entry (l : jsstring) (i : nat) (acc : ParseResult) :
  entries (parseLine l i acc)
  = entries acc ++ match lineEntry l i with Some e => [e] | None => [] end.
Proof.
  unfold parseLine, lineEntry.
  destruct (negb (truthy (trim l))); [now rewrite app_nil_r|].
  destruct (startsWith [HASH] (trim l) && _); [now rewrite app_nil_r|].
  destruct (parseRuleLine (trim l) i); [reflexivity | now rewrite app_nil_r].
Qed.

Lemma parseLines_lineEntries (lines : list jsstring) (i : nat)
    (acc : ParseResult) :
  entries (parseLines lines i acc) = entries acc ++ lineEntries lines i.
Proof.
  revert i acc. induction lines as [|l lines IH]; intros i acc; simpl.
  - now rewrite app_nil_r.
  - rewrite IH, parseLine_entry, <- app_assoc.
    now destruct (lineEntry l i).
Qed.

(** The entries of a file are the entries of its lines. *)
Lemma parseRulesFile_lineEntries (content : jsstring) :
  entries (parseRulesFile content) = lineEntries (splitUnit LF content) 0.
Proof. unfold parseRulesFile. now rewrite parseLines_lineEntries. Qed.

Lemma lineEntries_app (a b : list jsstring) (i : nat) :
  lineEntries (a ++ b) i = lineEntries a i ++ lineEntries b (i + length a).
Proof.
  revert i. induction a as [|l a IH]; intros i; simpl.
  - now rewrite Nat.add_0_r.
  - rewrite IH. replace (S i + length a) with (i + S (length a)) by lia.
    now destruct (lineEntry l i).
Qed.

Lemma parseRuleLine_parseContent (line : jsstring) (i : nat) :
  parseRuleLine line i
  = parseContent
      (if startsWith DISABLED_PREFIX line
       then trim (sliceFrom (length DISABLED_PREFIX) line) else line)
      (negb (startsWith DISABLED_PREFIX line)) i.
Proof. reflexivity. Qed.

(** The enabled flag and the line index pass through [parseContent]
    untouched. *)
Lemma parseContent_relabel (content : jsstring) (b b' : bool) (i j : nat) :
  parseContent content b' j
  = match parseContent content b i with
    | Entry e => Entry (atLine j (setEnabled b' e))
    | Rejected w => Rejected w
    end.
Proof.
  unfold parseContent.
  repeat match goal with
         | |- context [match ?x with _ => _ end] => destruct x
         end; reflexivity.
Qed.

Lemma parseContent_fields (content : jsstring) (b : bool) (i : nat) e :
  parseContent content b i = Entry e ->
  lineNumber e = i /\ enabled (rule e) = b /\ atLine i e = e.
Proof.
  unfold parseContent.
  repeat match goal with
         | |- context [match ?x with _ => _ end] => destruct x
         | |- Rejected _ = Entry _ -> _ => discriminate
         end;
    intros H; inversion H; subst e; repeat split.
Qed.

Lemma lineEntry_fields (l : jsstring) (i : nat) e :
  lineEntry l i = Some e ->
  lineNumber e = i /\ atLine i e = e
  /\ enabled (rule e) = negb (startsWith DISABLED_PREFIX (trim l)).
Proof.
  unfold lineEntry.
  destruct (negb (truthy (trim l))); [discriminate|].
  destruct (startsWith [HASH] (trim l) && _); [discriminate|].
  rewrite parseRuleLine_parseContent.
  destruct (parseContent _ _ i) as [e'|] eqn:E; [|discriminate].
  intros H; inversion H; subst e'.
  apply parseContent_fields in E. tauto.
Qed.

Lemma atLine_atLine (i j : nat) (e : RuleEntry) :
  atLine j (atLine i e) = atLine j e.
Proof. reflexivity. Qed.

(** A line read at another index gives the same entry, relabelled. *)
Lemma lineEntry_shift (l : jsstring) (i j : nat) :
  lineEntry l j = option_map (atLine j) (lineEntry l i).
Proof.
  unfold lineEntry.
  destruct (negb (truthy (trim l))); [reflexivity|].
  destruct (startsWith [HASH] (trim l) && _); [reflexivity|].
  rewrite !parseRuleLine_parseContent.
  set (c := if startsWith DISABLED_PREFIX (trim l) then _ else _).
  set (b := negb _).
  rewrite (parseContent_relabel c b b i j).
  destruct (parseContent c b i) as [e|] eqn:E; [|reflexivity].
  simpl. f_equal. apply parseContent_fields in E.
  destruct E as (_ & Hb & _). destruct e as [r k n]; destruct r.
  simpl in *. now subst.
Qed.

Lemma lineEntries_shift (lines : list jsstring) (i j : nat) :
  lineEntries lines j
  = map (fun e => atLine (lineNumber e + j - i) e) (lineEntries lines i).
Proof.
  revert i j. induction lines as [|l lines IH]; intros i j; simpl.
  - reflexivity.
  - rewrite (lineEntry_shift l i j), (IH (S i) (S j)).
    destruct (lineEntry l i) as [e|] eqn:E; simpl.
    + apply lineEntry_fields in E. destruct E as (Hn & _ & _).
      rewrite Hn. replace (i + j - i) with j by lia. f_equal.
      apply map_ext. intros e'.
      now replace (lineNumber e' + S j - S i) with (lineNumber e' + j - i)
        by lia.
    + apply map_ext. intros e'.
      now replace (lineNumber e' + S j - S i) with (lineNumber e' + j - i)
        by lia.
Qed.

(** The entries of the lines from index [i] on carry the indices of their
    lines, in increasing order. *)
Lemma lineEntries_bounds (lines : list jsstring) (i : nat) e :
  In e (lineEntries lines i) ->
  i <= lineNumber e < i + length lines.
Proof.
  revert i. induction lines as [|l lines IH]; intros i; simpl; [tauto|].
  destruct (lineEntry l i) as [e'|] eqn:E.
  - intros [<-|Hin].
    + apply lineEntry_fields in E. lia.
    + apply IH in Hin. lia.
  - intros Hin. apply IH in Hin. lia.
Qed.

Lemma lineEntries_sorted (lines : list jsstring) (i : nat) :
  StronglySorted (fun a b => lineNumber a < lineNumber b)
    (lineEntries lines i).
Proof.
  revert i. induction lines as [|l lines IH]; intros i; simpl.
  - constructor.
  - destruct (lineEntry l i) as [e|] eqn:E; [|apply IH].
    constructor; [apply IH|].
    apply Forall_forall. intros e' Hin.
    apply lineEntries_bounds in Hin. apply lineEntry_fields in E. lia.
Qed.

Lemma lines_at (n : nat) (lines : list jsstring) :
  n < length lines ->
  lines = firstn n lines ++ nth n lines [] :: skipn (S n) lines
  /\ length (firstn n lines) = n.
Proof.
  revert n. induction lines as [|l lines IH]; intros n Hn; simpl in Hn.
  - lia.
  - destruct n as [|n]; simpl; [auto|].
    destruct (IH n ltac:(lia)) as [Heq Hlen].
    split; [f_equal; exact Heq | now rewrite Hlen].
Qed.

Lemma includesUnit_false (c : N) (s : jsstring) :
  includesUnit c s = false <-> ~ In c s.
Proof.
  unfold includesUnit. split.
  - intros H Hin.
    assert (existsb (N.eqb c) s = true) as Ht
      by (apply existsb_exists; exists c; split; [assumption | apply N.eqb_refl]).
    congruence.
  - intros Hnot. destruct (existsb (N.eqb c) s) eqn:E; [|reflexivity].
    apply existsb_exists in E. destruct E as (x & Hx & Heq).
    apply N.eqb_eq in Heq. subst x. contradiction.
Qed.

Lemma includesUnit_sub (c : N) (s s' : jsstring) :
  (forall x, In x s' -> In x s) ->
  includesUnit c s = false -> includesUnit c s' = false.
Proof. rewrite !includesUnit_false. intros Hsub Hs Hin. auto. Qed.

Lemma In_dropWhile (f : N -> bool) (s : jsstring) x :
  In x (dropWhile f s) -> In x s.
Proof.
  induction s as [|c s IH]; simpl; [tauto|].
  destruct (f c); [auto | simpl; tauto].
Qed.

Lemma In_trim (s : jsstring) x : In x (trim s) -> In x s.
Proof.
  unfold trim, trimEnd, trimStart. intros H.
  apply In_dropWhile with (f := isWhiteSpace).
  apply in_rev in H. apply In_dropWhile in H. now apply in_rev in H.
Qed.

Lemma dropWhile_stops (f : N -> bool) (s : jsstring) :
  stopsAt f (dropWhile f s).
Proof.
  induction s as [|c s IH]; simpl; [trivial|].
  destruct (f c) eqn:E; [exact IH | exact E].
Qed.

Lemma dropWhile_keeps_last (f : N -> bool) (s : jsstring) (c : N) :
  f c = false -> exists x, dropWhile f (s ++ [c]) = x ++ [c].
Proof.
  intros Hc. induction s as [|y s IH]; simpl.
  - rewrite Hc. now exists [].
  - destruct (f y); [exact IH | now exists (y :: s)].
Qed.

(** A trimmed string has no blank at either end. *)
Lemma trim_tight (s : jsstring) :
  stopsAt isWhiteSpace (trim s) /\ stopsAt isWhiteSpace (rev (trim s)).
Proof.
  unfold trim, trimEnd. split.
  - unfold trimStart.
    pose proof (dropWhile_stops isWhiteSpace s) as Hhead.
    destruct (dropWhile isWhiteSpace s) as [|c t]; [exact I|].
    simpl in Hhead. simpl rev.
    destruct (dropWhile_keeps_last isWhiteSpace (rev t) c Hhead) as [x ->].
    rewrite rev_app_distr. exact Hhead.
  - rewrite rev_involutive. apply dropWhile_stops.
Qed.

Lemma trim_trim (s : jsstring) : trim (trim s) = trim s.
Proof. apply trim_id; apply trim_tight. Qed.

Lemma trim_nil : trim [] = [].
Proof. reflexivity. Qed.

(** A content that opens with [#] is rejected: its mode is not one. *)
Lemma parseContent_hash (c : jsstring) (b : bool) (i : nat) :
  startsWith [HASH] c = true -> exists w, parseContent c b i = Rejected w.
Proof.
  intros H. destruct c as [|x c]; [discriminate|].
  change (startsWith [HASH] (x :: c)) with ((HASH =? x)%N && true) in H.
  rewrite andb_true_r in H. apply N.eqb_eq in H. subst x.
  unfold parseContent, firstSplit.
  change (takeWhile notWhiteSpace (HASH :: c))
    with (HASH :: takeWhile notWhiteSpace c).
  set (rest := dropWhile notWhiteSpace (HASH :: c)).
  destruct (truthy (HASH :: takeWhile notWhiteSpace c)
            && truthy (takeWhile isWhiteSpace rest)
            && truthy (takeWhile notWhiteSpace (dropWhile isWhiteSpace rest))
            && truthy (takeWhile isWhiteSpace
                         (dropWhile notWhiteSpace
                            (dropWhile isWhiteSpace rest))));
    [|eexists; reflexivity].
  destruct (splitPattern _) as [[p ms]|]; [|eexists; reflexivity].
  destruct (negb (truthy p)); [eexists; reflexivity|].
  change (validMode (toLowerCase (HASH :: takeWhile notWhiteSpace c)))
    with (@None FilterMode).
  eexists; reflexivity.
Qed.

Lemma parseContent_nil (b : bool) (i : nat) :
  parseContent [] b i = Rejected ExpectedThreeFields.
Proof. reflexivity. Qed.

Lemma startsWith_prefix_hash (s : jsstring) :
  startsWith DISABLED_PREFIX s = true -> startsWith [HASH] s = true.
Proof.
  destruct s as [|x s]; [discriminate|]. simpl.
  intros H. apply andb_true_iff in H. destruct H as [-> _]. reflexivity.
Qed.

Lemma setEnabled_atLine (j : nat) (b : bool) (e : RuleEntry) :
  atLine j e = e -> atLine j (setEnabled b e) = setEnabled b e.
Proof.
  destruct e as [r k n]. destruct r. unfold atLine, setEnabled. simpl.
  intros H. inversion H. repeat f_equal; assumption.
Qed.

Lemma setEnabled_same (e : RuleEntry) : setEnabled (enabled (rule e)) e = e.
Proof. destruct e as [r k n]. now destruct r. Qed.

(** Putting the disabled marker in front of the line of an enabled entry
    gives the same entry, disabled. *)
Lemma lineEntry_disable (l : jsstring) (i : nat) (e : RuleEntry) :
  lineEntry l i = Some e ->
  startsWith DISABLED_PREFIX (trim l) = false ->
  lineEntry (DISABLED_PREFIX ++ trim l) i = Some (setEnabled false e).
Proof.
  intros He Hoff.
  destruct (lineEntry_fields l i e He) as (_ & Hat & _).
  unfold lineEntry in He.
  destruct (truthy (trim l)) eqn:Ht; [|discriminate]. cbn [negb] in He.
  destruct (startsWith [HASH] (trim l) && _); [discriminate|].
  rewrite parseRuleLine_parseContent, Hoff in He. cbn [negb] in He.
  destruct (parseContent (trim l) true i) as [e'|] eqn:E; [|discriminate].
  inversion He; subst e'.
  destruct (trim_tight l) as [Hhead Hlast].
  assert (trim (DISABLED_PREFIX ++ trim l) = DISABLED_PREFIX ++ trim l) as Hid.
  { apply trim_id; [reflexivity|].
    apply stopsAt_rev_app; [|assumption]. now apply truthy_true. }
  unfold lineEntry. rewrite Hid.
  rewrite startsWith_app. cbn [negb andb].
  rewrite andb_false_r.
  rewrite parseRuleLine_parseContent, startsWith_app, skipn_prefix, trim_trim.
  cbn [negb].
  rewrite (parseContent_relabel (trim l) true false i i), E.
  now rewrite (setEnabled_atLine i false e Hat).
Qed.

(** Taking the disabled marker off the line of a disabled entry gives the
    same entry, enabled. *)
Lemma lineEntry_enable (l : jsstring) (i : nat) (e : RuleEntry) :
  lineEntry l i = Some e ->
  startsWith DISABLED_PREFIX (trim l) = true ->
  lineEntry (sliceFrom (length DISABLED_PREFIX) (trim l)) i
  = Some (setEnabled true e).
Proof.
  intros He Hon.
  destruct (lineEntry_fields l i e He) as (_ & Hat & _).
  unfold lineEntry in He.
  destruct (negb (truthy (trim l))); [discriminate|].
  destruct (startsWith [HASH] (trim l) && _); [discriminate|].
  rewrite parseRuleLine_parseContent, Hon in He. cbn [negb] in He.
  set (c := trim (sliceFrom (length DISABLED_PREFIX) (trim l))) in *.
  destruct (parseContent c false i) as [e'|] eqn:E; [|discriminate].
  inversion He; subst e'.
  assert (startsWith [HASH] c = false) as Hhash.
  { destruct (startsWith [HASH] c) eqn:H; [|reflexivity].
    destruct (parseContent_hash c false i H) as [w Hw]. congruence. }
  assert (startsWith DISABLED_PREFIX c = false) as Hpre.
  { destruct (startsWith DISABLED_PREFIX c) eqn:H; [|reflexivity].
    apply startsWith_prefix_hash in H. congruence. }
  assert (truthy c = true) as Ht.
  { destruct c; [|reflexivity]. rewrite parseContent_nil in E. discriminate. }
  unfold lineEntry. fold c. rewrite Ht, Hhash. cbn [negb andb].
  rewrite parseRuleLine_parseContent, Hpre. cbn [negb].
  rewrite (parseContent_relabel c false true i i), E.
  now rewrite (setEnabled_atLine i true e Hat).
Qed.

Lemma entries_join (ls : list jsstring) :
  Forall (fun l => includesUnit LF l = false) ls ->
  entries (parseRulesFile (join [LF] ls)) = lineEntries ls 0.
Proof.
  intros Hall. rewrite parseRulesFile_lineEntries.
  destruct ls as [|l ls]; [reflexivity|].
  now rewrite splitUnit_join by (discriminate || assumption).
Qed.

(** What the file holds after an edit, when the new lines hold no line
    feed. *)
Lemma mutateFile_entries adapter pluginDir content mutator :
  adapterRead adapter (rulesPath pluginDir) = Normal content ->
  Forall (fun l => includesUnit LF l = false)
    (mutator (splitUnit LF content)) ->
  entries (parseRulesFile (mutateFile adapter pluginDir mutator))
  = lineEntries (mutator (splitUnit LF content)) 0.
Proof.
  intros Hread Hall. unfold mutateFile. rewrite Hread.
  now apply entries_join.
Qed.

(** The lines of a file around line [n]. *)
Lemma file_lines_at (content : jsstring) (n : nat) :
  n < length (splitUnit LF content) ->
  exists pre l post,
    splitUnit LF content = pre ++ l :: post
    /\ length pre = n
    /\ l = nth n (splitUnit LF content) []
    /\ pre = firstn n (splitUnit LF content)
    /\ post = skipn (S n) (splitUnit LF content)
    /\ Forall (fun l => includesUnit LF l = false) pre
    /\ includesUnit LF l = false
    /\ Forall (fun l => includesUnit LF l = false) post.
Proof.
  intros Hn. destruct (lines_at n _ Hn) as [Heq Hlen].
  pose proof (splitUnit_pieces LF content) as Hall.
  rewrite Heq in Hall. apply Forall_app in Hall. destruct Hall as [Hpre Hrest].
  inversion Hrest; subst.
  eexists _, _, _. repeat split; eauto.
Qed.

Lemma lineEntries_around (pre post : list jsstring) (l : jsstring) :
  lineEntries (pre ++ l :: post) 0
  = lineEntries pre 0
    ++ match lineEntry l (length pre) with Some e => [e] | None => [] end
    ++ lineEntries post (S (length pre)).
Proof.
  rewrite lineEntries_app. simpl.
  now destruct (lineEntry l (length pre)).
Qed.

Lemma map_id_on {A : Type} (f : A -> A) (l : list A) :
  (forall x, In x l -> f x = x) -> map f l = l.
Proof.
  induction l as [|x l IH]; intros H; simpl; [reflexivity|].
  rewrite H by now left. f_equal. apply IH. intros y Hy. apply H. now right.
Qed.

Lemma filter_all {A : Type} (f : A -> bool) (l : list A) :
  (forall x, In x l -> f x = true) -> filter f l = l.
Proof.
  induction l as [|x l IH]; intros H; simpl; [reflexivity|].
  rewrite H by now left. f_equal. apply IH. intros y Hy. apply H. now right.
Qed.

(** The entry on line [n] of a file is what line [n] contributes. *)
Lemma entry_of_line (pre post : list jsstring) (l : jsstring) e :
  In e (lineEntries (pre ++ l :: post) 0) ->
  lineNumber e = length pre ->
  lineEntry l (length pre) = Some e.
Proof.
  rewrite lineEntries_around, !in_app_iff. intros [H|[H|H]] Hn.
  - apply lineEntries_bounds in H. lia.
  - destruct (lineEntry l (length pre)) as [e'|]; [|contradiction].
    destruct H as [<-|[]]. reflexivity.
  - apply lineEntries_bounds in H. lia.
Qed.

(** X1: the entries of a parsed file come in the order of the lines: their
    line numbers increase strictly and stay below the number of lines, so a
    line has at most one entry. *)
Theorem X1_entries_in_line_order (content : jsstring) :
  StronglySorted (fun a b => lineNumber a < lineNumber b)
    (entries (parseRulesFile content))
  /\ forall e, In e (entries (parseRulesFile content)) ->
       lineNumber e < length (splitUnit LF content).
Proof.
  rewrite parseRulesFile_lineEntries. split.
  - apply lineEntries_sorted.
  - intros e He. apply lineEntries_bounds in He. lia.
Qed.

(** X2: a line number outside the file leaves the file as it is, for
    [removeRuleByLine] and for [toggleRuleByLine] alike: negative numbers
    and numbers from the line count on are ignored without an error. *)
Theorem X2_edit_outside_file_changes_nothing
    adapter pluginDir content (n : Z) (b : bool) :
  adapterRead adapter (rulesPath pluginDir) = Normal content ->
  (n < 0 \/ Z.of_nat (length (splitUnit LF content)) <= n)%Z ->
  removeRuleByLine adapter pluginDir n = content
  /\ toggleRuleByLine adapter pluginDir n b = content.
Proof.
  intros Hread Hout.
  unfold removeRuleByLine, toggleRuleByLine, mutateFile, removeLine,
    toggleLine.
  rewrite Hread.
  assert (((0 <=? n) && (n <? Z.of_nat (length (splitUnit LF content))))%Z
          = false) as ->.
  { apply andb_false_iff. destruct Hout; [left|right]; lia. }
  assert (((n <? 0) || (Z.of_nat (length (splitUnit LF content)) <=? n))%Z
          = true) as ->.
  { apply orb_true_iff. destruct Hout; [left|right]; lia. }
  split; apply join_splitUnit.
Qed.

(** X3: [toggleRuleByLine] on the line of an entry sets the enabled flag
    of that entry to the value asked for and leaves every other entry, and
    every other field of that entry, as it was; afterwards the rule is
    among the grouped rules of its kind exactly when it was enabled. *)
Theorem X3_toggle_sets_one_flag adapter pluginDir content e (b : bool) :
  adapterRead adapter (rulesPath pluginDir) = Normal content ->
  In e (entries (parseRulesFile content)) ->
  let edited :=
    toggleRuleByLine adapter pluginDir (Z.of_nat (lineNumber e)) b in
  entries (parseRulesFile edited)
  = map (fun e' => if lineNumber e' =? lineNumber e
                   then setEnabled b e' else e')
      (entries (parseRulesFile content))
  /\ (In (rule (setEnabled b e))
        (group (entryType e) (grouped (parseRulesFile edited)))
      <-> b = true).
Proof.
  intros Hread He edited.
  assert (entries (parseRulesFile edited)
          = map (fun e' => if lineNumber e' =? lineNumber e
                           then setEnabled b e' else e')
              (entries (parseRulesFile content))) as Hentries.
  { subst edited. unfold toggleRuleByLine.
    assert (lineNumber e < length (splitUnit LF content)) as Hn.
    { rewrite parseRulesFile_lineEntries in He.
      apply lineEntries_bounds in He. lia. }
    destruct (file_lines_at content (lineNumber e) Hn)
      as (pre & l & post & Hlines & Hlen & Hl & Hpre & Hpost
          & Fpre & Fl & Fpost).
    rewrite parseRulesFile_lineEntries, Hlines in He.
    pose proof He as Hline.
    apply entry_of_line in Hline; [|now rewrite Hlen].
    rewrite Hlen in Hline.
    assert (forall l', includesUnit LF l' = false ->
              lineEntry l' (lineNumber e) = Some (setEnabled b e) ->
              toggleLine (Z.of_nat (lineNumber e)) b (splitUnit LF content)
              = pre ++ l' :: post ->
              entries (parseRulesFile
                         (mutateFile adapter pluginDir
                            (toggleLine (Z.of_nat (lineNumber e)) b)))
              = map (fun e' => if lineNumber e' =? lineNumber e
                               then setEnabled b e' else e')
                  (entries (parseRulesFile content))) as Hcase.
    { intros l' Fl' Hl' Hnew.
      rewrite (mutateFile_entries _ _ content _ Hread);
        rewrite Hnew;
        [|apply Forall_app; split; [assumption | now constructor]].
      rewrite parseRulesFile_lineEntries, Hlines, !lineEntries_around.
      rewrite Hlen, Hl', Hline, !map_app. cbn [map].
      rewrite Nat.eqb_refl. f_equal; [|f_equal].
      - symmetry. apply map_id_on. intros x Hx.
        apply lineEntries_bounds in Hx.
        destruct (Nat.eqb_spec (lineNumber x) (lineNumber e)); [lia | reflexivity].
      - symmetry. apply map_id_on. intros x Hx.
        apply lineEntries_bounds in Hx.
        destruct (Nat.eqb_spec (lineNumber x) (lineNumber e)); [lia | reflexivity]. }
    assert (toggleLine (Z.of_nat (lineNumber e)) b (splitUnit LF content)
            = let line := trim l in
              if b && startsWith DISABLED_PREFIX line
              then pre ++ sliceFrom (length DISABLED_PREFIX) line :: post
              else if negb b && negb (startsWith DISABLED_PREFIX line)
              then pre ++ (DISABLED_PREFIX ++ line) :: post
              else pre ++ l :: post) as Htoggle.
    { unfold toggleLine, replaceAt.
      assert (((Z.of_nat (lineNumber e) <? 0)
               || (Z.of_nat (length (splitUnit LF content))
                   <=? Z.of_nat (lineNumber e)))%Z = false) as ->.
      { apply orb_false_iff. split; lia. }
      rewrite Nat2Z.id, <- Hl, <- Hpre, <- Hpost. cbv zeta.
      now rewrite <- Hlines. }
    cbv zeta in Htoggle.
    destruct (lineEntry_fields l (lineNumber e) e Hline) as (_ & _ & Hen).
    destruct b, (startsWith DISABLED_PREFIX (trim l)) eqn:Hon;
      cbn [andb negb] in Htoggle, Hen.
    - apply (Hcase (sliceFrom (length DISABLED_PREFIX) (trim l))); auto.
      + apply (includesUnit_sub LF l); [|assumption].
        intros x Hx. apply In_trim.
        unfold sliceFrom in Hx.
        rewrite <- (firstn_skipn (length DISABLED_PREFIX) (trim l)).
        apply in_or_app. now right.
      + now apply lineEntry_enable.
    - apply (Hcase l); auto.
      rewrite Hline. f_equal. rewrite <- Hen. symmetry. apply setEnabled_same.
    - apply (Hcase l); auto.
      rewrite Hline. f_equal. rewrite <- Hen. symmetry. apply setEnabled_same.
    - apply (Hcase (DISABLED_PREFIX ++ trim l)); auto.
      + rewrite includesUnit_app.
        rewrite (includesUnit_sub LF l (trim l) (In_trim l) Fl). reflexivity.
      + now apply lineEntry_disable. }
  split; [exact Hentries|].
  rewrite (parseRulesFile_active edited (entryType e)), Hentries.
  split.
  - intros Hin. apply activeOf_enabled in Hin. exact Hin.
  - intros ->. unfold activeOf. apply in_map_iff.
    exists (setEnabled true e). split; [reflexivity|].
    apply filter_In. split.
    + apply in_map_iff. exists e. split; [|assumption].
      now rewrite Nat.eqb_refl.
    + simpl. now destruct (entryType e).
Qed.

(** X4: [removeRuleByLine] on a line of the file removes the entry of that
    line, if it has one, and nothing else: the entries above it are
    untouched, the entries below it keep their kind and every field of their
    rule but are read one line higher (line number, id and description
    follow the line). *)
Theorem X4_remove_deletes_one_line adapter pluginDir content (n : nat) :
  adapterRead adapter (rulesPath pluginDir) = Normal content ->
  n < length (splitUnit LF content) ->
  entries (parseRulesFile (removeRuleByLine adapter pluginDir (Z.of_nat n)))
  = map (fun e => if n <? lineNumber e
                  then atLine (lineNumber e - 1) e else e)
      (filter (fun e => negb (lineNumber e =? n))
         (entries (parseRulesFile content))).
Proof.
  intros Hread Hn. unfold removeRuleByLine.
  destruct (file_lines_at content n Hn)
    as (pre & l & post & Hlines & Hlen & Hl & Hpre & Hpost & Fpre & Fl & Fpost).
  assert (removeLine (Z.of_nat n) (splitUnit LF content) = pre ++ post)
    as Hnew.
  { unfold removeLine, removeAt.
    assert (((0 <=? Z.of_nat n)
             && (Z.of_nat n <? Z.of_nat (length (splitUnit LF content))))%Z
            = true) as -> by (apply andb_true_iff; split; lia).
    now rewrite Nat2Z.id, <- Hpre, <- Hpost. }
  rewrite (mutateFile_entries _ _ content _ Hread); rewrite Hnew;
    [|apply Forall_app; now split].
  rewrite parseRulesFile_lineEntries, Hlines, lineEntries_around.
  rewrite lineEntries_app, Hlen, !filter_app, !map_app. cbn [Nat.add].
  f_equal; [|].
  - rewrite filter_all.
    + symmetry. apply map_id_on. intros x Hx.
      apply lineEntries_bounds in Hx.
      destruct (Nat.ltb_spec n (lineNumber x)); [lia | reflexivity].
    + intros x Hx. apply lineEntries_bounds in Hx.
      destruct (Nat.eqb_spec (lineNumber x) n); [lia | reflexivity].
  - assert (filter (fun e => negb (lineNumber e =? n))
              match lineEntry l n with Some e => [e] | None => [] end = [])
      as ->.
    { destruct (lineEntry l n) as [e|] eqn:E; [|reflexivity].
      apply lineEntry_fields in E. destruct E as (E & _).
      simpl. now rewrite E, Nat.eqb_refl. }
    cbn [map Datatypes.app].
    rewrite filter_all.
    + rewrite (lineEntries_shift post (S n) n).
      apply map_ext_in. intros x Hx. apply lineEntries_bounds in Hx.
      destruct (Nat.ltb_spec n (lineNumber x)); [|lia].
      now replace (lineNumber x + n - S n) with (lineNumber x - 1) by lia.
    + intros x Hx. apply lineEntries_bounds in Hx.
      destruct (Nat.eqb_spec (lineNumber x) n); [lia | reflexivity].
Qed.

(** The line that [serializeRule] writes holds no line feed and is read, on
    any line, as the rule it was written from. *)
Lemma serialized_line (k : RuleKind) (r : FilterRule) (i : nat) :
  roundTrips r ->
  includesUnit LF (serializeRule (kindName k) r) = false
  /\ lineEntry (serializeRule (kindName k) r) i
     = Some (mkEntry (reparsed r i) k i).
Proof.
  intros Hr.
  pose proof (parseRuleLine_serializeRule k r i Hr) as Hparse.
  destruct (tail_tight r Hr) as (Hne & Hhead & Hlast & Hlf).
  set (line := serializeRule (kindName k) r) in *.
  set (tail := patternStr r ++ methodStr r) in *.
  assert (line = (if enabled r then [] else DISABLED_PREFIX)
                 ++ (modeName (mode r) ++ lit "  " ++ kindName k ++ lit "  ")
                 ++ tail) as Hline.
  { unfold line, serializeRule, tail. now rewrite <- !app_assoc. }
  assert (includesUnit LF line = false) as Hnolf.
  { rewrite Hline, !includesUnit_app, Hlf.
    destruct (enabled r), (mode r), k; reflexivity. }
  assert (stopsAt isWhiteSpace line /\ truthy line = true
          /\ startsWith [HASH] line
             && negb (startsWith DISABLED_PREFIX line) = false) as (Hh & Ht & Hc).
  { rewrite Hline. destruct (enabled r), (mode r); repeat split. }
  assert (trim line = line) as Htrim.
  { apply trim_id; [assumption|]. rewrite Hline, !app_assoc.
    now apply stopsAt_rev_app. }
  split; [exact Hnolf|].
  unfold lineEntry. now rewrite Htrim, Ht, Hc, Hparse.
Qed.

Lemma last_app_cons {A : Type} (l : list A) (x d : A) :
  last (l ++ [x]) d = x.
Proof. apply last_last. Qed.

(** X5: [appendRule] with a rule the line format can carry keeps every
    entry of the file and adds one entry after them, for the rule appended:
    same kind, mode, pattern, flags, methods and enabled flag, on the last
    line of the new file (a blank line is put in between when the file did
    not end with one). *)
Theorem X5_append_adds_last_entry adapter pluginDir content k r :
  adapterRead adapter (rulesPath pluginDir) = Normal content ->
  roundTrips r ->
  let lines := splitUnit LF content in
  let j := if truthy (trim (last lines []))
           then S (length lines) else length lines in
  entries
    (parseRulesFile (appendRule adapter pluginDir (kindName k) r))
  = entries (parseRulesFile content) ++ [mkEntry (reparsed r j) k j].
Proof.
  intros Hread Hr lines j. unfold appendRule.
  pose proof (splitUnit_pieces LF content) as Hall. fold lines in Hall.
  pose proof (splitUnit_nonempty LF content) as Hne. fold lines in Hne.
  assert ((0 <? length lines) = true) as Hpos.
  { destruct lines; [contradiction | reflexivity]. }
  rewrite (mutateFile_entries _ _ content _ Hread); fold lines;
    unfold appendLine; rewrite Hpos; cbn [andb].
  - rewrite parseRulesFile_lineEntries. fold lines. subst j.
    destruct (truthy (trim (last lines []))).
    + rewrite <- app_assoc, lineEntries_app. cbn [Nat.add]. f_equal.
      cbn [Datatypes.app lineEntries].
      change (lineEntry [] (length lines)) with (@None RuleEntry).
      now rewrite (proj2 (serialized_line k r (S (length lines)) Hr)).
    + rewrite lineEntries_app. cbn [Nat.add lineEntries]. f_equal.
      now rewrite (proj2 (serialized_line k r (length lines) Hr)).
  - destruct (serialized_line k r 0 Hr) as [Hnolf _].
    destruct (truthy (trim (last lines []))).
    + apply Forall_app. split; [|now constructor].
      apply Forall_app. split; [assumption | now constructor].
    + apply Forall_app. split; [assumption | now constructor].
Qed.

(** *** Rule ids *)

Lemma lit_inj (s t : string) : lit s = lit t -> s = t.
Proof.
  unfold lit. intros H.
  rewrite <- (string_of_list_ascii_of_string s),
    <- (string_of_list_ascii_of_string t).
  f_equal. revert H.
  generalize (list_ascii_of_string s) (list_ascii_of_string t).
  induction l as [|a l IH]; intros [|b l']; simpl; try discriminate;
    [reflexivity|].
  intros H. inversion H as [[Hab Hl]]. f_equal; [|now apply IH].
  rewrite <- (ascii_N_embedding a), <- (ascii_N_embedding b). now f_equal.
Qed.

Lemma numberToString_inj (n m : nat) :
  numberToString n = numberToString m -> n = m.
Proof.
  unfold numberToString. intros H. apply lit_inj in H.
  assert (forall k, Nat.to_uint k <> Decimal.Nil) as Hnonnil.
  { intros k. rewrite <- (DecimalNat.Unsigned.of_to k) at 1.
    rewrite DecimalNat.Unsigned.to_of. apply DecimalFacts.unorm_nonnil. }
  apply DecimalNat.Unsigned.to_uint_inj.
  apply (f_equal NilZero.uint_of_string) in H.
  rewrite !NilZero.usu in H by apply Hnonnil.
  now inversion H.
Qed.

(** X6: every entry of a parsed file carries the id
    [rule-line-<line number + 1>], and the ids of the entries of one file
    are pairwise distinct. *)
Theorem X6_rule_ids_are_distinct (content : jsstring) :
  (forall e, In e (entries (parseRulesFile content)) ->
     id (rule e) = lit "rule-line-" ++ numberToString (lineNumber e + 1))
  /\ NoDup (map (fun e => id (rule e)) (entries (parseRulesFile content))).
Proof.
  rewrite parseRulesFile_lineEntries.
  assert (forall lines i e, In e (lineEntries lines i) ->
            id (rule e) = lit "rule-line-" ++ numberToString (lineNumber e + 1))
    as Hid.
  { induction lines as [|l lines IH]; intros i e; simpl; [tauto|].
    destruct (lineEntry l i) as [e'|] eqn:E; [|apply IH].
    intros [<-|Hin]; [|now apply IH in Hin].
    apply lineEntry_fields in E. destruct E as (Hn & Hat & _).
    rewrite <- Hat at 1. now rewrite Hn. }
  split; [apply Hid|].
  generalize 0. induction (splitUnit LF content) as [|l lines IH]; intros i.
  - constructor.
  - simpl. destruct (lineEntry l i) as [e|] eqn:E; [|apply IH].
    simpl. constructor; [|apply IH].
    intros Hin. apply in_map_iff in Hin. destruct Hin as (e' & Heq & Hin').
    pose proof (lineEntries_bounds _ _ _ Hin') as Hb.
    rewrite (Hid lines (S i) e' Hin') in Heq.
    rewrite (Hid (l :: lines) i e) in Heq by (simpl; rewrite E; now left).
    apply app_inv_head in Heq. apply numberToString_inj in Heq.
    apply lineEntry_fields in E. lia.
Qed.

(** *** The shape of a parsed rule *)

Lemma flagMatch_Some (s f : jsstring) :
  flagMatch s = Some f ->
  f <> [] /\ forallb isFlagUnit f = true
  /\ s = dropLast (S (length f)) s ++ SLASH :: f.
Proof.
  induction s as [|c s IH]; simpl; [discriminate|].
  destruct ((c =? SLASH)%N && truthy s && forallb isFlagUnit s) eqn:E.
  - intros H; inversion H; subst f.
    apply andb_true_iff in E. destruct E as [E Hflags].
    apply andb_true_iff in E. destruct E as [Hc Ht].
    apply N.eqb_eq in Hc. subst c. apply truthy_true in Ht.
    repeat split; try assumption.
    unfold dropLast. simpl length.
    now replace (S (length s) - S (length s)) with 0 by lia.
  - intros H. destruct (IH H) as (Hne & Hflags & Heq).
    repeat split; try assumption.
    unfold dropLast in *. simpl length.
    assert (S (length f) <= length s) as Hle.
    { pose proof (f_equal (@length N) Heq) as Hlen.
      rewrite length_app in Hlen. simpl in Hlen. lia. }
    replace (S (length s) - S (length f))
      with (S (length s - S (length f))) by lia.
    simpl. now rewrite <- Heq.
Qed.

Lemma parseMethods_Some (m : jsstring) (ms : list HttpMethod) :
  parseMethods m = Some ms -> ms <> [].
Proof.
  unfold parseMethods. destruct (keepValidMethods _); [discriminate|].
  intros H; inversion H. discriminate.
Qed.

Lemma parseContent_shape (c : jsstring) (b : bool) (i : nat) e :
  parseContent c b i = Entry e -> parsedShape (rule e).
Proof.
  unfold parseContent.
  destruct (firstSplit c) as [[[modeStr typeStr] remainder]|]; [|discriminate].
  destruct (splitPattern (trim remainder)) as [[p methodsStr]|];
    [|discriminate].
  destruct (truthy p) eqn:Hp; [|discriminate]. cbn [negb].
  destruct (validMode _) as [m|]; [|discriminate].
  destruct (validType _) as [k|]; [|discriminate].
  assert (match methodsStr with
          | Some m0 => if truthy m0 then parseMethods m0 else None
          | None => None
          end <> Some []) as Hms.
  { destruct methodsStr as [m0|]; [|discriminate].
    destruct (truthy m0); [|discriminate].
    destruct (parseMethods m0) as [ms|] eqn:E; [|discriminate].
    apply parseMethods_Some in E. congruence. }
  cbv zeta.
  destruct (startsWith [TILDE] p) eqn:Hrx.
  - destruct (flagMatch (sliceFrom 1 p)) as [f|] eqn:Hf;
      intros H; inversion H; subst e; clear H;
      unfold parsedShape; cbn [rule methods isRegex pattern regexFlags];
      (split; [exact Hms|]); (split; [intros H; discriminate H|]); split.
    + intros f' Hf'. inversion Hf'; subst f'.
      destruct (flagMatch_Some _ _ Hf) as (H1 & H2 & _). auto.
    + intros _ H. discriminate H.
    + intros f' H. discriminate H.
    + intros _ _. exact Hf.
  - intros H; inversion H; subst e; clear H.
    unfold parsedShape; cbn [rule methods isRegex pattern regexFlags].
    split; [exact Hms|]. split; [|split].
    + intros _. repeat split; try assumption. now apply truthy_true.
    + intros f H. discriminate H.
    + intros H. discriminate H.
Qed.

(** X7: every rule that [parseRulesFile] keeps, enabled or not, has the
    shape the parser builds: its method list is absent or non-empty; a rule
    that is not a regular expression has a non-empty pattern that does not
    start with a tilde, and no flags; flags occur only on regular
    expressions and are one or more of the letters [gimsuy]; and a regular
    expression without flags does not end in a slash followed by such
    letters. *)
Theorem X7_parsed_rules_have_parser_shape (content : jsstring) e :
  In e (entries (parseRulesFile content)) -> parsedShape (rule e).
Proof.
  rewrite parseRulesFile_lineEntries. generalize 0.
  induction (splitUnit LF content) as [|l lines IH]; intros i; simpl; [tauto|].
  destruct (lineEntry l i) as [e'|] eqn:E; [|apply IH].
  intros [<-|Hin]; [|now apply IH in Hin].
  unfold lineEntry in E.
  destruct (negb (truthy (trim l))); [discriminate|].
  destruct (startsWith [HASH] (trim l) && _); [discriminate|].
  rewrite parseRuleLine_parseContent in E.
  destruct (parseContent _ _ i) as [e''|] eqn:P; [|discriminate].
  inversion E; subst e''. now apply parseContent_shape in P.
Qed.

(* ================================================================== *)
(** ** What an evaluation consults *)
(* ================================================================== *)

Section Consults.

Variable minimatch : jsstring -> jsstring -> bool.
Variable RegExp : jsstring -> option jsstring -> Completion (jsstring -> bool).

Local Abbreviation evaluate := (evaluateFile minimatch RegExp).

(** X9: with no keyword rule loaded, the decision does not depend on the
    content of any file: two vaults with the same files and the same
    metadata get the same decision, whatever reading a file returns, even
    if it fails. *)
Theorem X9_no_keyword_rule_no_read
    (a a' : App) (rules : option ParsedRules) filePath settings method :
  (forall p, getAbstractFileByPath a p = getAbstractFileByPath a' p) ->
  (forall f, getFileCache a f = getFileCache a' f) ->
  match rules with Some rs => keyword rs = [] | None => True end ->
  evaluate (mkEngine a rules) filePath settings method
  = evaluate (mkEngine a' rules) filePath settings method.
Proof.
  intros Hfile Hcache Hkw.
  assert (collectFileTags filePath a = collectFileTags filePath a') as Htags.
  { unfold collectFileTags. rewrite Hfile.
    destruct (getAbstractFileByPath a' filePath) as [file|]; [|reflexivity].
    now rewrite Hcache. }
  unfold evaluateFile. cbn [app fileRules].
  unfold checkGlobalTags, checkTagFilter. rewrite Htags.
  destruct rules as [rs|]; [|reflexivity]. rewrite Hkw. reflexivity.
Qed.

(** X10: when the rule file does not exist, or checking for it or reading
    it fails, [reloadRules] leaves the engine without rules, and, unless a
    global tag decides, every path then gets the default policy; when the
    file is read, the engine holds the grouped rules of its content. *)
Theorem X10_reload_without_file_gives_default
    (this : FilterEngine) (adapter : DataAdapter) (pluginDir : jsstring) :
  (adapterExists adapter (rulesPath pluginDir) <> Normal true
   \/ adapterRead adapter (rulesPath pluginDir) = Throw ->
   fileRules (reloadRules this adapter pluginDir) = None
   /\ forall filePath settings method,
        checkGlobalTags filePath (app this)
          (globalAllowTag settings) (globalDenyTag settings) = None ->
        evaluate (reloadRules this adapter pluginDir) filePath settings method
        = defaultDecision settings)
  /\ (forall content,
        adapterExists adapter (rulesPath pluginDir) = Normal true ->
        adapterRead adapter (rulesPath pluginDir) = Normal content ->
        fileRules (reloadRules this adapter pluginDir)
        = Some (grouped (parseRulesFile content))).
Proof.
  split.
  - intros Hfail.
    assert (loadRulesFile adapter pluginDir = None) as Hload.
    { unfold loadRulesFile.
      destruct (adapterExists adapter (rulesPath pluginDir)) as [[|]|];
        try reflexivity.
      destruct Hfail as [H | ->]; [now contradiction H | reflexivity]. }
    unfold reloadRules. rewrite Hload. split; [reflexivity|].
    intros filePath settings method Hglobal.
    unfold evaluateFile. cbn [app fileRules]. now rewrite Hglobal.
  - intros content Hex Hread. unfold reloadRules, loadRulesFile.
    now rewrite Hex, Hread.
Qed.

Lemma upperUnit_idem (c : N) : upperUnit (upperUnit c) = upperUnit c.
Proof.
  unfold upperUnit.
  destruct ((97 <=? c) && (c <=? 122))%N eqn:E; [|now rewrite E].
  apply andb_true_iff in E. destruct E as [E1 E2].
  apply N.leb_le in E1, E2.
  assert ((97 <=? c - 32) && (c - 32 <=? 122) = false)%N as ->; [|reflexivity].
  apply andb_false_iff. left. apply N.leb_gt. lia.
Qed.

Lemma toUpperCase_idem (s : jsstring) :
  toUpperCase (toUpperCase s) = toUpperCase s.
Proof.
  unfold toUpperCase. rewrite map_map. apply map_ext. apply upperUnit_idem.
Qed.

Lemma applies_upper (m : jsstring) (d : FilterDecision) :
  applies (Some (toUpperCase m)) d = applies (Some m) d.
Proof.
  unfold applies, methodAllowed. rewrite toUpperCase_idem.
  now destruct m.
Qed.

End Consults.

(* ================================================================== *)
(** ** Search results and directory listings *)
(* ================================================================== *)

Lemma filter_map_comm {A B : Type} (g : A -> B) (keep : B -> bool)
    (l : list A) :
  filter keep (map g l) = map g (filter (fun x => keep (g x)) l).
Proof.
  induction l as [|x l IH]; simpl; [reflexivity|].
  destruct (keep (g x)); simpl; now rewrite IH.
Qed.

(* ================================================================== *)
(** ** audit-logger.ts: the recent lines *)
(* ================================================================== *)

(** X14: when the log file exists, [readRecentLines] with a positive
    [count] returns the last [count] non-blank lines of the log, all of them
    when it has fewer; with [count] zero it returns all the non-blank
    lines, not none. *)
Theorem X14_recent_lines_are_the_last_ones
    (this : AuditLogger) (logType : LogType) (p : jsstring)
    (adapter : DataAdapter) (content : jsstring) (count : Z) :
  match logType with
  | access_log => accessLogPath this
  | error_log => errorLogPath this
  end = Some p ->
  p <> [] ->
  loggerAdapter this = Some adapter ->
  adapterExists adapter p = Normal true ->
  adapterRead adapter p = Normal content ->
  let kept := filter (fun l => truthy (trim l)) (splitUnit LF content) in
  ((0 < count)%Z ->
   exists lines,
     readRecentLines this logType count = Normal lines
     /\ lines = skipn (length kept - Z.to_nat count) kept
     /\ length lines = Nat.min (Z.to_nat count) (length kept)
     /\ forall l, In l lines -> trim l <> [])
  /\ readRecentLines this logType 0 = Normal kept.
Proof.
  intros Hpath Hp Hadapter Hexists Hread kept.
  assert (forall c, readRecentLines this logType c
                    = Normal (recentLines content c)) as Hcall.
  { intros c. unfold readRecentLines. rewrite Hpath, Hadapter.
    apply truthy_true in Hp. now rewrite Hp, Hexists, Hread. }
  split.
  - intros Hpos. exists (recentLines content count).
    assert (recentLines content count
            = skipn (length kept - Z.to_nat count) kept) as Heq.
    { unfold recentLines, sliceArray. fold kept.
      assert ((- count <? 0)%Z = true) as -> by lia.
      f_equal. lia. }
    split; [apply Hcall|]. split; [exact Heq|]. split.
    + rewrite Heq, length_skipn. lia.
    + intros l Hl. rewrite Heq in Hl.
      assert (In l kept) as Hin.
      { rewrite <- (firstn_skipn (length kept - Z.to_nat count) kept).
        apply in_or_app. now right. }
      apply filter_In in Hin. destruct Hin as [_ Hin].
      now apply truthy_true.
  - rewrite Hcall. reflexivity.
Qed.

(* ================================================================== *)
(** ** securityFilterMiddleware.ts: the vault path *)
(* ================================================================== *)

Lemma includes_tail (needle s : jsstring) (c : N) :
  includes needle (c :: s) = false -> includes needle s = false.
Proof.
  cbn [includes]. intros H. apply orb_false_iff in H. tauto.
Qed.

Lemma includes_dropWhile (needle s : jsstring) (f : N -> bool) :
  includes needle s = false -> includes needle (dropWhile f s) = false.
Proof.
  induction s as [|c s IH]; [trivial|]. intros H. cbn [dropWhile].
  destruct (f c); [|exact H]. apply IH. now apply includes_tail in H.
Qed.

Lemma startsWith_unit (c x : N) (s : jsstring) :
  startsWith [c] (x :: s) = (c =? x)%N.
Proof. cbn [startsWith]. apply andb_true_r. Qed.

Lemma includes_pair_cons (c x : N) (s : jsstring) :
  includes [c; c] (x :: s)
  = (c =? x)%N && startsWith [c] s || includes [c; c] s.
Proof.
  cbn [includes startsWith]. destruct s as [|y s]; [|now rewrite andb_true_r].
  cbn [startsWith includes]. now rewrite !andb_false_r.
Qed.

(** After collapsing, no two slashes are adjacent, and right after a slash
    the output does not open with one. *)
Lemma collapseSlashes_single (b : bool) (s : jsstring) :
  includes [SLASH; SLASH] (collapseSlashes b s) = false
  /\ (b = true -> startsWith [SLASH] (collapseSlashes b s) = false).
Proof.
  revert b. induction s as [|c s IH]; intros b; [split; reflexivity|].
  cbn [collapseSlashes]. destruct (c =? SLASH)%N eqn:E.
  - destruct b; [apply IH|].
    destruct (IH true) as [IH1 IH2]. split; [|discriminate].
    rewrite includes_pair_cons, IH1, (IH2 eq_refl). reflexivity.
  - destruct (IH false) as [IH1 _]. rewrite N.eqb_sym in E. split.
    + now rewrite includes_pair_cons, IH1, E.
    + intros _. now rewrite startsWith_unit.
Qed.

(** A string without adjacent slashes is left as it is. *)
Lemma collapseSlashes_id (b : bool) (s : jsstring) :
  includes [SLASH; SLASH] s = false ->
  (b = true -> startsWith [SLASH] s = false) ->
  collapseSlashes b s = s.
Proof.
  revert b. induction s as [|c s IH]; intros b Hpair Hhead; [reflexivity|].
  cbn [collapseSlashes]. rewrite includes_pair_cons in Hpair.
  apply orb_false_iff in Hpair. destruct Hpair as [Hc Hs].
  destruct (c =? SLASH)%N eqn:E.
  - rewrite N.eqb_sym in E. rewrite E in Hc. cbn [andb] in Hc.
    destruct b.
    + specialize (Hhead eq_refl). rewrite startsWith_unit in Hhead. congruence.
    + f_equal; [now apply N.eqb_eq|].
      apply IH; [assumption | now intros _].
  - f_equal. apply IH; [assumption | discriminate].
Qed.

Lemma dropWhile_id (f : N -> bool) (s : jsstring) :
  stopsAt f s -> dropWhile f s = s.
Proof. destruct s as [|c s]; simpl; [reflexivity | now intros ->]. Qed.

Lemma stopsAt_slash (s : jsstring) :
  stopsAt (N.eqb SLASH) s <-> startsWith [SLASH] s = false.
Proof.
  destruct s as [|c s]; [simpl; tauto|].
  rewrite startsWith_unit. reflexivity.
Qed.

Lemma last_cons_default {A : Type} (x d : A) (l : list A) :
  last (x :: l) d = last l x.
Proof.
  revert x d. induction l as [|y l IH]; intros x d; [reflexivity|].
  change (last (x :: y :: l) d) with (last (y :: l) d).
  now rewrite !IH.
Qed.

(** Collapsing keeps the last unit, the slash before the cursor standing
    in when nothing is left. *)
Lemma collapseSlashes_last (b : bool) (s : jsstring) (d : N) :
  last (collapseSlashes b s) (if b then SLASH else d)
  = last s (if b then SLASH else d).
Proof.
  revert b d. induction s as [|c s IH]; intros b d; [reflexivity|].
  cbn [collapseSlashes]. rewrite (last_cons_default c).
  destruct (c =? SLASH)%N eqn:E.
  - apply N.eqb_eq in E. subst c. destruct b.
    + apply (IH true d).
    + rewrite last_cons_default. apply (IH true d).
  - rewrite last_cons_default. apply (IH false c).
Qed.

Lemma dropWhile_last (f : N -> bool) (s : jsstring) (d : N) :
  dropWhile f s <> [] -> last (dropWhile f s) d = last s d.
Proof.
  induction s as [|c s IH]; [reflexivity|]. cbn [dropWhile].
  destruct (f c); [|reflexivity].
  intros H. rewrite (IH H), last_cons_default.
  destruct s as [|y s]; [contradiction|].
  now rewrite !last_cons_default.
Qed.

Lemma endsWith_unit (c : N) (s : jsstring) :
  endsWith [c] s = match s with
                   | [] => false
                   | _ => (c =? last s c)%N
                   end.
Proof.
  unfold endsWith. cbn [rev Datatypes.app].
  destruct s as [|x s]; [reflexivity|].
  destruct (@exists_last _ (x :: s) ltac:(discriminate)) as (s' & y & ->).
  rewrite rev_app_distr, last_last. apply startsWith_unit.
Qed.

(** X15: [normalizeVaultPath] returns a path that does not start with a
    slash and has no two slashes in a row; it leaves such a path as it is,
    and so normalizing twice is normalizing once. *)
Theorem X15_normalized_vault_path (raw : jsstring) :
  startsWith (lit "/") (normalizeVaultPath raw) = false
  /\ includes (lit "//") (normalizeVaultPath raw) = false
  /\ (startsWith (lit "/") raw = false -> includes (lit "//") raw = false ->
      normalizeVaultPath raw = raw)
  /\ normalizeVaultPath (normalizeVaultPath raw) = normalizeVaultPath raw.
Proof.
  assert (startsWith [SLASH] (normalizeVaultPath raw) = false) as Hhead.
  { apply stopsAt_slash. apply dropWhile_stops. }
  assert (includes [SLASH; SLASH] (normalizeVaultPath raw) = false) as Hpair.
  { apply includes_dropWhile. apply collapseSlashes_single. }
  assert (forall s, startsWith [SLASH] s = false ->
                    includes [SLASH; SLASH] s = false ->
                    normalizeVaultPath s = s) as Hfix.
  { intros s Hs Hss. unfold normalizeVaultPath.
    rewrite collapseSlashes_id by (assumption || discriminate).
    apply dropWhile_id. now apply stopsAt_slash. }
  split; [exact Hhead|]. split; [exact Hpair|]. split; [apply Hfix|].
  now apply Hfix.
Qed.

(** X16: normalizing does not turn a directory path into a file path or
    the other way round: when something is left of the path, it ends with
    a slash exactly when the raw path does. *)
Theorem X16_normalizing_keeps_the_trailing_slash (raw : jsstring) :
  normalizeVaultPath raw <> [] ->
  endsWith (lit "/") (normalizeVaultPath raw) = endsWith (lit "/") raw.
Proof.
  intros Hne. change (lit "/") with [SLASH]. rewrite !endsWith_unit.
  unfold normalizeVaultPath in *.
  rewrite (dropWhile_last _ _ SLASH Hne).
  pose proof (collapseSlashes_last false raw SLASH) as Hlast.
  cbn [negb] in Hlast. rewrite Hlast.
  destruct (dropWhile (N.eqb SLASH) (collapseSlashes false raw)) as [|x t] eqn:E;
    [contradiction|].
  destruct raw as [|c raw]; [discriminate E | reflexivity].
Qed.

(* ================================================================== *)
(** ** securityFilterMiddleware.ts: the request handler *)
(* ================================================================== *)

Lemma startsWith_split (p s : jsstring) :
  startsWith p s = true -> s = p ++ sliceFrom (length p) s.
Proof.
  revert s. induction p as [|x p IH]; intros s H; [reflexivity|].
  destruct s as [|c s]; [discriminate|]. cbn [startsWith] in H.
  apply andb_true_iff in H. destruct H as [Hx Hp].
  apply N.eqb_eq in Hx. subst c.
  change (sliceFrom (length (x :: p)) (x :: s)) with (sliceFrom (length p) s).
  cbn [Datatypes.app]. f_equal. now apply IH.
Qed.

(** A path under [/vault/] or [/active/] is not a search path. *)
Lemma vault_not_search (p : jsstring) :
  startsWith (lit "/vault/") p = true ->
  startsWith (lit "/search") p = false
  /\ startsWith (lit "/active/") p = false
  /\ startsWith (lit "/commands/") p = false.
Proof.
  intros H. apply startsWith_split in H. rewrite H.
  repeat split; reflexivity.
Qed.

Lemma active_not_search (p : jsstring) :
  startsWith (lit "/active/") p = true ->
  startsWith (lit "/search") p = false
  /\ startsWith (lit "/vault/") p = false
  /\ startsWith (lit "/commands/") p = false.
Proof.
  intros H. apply startsWith_split in H. rewrite H.
  repeat split; reflexivity.
Qed.

Section MiddlewareFacts.

Variable minimatch : jsstring -> jsstring -> bool.
Variable RegExp : jsstring -> option jsstring -> Completion (jsstring -> bool).
Variable decodeURIComponent : jsstring -> jsstring + jsstring.

Local Abbreviation handler :=
  (securityFilter minimatch RegExp decodeURIComponent).
Local Abbreviation evaluate := (evaluateFile minimatch RegExp).

Ltac no_such_entry :=
  let Hin := fresh "Hin" in
  intros Hin; cbn [logged In] in Hin;
  first [contradiction | destruct Hin as [<- | []]; discriminate].

Ltac branches :=
  repeat match goal with
         | |- context [if ?b then _ else _] => destruct b eqn:?
         end.

(** X17: the handler does one of three things with a request.  It answers
    with status 400 or 403, does not call [next], and logs one entry with
    the status it answered; or it calls [next()] without answering or
    logging; or it calls [next(err)] without answering and without having
    attached an interceptor, and logs one entry of level error with status
    500. *)
Theorem X17_answer_or_next_never_both
    (activeFile : option jsstring) (settings : SecuritySettings)
    (filterEngine : FilterEngine) (req : Request) :
  let o := handler activeFile settings filterEngine req in
  match answer o, next o with
  | Some a, NotCalled =>
      (status a = 400 \/ status a = 403)
      /\ answerMessage a = (if status a =? 400 then lit "Bad request"
                            else lit "Access denied")
      /\ exists e, logged o = [e] /\ logStatus e = status a
                   /\ logLevel e <> level_info
  | None, Called => logged o = []
  | None, CalledWithError =>
      attached o = []
      /\ exists e, logged o = [e] /\ logStatus e = 500
                   /\ logLevel e = level_error
                   /\ logPath e = reqPath req
  | _, _ => False
  end.
Proof.
  unfold securityFilter, refuse, passOn.
  destruct (securityFilterEnabled settings); [|reflexivity].
  cbn [negb].
  destruct (decodeURIComponent (reqPath req)) as [p|message].
  - destruct activeFile as [a|]; branches;
      cbn [answer next logged attached status answerMessage Nat.eqb];
      try reflexivity;
      (split; [auto|]; split; [reflexivity|]; eexists; split; [reflexivity|];
       split; [reflexivity | discriminate]).
  - cbn [answer next logged attached]. split; [reflexivity|].
    eexists. split; [reflexivity|]. repeat split.
Qed.

(** X18: a request under [/vault/] that the handler passes on was checked,
    unless the filter is switched off or the path ends in [.crt]: its vault
    path has no [..] and no NUL; when it names a file, [evaluateFile]
    allowed that file for the request's method in upper case and no
    interceptor is attached; when it names a directory, the listing
    interceptor is attached with the vault path as prefix, and nothing
    else. *)
Theorem X18_passed_vault_requests_were_allowed
    (activeFile : option jsstring) (settings : SecuritySettings)
    (filterEngine : FilterEngine) (req : Request) (p : jsstring) :
  decodeURIComponent (reqPath req) = inl p ->
  startsWith (lit "/vault/") p = true ->
  next (handler activeFile settings filterEngine req) = Called ->
  let vaultPath := normalizeVaultPath (sliceFrom (length (lit "/vault/")) p) in
  let method :=
    toUpperCase
      (match reqMethod req with Some m => m | None => lit "GET" end) in
  securityFilterEnabled settings = false
  \/ endsWith (lit ".crt") p = true
  \/ (includes (lit "..") vaultPath = false
      /\ includes [0%N] vaultPath = false
      /\ (if truthy vaultPath && negb (endsWith (lit "/") vaultPath)
          then allowed (evaluate filterEngine vaultPath (policy settings)
                          (Some method)) = true
               /\ attached (handler activeFile settings filterEngine req) = []
          else attached (handler activeFile settings filterEngine req)
               = [ListingInterceptor vaultPath])).
Proof.
  intros Hdecode Hvault. cbv zeta.
  destruct (vault_not_search p Hvault) as (Hsearch & Hactive & Hcommands).
  unfold securityFilter, refuse, passOn.
  rewrite Hdecode, Hvault, Hsearch, Hactive, Hcommands.
  destruct (securityFilterEnabled settings); [|now left].
  right. cbn [negb andb] in *.
  destruct (endsWith (lit ".crt") p); [now left|]. right.
  rewrite orb_false_r in H.
  destruct (hasString p EXEMPT_ROUTES) eqn:Hexempt.
  { exfalso. unfold hasString, EXEMPT_ROUTES in Hexempt.
    cbn [existsb] in Hexempt. rewrite orb_false_r in Hexempt.
    apply orb_true_iff in Hexempt.
    destruct Hexempt as [E | E]; apply jseqb_eq in E; subst p;
      discriminate Hvault. }
  cbn [orb] in H.
  destruct (readOnlyMode settings && _ && _); [discriminate H|].
  destruct (includes (lit "..") _ || includes [0%N] _) eqn:Htraversal;
    [discriminate H|].
  apply orb_false_iff in Htraversal. destruct Htraversal as [Hdots Hnul].
  split; [exact Hdots|]. split; [exact Hnul|].
  destruct (truthy _ && negb (endsWith (lit "/") _)) eqn:HisFile.
  - destruct (allowed _); [|discriminate H]. cbn [negb andb] in *.
    apply andb_true_iff in HisFile. destruct HisFile as [Hsome Hslash].
    rewrite Hsome in *. apply negb_true_iff in Hslash. rewrite Hslash in *.
    cbn [negb orb] in *. split; reflexivity.
  - cbn [andb] in *.
    destruct (negb (truthy _) || endsWith (lit "/") _) eqn:Hdir;
      [reflexivity|].
    apply orb_false_iff in Hdir. destruct Hdir as [Hsome Hslash].
    apply negb_false_iff in Hsome. rewrite Hsome, Hslash in HisFile.
    discriminate HisFile.
Qed.

(** X19: a request under [/active/] that the handler passes on while a
    file is active was checked against that file, unless the filter is
    switched off or the path ends in [.crt]: [evaluateFile] allowed the
    active file for the request's method in upper case.  The path after
    [/active/] plays no part. *)
Theorem X19_passed_active_requests_were_allowed
    (activePath : jsstring) (settings : SecuritySettings)
    (filterEngine : FilterEngine) (req : Request) (p : jsstring) :
  decodeURIComponent (reqPath req) = inl p ->
  startsWith (lit "/active/") p = true ->
  next (handler (Some activePath) settings filterEngine req) = Called ->
  let method :=
    toUpperCase
      (match reqMethod req with Some m => m | None => lit "GET" end) in
  securityFilterEnabled settings = false
  \/ endsWith (lit ".crt") p = true
  \/ (allowed (evaluate filterEngine activePath (policy settings)
                 (Some method)) = true
      /\ attached (handler (Some activePath) settings filterEngine req) = []).
Proof.
  intros Hdecode Hactive. cbv zeta.
  destruct (active_not_search p Hactive) as (Hsearch & Hvault & Hcommands).
  unfold securityFilter, refuse, passOn.
  rewrite Hdecode, Hvault, Hsearch, Hactive, Hcommands.
  destruct (securityFilterEnabled settings); [|now left].
  cbn [negb andb]. intros H. right.
  destruct (endsWith (lit ".crt") p); [now left|]. right.
  destruct (hasString p EXEMPT_ROUTES || false) eqn:Hexempt.
  { exfalso. unfold hasString, EXEMPT_ROUTES in Hexempt.
    cbn [existsb] in Hexempt. rewrite !orb_false_r in Hexempt.
    apply orb_true_iff in Hexempt.
    destruct Hexempt as [E | E]; apply jseqb_eq in E; subst p;
      discriminate Hactive. }
  destruct (readOnlyMode settings && _ && _); [discriminate H|].
  destruct (allowed _); [|discriminate H].
  split; reflexivity.
Qed.

(** X20: the handler refuses a request as a write operation exactly when
    the filter is on, the decoded path is not exempt, read-only mode is on,
    the method in upper case is PUT, POST, PATCH or DELETE, and the path
    starts with one of the write-capable prefixes.  The refusal is then
    logged as denied by read-only mode: the later check on [/commands/]
    never refuses anything, so its log message is never written. *)
Theorem X20_write_refusals
    (activeFile : option jsstring) (settings : SecuritySettings)
    (filterEngine : FilterEngine) (req : Request) :
  let o := handler activeFile settings filterEngine req in
  let method :=
    toUpperCase
      (match reqMethod req with Some m => m | None => lit "GET" end) in
  ((exists a, answer o = Some a
              /\ errorCode a = Security WriteOperationDenied)
   <-> securityFilterEnabled settings = true
       /\ readOnlyMode settings = true
       /\ hasString method WRITE_METHODS = true
       /\ exists p, decodeURIComponent (reqPath req) = inl p
                    /\ hasString p EXEMPT_ROUTES = false
                    /\ endsWith (lit ".crt") p = false
                    /\ existsb (fun pre => startsWith pre p)
                         WRITE_CAPABLE_PREFIXES = true)
  /\ forall e, In e (logged o) ->
       logMessage e <> lit "command execution denied by read-only mode".
Proof.
  cbv zeta. unfold securityFilter, refuse, passOn.
  destruct (securityFilterEnabled settings); cbn [negb];
    [|split; [split; [intros (a & [=] & _) | intros ([=] & _)]
             | intros e []]].
  destruct (decodeURIComponent (reqPath req)) as [p|message];
    [|split; [split; [intros (a & [=] & _)
                     | intros (_ & _ & _ & q & [=] & _)]
             | intros e [<- | []]; discriminate]].
  destruct (hasString p EXEMPT_ROUTES) eqn:Hexempt; cbn [orb];
    [split; [split; [intros (a & [=] & _)
                    | intros (_ & _ & _ & q & [= <-] & E & _); congruence]
            | intros e []]|].
  destruct (endsWith (lit ".crt") p) eqn:Hcrt;
    [split; [split; [intros (a & [=] & _)
                    | intros (_ & _ & _ & q & [= <-] & _ & E & _); congruence]
            | intros e []]|].
  destruct (readOnlyMode settings) eqn:Hro; cbn [andb].
  - destruct (hasString _ WRITE_METHODS) eqn:Hmethod; cbn [andb].
    + destruct (existsb _ WRITE_CAPABLE_PREFIXES) eqn:Hprefix.
      * split; [|intros e [<- | []]; discriminate].
        split; [|intros _; eexists; split; reflexivity].
        intros _. repeat split. exists p. now repeat split.
      * assert (startsWith (lit "/commands/") p = false) as Hcommands.
        { unfold WRITE_CAPABLE_PREFIXES in Hprefix. cbn [existsb] in Hprefix.
          repeat (apply orb_false_iff in Hprefix;
                  destruct Hprefix as [? Hprefix]).
          assumption. }
        rewrite Hcommands. cbn [andb].
        split.
        -- split; [|intros (_ & _ & _ & q & [= <-] & _ & _ & E); congruence].
           intros (a & Ha & Hcode). exfalso. revert Ha Hcode.
           destruct activeFile; branches; intros [= <-]; discriminate.
        -- intros e. destruct activeFile; branches; no_such_entry.
    + assert (jseqb (toUpperCase
                       (match reqMethod req with
                        | Some m => m
                        | None => lit "GET"
                        end)) (lit "POST") = false) as Hpost.
      { destruct (jseqb _ (lit "POST")) eqn:E; [|reflexivity].
        apply jseqb_eq in E. rewrite E in Hmethod. discriminate Hmethod. }
      rewrite Hpost, andb_false_r. cbn [andb].
      split.
      * split; [|intros (_ & _ & [=] & _)].
        intros (a & Ha & Hcode). exfalso. revert Ha Hcode.
        destruct activeFile; branches; intros [= <-]; discriminate.
      * intros e. destruct activeFile; branches; no_such_entry.
  - rewrite !andb_false_r. split.
    + split; [|intros (_ & [=] & _)].
      intros (a & Ha & Hcode). exfalso. revert Ha Hcode.
      destruct activeFile; branches; intros [= <-]; discriminate.
    + intros e. destruct activeFile; branches; no_such_entry.
Qed.

End MiddlewareFacts.

(* ================================================================== *)
(** ** audit-logger.ts: the error log *)
(* ================================================================== *)

Lemma splitUnit_at (c : N) (s t : jsstring) :
  splitUnit c (s ++ c :: t) = splitUnit c s ++ splitUnit c t.
Proof.
  induction s as [|x s IH]; cbn [splitUnit Datatypes.app].
  - now rewrite N.eqb_refl.
  - destruct (x =? c)%N; rewrite IH; [reflexivity|].
    pose proof (splitUnit_nonempty c s) as Hne.
    destruct (splitUnit c s) as [|h rest]; [contradiction | reflexivity].
Qed.

Lemma endsWith_unit_split (c : N) (s : jsstring) :
  endsWith [c] s = true -> exists s0, s = s0 ++ [c].
Proof.
  unfold endsWith. cbn [rev Datatypes.app]. intros H.
  destruct (rev s) as [|x r] eqn:E; [discriminate|].
  rewrite startsWith_unit in H. apply N.eqb_eq in H. subst x.
  exists (rev r). rewrite <- (rev_involutive s), E. reflexivity.
Qed.

Lemma dropWhile_keeps (f : N -> bool) (s : jsstring) (c : N) :
  In c s -> f c = false -> In c (dropWhile f s).
Proof.
  intros Hin Hc. induction s as [|x s IH]; [contradiction|].
  cbn [dropWhile]. destruct (f x) eqn:E; [|exact Hin].
  destruct Hin as [-> | Hin]; [congruence | now apply IH].
Qed.

Lemma trim_keeps (s : jsstring) (c : N) :
  In c s -> isWhiteSpace c = false -> In c (trim s).
Proof.
  intros Hin Hc. unfold trim, trimEnd, trimStart.
  apply in_rev. rewrite rev_involutive.
  apply dropWhile_keeps; [|exact Hc].
  apply -> in_rev. now apply dropWhile_keeps.
Qed.

(** The digits of a number hold no line feed. *)
Lemma numberToString_one_line (n : nat) :
  includesUnit LF (numberToString n) = false.
Proof.
  unfold numberToString, NilZero.string_of_uint.
  assert (forall d, includesUnit LF (lit (NilEmpty.string_of_uint d)) = false)
    as Hdigits.
  { induction d; cbn [NilEmpty.string_of_uint]; [reflexivity|..];
      exact IHd. }
  destruct (Nat.to_uint n); try apply Hdigits; reflexivity.
Qed.

Lemma padStart_one_line (k : nat) (s : jsstring) :
  includesUnit LF s = false ->
  includesUnit LF (padStart k DIGIT_ZERO s) = false.
Proof.
  intros H. unfold padStart. rewrite includesUnit_app, H, orb_false_r.
  induction (k - length s) as [|m IH]; [reflexivity | exact IH].
Qed.

Lemma join_one_line (sep : jsstring) (parts : list jsstring) :
  includesUnit LF sep = false ->
  Forall (fun p => includesUnit LF p = false) parts ->
  includesUnit LF (join sep parts) = false.
Proof.
  intros Hsep Hall. induction Hall as [|p rest Hp Hrest IH]; [reflexivity|].
  destruct rest as [|q rest]; [exact Hp|].
  change (join sep (p :: q :: rest)) with (p ++ sep ++ join sep (q :: rest)).
  now rewrite !includesUnit_app, Hp, Hsep, IH.
Qed.

Lemma join_head (sep p : jsstring) (rest : list jsstring) (c : N) :
  In c p -> In c (join sep (p :: rest)).
Proof.
  intros H. destruct rest as [|q rest]; [exact H|].
  change (join sep (p :: q :: rest)) with (p ++ sep ++ join sep (q :: rest)).
  apply in_or_app. now left.
Qed.

(** The line of an entry without line feeds is one line that is not
    blank, closed by a line feed. *)
Lemma errorLogLine_body (now : LocalTime) (entry : LogEntry) :
  oneLine entry ->
  exists body,
    errorLogLine now entry = body ++ [LF]
    /\ includesUnit LF body = false
    /\ trim body <> [].
Proof.
  intros (Hmessage & Hip & Hmethod & Hpath).
  unfold errorLogLine. cbv zeta. eexists. split; [reflexivity|]. split.
  - apply join_one_line; [reflexivity|].
    apply Forall_app; split; [|apply Forall_app; split;
      [|apply Forall_app; split; [|apply Forall_app; split]]].
    + constructor; [|constructor].
      rewrite !includesUnit_app, Hmessage.
      rewrite !join_one_line; try reflexivity;
        repeat constructor;
        try apply padStart_one_line; try apply numberToString_one_line.
      destruct (logLevel entry); reflexivity.
    + destruct (truthy (logClientIp entry)); repeat constructor.
      now rewrite includesUnit_app, Hip.
    + destruct (logMethod entry) as [m|]; [|constructor].
      destruct (truthy m); repeat constructor.
      now rewrite includesUnit_app, (Hmethod m eq_refl).
    + destruct (truthy (logPath entry)); repeat constructor.
      now rewrite includesUnit_app, Hpath.
    + destruct (logStatus entry =? 0)%nat; repeat constructor.
      now rewrite includesUnit_app, numberToString_one_line.
  - match goal with |- trim ?b <> [] =>
      assert (In 91%N (trim b)) as Hin end.
    { apply trim_keeps; [|reflexivity].
      cbn [Datatypes.app]. apply join_head.
      apply in_or_app. right. apply in_or_app. right.
      apply in_or_app. right. apply in_or_app. left.
      right. now left. }
    intros Hblank. rewrite Hblank in Hin. exact Hin.
Qed.

Lemma kept_after_append (content body : jsstring) :
  content = [] \/ endsWith [LF] content = true ->
  includesUnit LF body = false ->
  trim body <> [] ->
  filter (fun l => truthy (trim l)) (splitUnit LF (content ++ body ++ [LF]))
  = filter (fun l => truthy (trim l)) (splitUnit LF content) ++ [body].
Proof.
  intros Hcontent Hbody Hblank. apply truthy_true in Hblank.
  assert (splitUnit LF (body ++ [LF]) = [body; []]) as Hlast
    by now rewrite splitUnit_app.
  destruct Hcontent as [-> | Hends].
  - cbn [Datatypes.app]. rewrite Hlast. cbn [filter splitUnit].
    rewrite Hblank, trim_nil. reflexivity.
  - apply endsWith_unit_split in Hends. destruct Hends as (c0 & ->).
    rewrite <- app_assoc. cbn [Datatypes.app].
    rewrite splitUnit_at, Hlast, !filter_app.
    replace (c0 ++ [LF]) with (c0 ++ LF :: []) by reflexivity.
    rewrite splitUnit_at, filter_app. cbn [filter splitUnit].
    rewrite Hblank, trim_nil. cbn [truthy]. now rewrite app_nil_r.
Qed.

Lemma sliceArray_snoc {A : Type} (count : Z) (l : list A) (x : A) :
  (0 < count)%Z ->
  sliceArray (- (count + 1)) (l ++ [x]) = sliceArray (- count) l ++ [x].
Proof.
  intros Hpos. unfold sliceArray.
  assert ((- (count + 1) <? 0)%Z = true) as -> by lia.
  assert ((- count <? 0)%Z = true) as -> by lia.
  rewrite length_app. cbn [length].
  replace (Z.to_nat (Z.max (Z.of_nat (length l + 1) + - (count + 1)) 0))
    with (Z.to_nat (Z.max (Z.of_nat (length l) + - count) 0)) by lia.
  rewrite skipn_app.
  replace (Z.to_nat (Z.max (Z.of_nat (length l) + - count) 0) - length l)
    with 0 by lia.
  reflexivity.
Qed.

Lemma sliceArray_last {A : Type} (l : list A) (x : A) :
  sliceArray (- 1) (l ++ [x]) = [x].
Proof.
  unfold sliceArray. cbn [Z.ltb Z.compare Z.opp].
  rewrite length_app. cbn [length].
  replace (Z.to_nat (Z.max (Z.of_nat (length l + 1) + -1) 0))
    with (length l + 0) by lia.
  rewrite skipn_app, Nat.add_0_r, skipn_all.
  replace (length l - length l) with 0 by lia. reflexivity.
Qed.

Lemma writeFile_same (fs : Files) (path content : jsstring) :
  writeFile fs path content path = Some content.
Proof.
  unfold writeFile.
  assert (jseqb path path = true) as -> by now apply jseqb_eq.
  reflexivity.
Qed.

(** X21: an error entry whose texts hold no line feed can be read back.
    When the error log is absent, empty or ends with a line feed, then
    after [logError] the last line [readRecentLines] returns is the line
    of the entry, and the lines before it are the ones it returned
    before. *)
Theorem X21_logged_error_is_read_back
    (accessPath : option jsstring) (errorPath : jsstring) (fs : Files)
    (now : LocalTime) (entry : LogEntry) :
  errorPath <> [] ->
  match fs errorPath with
  | Some content => content = [] \/ endsWith [LF] content = true
  | None => True
  end ->
  oneLine entry ->
  let this := loggerOver accessPath (Some errorPath) fs in
  let fs' := logError this fs now entry in
  let this' := loggerOver accessPath (Some errorPath) fs' in
  exists body,
    errorLogLine now entry = body ++ [LF]
    /\ includesUnit LF body = false
    /\ readRecentLines this' error_log 1 = Normal [body]
    /\ forall count lines, (0 < count)%Z ->
         readRecentLines this error_log count = Normal lines ->
         readRecentLines this' error_log (count + 1)
         = Normal (lines ++ [body]).
Proof.
  intros Hpath Hold Hentry. cbv zeta.
  destruct (errorLogLine_body now entry Hentry) as (body & Hline & Hbody & Hblank).
  exists body. split; [exact Hline|]. split; [exact Hbody|].
  apply truthy_true in Hpath.
  unfold readRecentLines, logError, appendToLog, loggerOver.
  cbn [errorLogPath loggerAdapter adapterOf adapterExists adapterRead].
  rewrite Hpath. cbn [negb]. rewrite Hline.
  destruct (fs errorPath) as [content|] eqn:Hfile.
  - rewrite writeFile_same. unfold recentLines.
    rewrite (kept_after_append content body Hold Hbody Hblank).
    split; [now rewrite sliceArray_last|].
    intros count lines Hpos [= <-]. now rewrite sliceArray_snoc.
  - rewrite writeFile_same. unfold recentLines.
    pose proof (kept_after_append [] body (or_introl eq_refl) Hbody Hblank)
      as Hkept.
    cbn [Datatypes.app splitUnit filter] in Hkept.
    rewrite trim_nil in Hkept. cbn [truthy Datatypes.app] in Hkept.
    rewrite Hkept.
    split; [reflexivity|].
    intros count lines Hpos [= <-].
    cbn [Datatypes.app].
    unfold sliceArray. assert ((- (count + 1) <? 0)%Z = true) as -> by lia.
    cbn [length].
    replace (Z.to_nat (Z.max (Z.of_nat 1 + - (count + 1)) 0)) with 0 by lia.
    reflexivity.
Qed.

(** X22: after [clearLogs], [readRecentLines] returns no line, for either
    log and every count. *)
Theorem X22_cleared_logs_are_empty
    (accessPath errorPath : option jsstring) (fs : Files)
    (logType : LogType) (count : Z) :
  let this := loggerOver accessPath errorPath fs in
  readRecentLines (loggerOver accessPath errorPath (clearLogs this fs))
    logType count
  = Normal [].
Proof.
  cbv zeta.
  assert (forall (fs0 : Files) p,
            match fs0 p with Some c => recentLines c count = [] | None => True end ->
            forall q, 
            match clearLog (loggerOver accessPath errorPath fs) q fs0 p with
            | Some c => recentLines c count = []
            | None => True
            end) as Hkeep.
  { intros fs0 p Hp q. unfold clearLog, loggerOver. cbn [loggerAdapter].
    destruct q as [q|]; [|exact Hp].
    destruct (truthy q); [|exact Hp].
    destruct (fs0 q) eqn:Hq; [|exact Hp].
    unfold writeFile. destruct (jseqb p q); [|exact Hp].
    unfold recentLines, sliceArray. cbn [splitUnit filter length].
    destruct (- count <? 0)%Z; now rewrite skipn_nil. }
  assert (forall (fs0 : Files) p,
            truthy p = true ->
            match clearLog (loggerOver accessPath errorPath fs) (Some p) fs0 p with
            | Some c => recentLines c count = []
            | None => True
            end) as Hclear.
  { intros fs0 p Hp. unfold clearLog, loggerOver. cbn [loggerAdapter].
    rewrite Hp. destruct (fs0 p) eqn:Hq; [|now rewrite Hq].
    rewrite writeFile_same.
    unfold recentLines, sliceArray. cbn [splitUnit filter length].
    destruct (- count <? 0)%Z; now rewrite skipn_nil. }
  unfold readRecentLines, clearLogs.
  cbn [loggerOver accessLogPath errorLogPath loggerAdapter adapterOf
       adapterExists adapterRead].
  destruct logType.
  - destruct accessPath as [p|]; [|reflexivity].
    destruct (truthy p) eqn:Hp; [|reflexivity]. cbn [negb].
    pose proof (Hkeep _ p (Hclear fs p Hp) errorPath) as H.
    cbn [loggerOver accessLogPath errorLogPath] in *.
    destruct (clearLog _ errorPath _ p); [now rewrite H | reflexivity].
  - destruct errorPath as [p|]; [|reflexivity].
    destruct (truthy p) eqn:Hp; [|reflexivity]. cbn [negb].
    pose proof (Hclear (clearLog (loggerOver accessPath (Some p) fs)
                          accessPath fs) p Hp) as H.
    cbn [loggerOver accessLogPath errorLogPath] in *.
    destruct (clearLog _ (Some p) _ p); [now rewrite H | reflexivity].
Qed.


(* ================================================================== *)
(** ** The untyped host: when evaluation throws *)
(* ================================================================== *)

Lemma promiseAll_Normal {A B : Type} (f : A -> Completion B) (g : A -> B)
    (l : list A) :
  (forall x, In x l -> f x = Normal (g x)) ->
  promiseAll (map f l) = Normal (map g l).
Proof.
  induction l as [|x l IH]; intros H; [reflexivity|].
  cbn [map promiseAll]. rewrite (H x) by now left.
  rewrite IH; [reflexivity|]. intros y Hy. apply H. now right.
Qed.

Lemma promiseAll_Throw {A : Type} (promises : list (Completion A)) :
  In Throw promises -> promiseAll promises = Throw.
Proof.
  induction promises as [|p rest IH]; intros H; [contradiction|].
  cbn [promiseAll]. destruct p as [x|]; [|reflexivity].
  destruct H as [H|H]; [discriminate H|]. now rewrite IH.
Qed.

Lemma frontmatterLoop_strings (ts : list jsstring) :
  Untyped.frontmatterLoop (map Untyped.StringEntry ts)
  = Normal (map withHash ts).
Proof.
  induction ts as [|t ts IH]; [reflexivity|].
  cbn [map Untyped.frontmatterLoop]. now rewrite IH.
Qed.

(** On a cache of strings the untyped function is the typed one. *)
Lemma collectFileTags_typed (filePath : jsstring) (a : App) :
  Untyped.collectFileTags filePath (untypedApp a)
  = Normal (collectFileTags filePath a).
Proof.
  unfold Untyped.collectFileTags, collectFileTags, untypedApp.
  cbn [Untyped.getAbstractFileByPath Untyped.getFileCache].
  destruct (getAbstractFileByPath a filePath) as [file|]; [|reflexivity].
  destruct (getFileCache a file) as [cache|]; [|reflexivity].
  unfold untypedCache.
  cbn [Untyped.inlineTags Untyped.frontmatterTags].
  destruct (frontmatterTags cache) as [ts|]; [|reflexivity].
  now rewrite frontmatterLoop_strings.
Qed.

Lemma checkGlobalTags_typed (filePath : jsstring) (a : App)
    (allowTag denyTag : jsstring) :
  Untyped.checkGlobalTags filePath (untypedApp a) allowTag denyTag
  = Normal (checkGlobalTags filePath a allowTag denyTag).
Proof.
  unfold Untyped.checkGlobalTags, checkGlobalTags.
  rewrite collectFileTags_typed.
  destruct (collectFileTags filePath a) as [lowerTags| |].
  - destruct (truthy denyTag && _); [reflexivity|].
    destruct (truthy allowTag && _); reflexivity.
  - reflexivity.
  - destruct (truthy denyTag || truthy allowTag); reflexivity.
Qed.

Lemma checkTagFilter_typed (filePath : jsstring) (rules : list FilterRule)
    (a : App) :
  Untyped.checkTagFilter filePath rules (untypedApp a)
  = Normal (checkTagFilter filePath rules a).
Proof.
  unfold Untyped.checkTagFilter, checkTagFilter.
  rewrite collectFileTags_typed.
  destruct (collectFileTags filePath a); reflexivity.
Qed.

(** [checkGlobalTags] and [checkTagFilter] throw when [collectFileTags]
    does, and only then. *)
Lemma checkGlobalTags_throws (filePath : jsstring) (a : Untyped.App)
    (allowTag denyTag : jsstring) :
  Untyped.checkGlobalTags filePath a allowTag denyTag = Throw
  <-> Untyped.collectFileTags filePath a = Throw.
Proof.
  unfold Untyped.checkGlobalTags.
  destruct (Untyped.collectFileTags filePath a) as [[lowerTags| |]|];
    try (split; [intros H; discriminate H | intros H; discriminate H]);
    [| |tauto].
  - destruct (truthy denyTag && _);
      [split; intros H; discriminate H|].
    destruct (truthy allowTag && _); split; intros H; discriminate H.
  - destruct (truthy denyTag || truthy allowTag);
      split; intros H; discriminate H.
Qed.

Lemma checkTagFilter_throws (filePath : jsstring) (rules : list FilterRule)
    (a : Untyped.App) :
  Untyped.checkTagFilter filePath rules a = Throw
  <-> Untyped.collectFileTags filePath a = Throw.
Proof.
  unfold Untyped.checkTagFilter.
  destruct (Untyped.collectFileTags filePath a) as [[lowerTags| |]|];
    try (split; intros H; discriminate H); tauto.
Qed.

Section UntypedEngine.

Variable minimatch : jsstring -> jsstring -> bool.
Variable RegExp : jsstring -> option jsstring -> Completion (jsstring -> bool).

Local Abbreviation evaluateAny := (Untyped.evaluateFile minimatch RegExp).

Lemma evaluateFile_throws (this : Untyped.FilterEngine)
    (filePath : jsstring) (settings : Settings) (method : option jsstring) :
  evaluateAny this filePath settings method = Throw
  <-> Untyped.collectFileTags filePath (Untyped.app this) = Throw.
Proof.
  unfold Untyped.evaluateFile.
  pose proof (checkGlobalTags_throws filePath (Untyped.app this)
                (globalAllowTag settings) (globalDenyTag settings)) as Hglobal.
  destruct (Untyped.checkGlobalTags filePath (Untyped.app this) _ _)
    as [[g|]|]; [| |tauto].
  - split; [intros H; discriminate H|].
    intros H. apply Hglobal in H. discriminate H.
  - assert (Untyped.collectFileTags filePath (Untyped.app this) <> Throw)
      as Hok by (intros H; apply Hglobal in H; discriminate H).
    split; [|intros H; contradiction].
    intros H. exfalso.
    destruct (Untyped.fileRules this) as [rules|]; [|discriminate H].
    destruct (if 0 <? length (folder rules) then _ else None);
      [discriminate H|].
    destruct (if 0 <? length (name rules) then _ else None);
      [discriminate H|].
    pose proof (checkTagFilter_throws filePath (tag rules)
                  (Untyped.app this)) as Htag.
    destruct (0 <? length (tag rules)).
    + destruct (Untyped.checkTagFilter filePath (tag rules)
                  (Untyped.app this)) as [result|];
        [|apply Hok; now apply Htag].
      destruct (returned method result); [discriminate H|].
      destruct (if 0 <? length (keyword rules) then _ else None);
        discriminate H.
    + destruct (if 0 <? length (keyword rules) then _ else None);
        discriminate H.
Qed.

Lemma checkKeywordFilter_typed (filePath : jsstring)
    (rules : list FilterRule) (a : App) :
  Untyped.checkKeywordFilter RegExp filePath rules (untypedApp a)
  = checkKeywordFilter RegExp filePath rules a.
Proof. reflexivity. Qed.

End UntypedEngine.

Lemma frontmatterLoop_throws (entries : list Untyped.TagEntry) :
  Untyped.frontmatterLoop entries = Throw <-> In Untyped.OtherEntry entries.
Proof.
  induction entries as [|[t|] rest IH]; cbn [Untyped.frontmatterLoop In].
  - split; [discriminate | contradiction].
  - destruct (Untyped.frontmatterLoop rest).
    + split; [discriminate|]. intros [H|H]; [discriminate H|].
      apply IH in H. discriminate H.
    + split; [|reflexivity]. intros _. right. now apply IH.
  - split; [now left | reflexivity].
Qed.

Section UntypedClaims.

Variable minimatch : jsstring -> jsstring -> bool.
Variable RegExp : jsstring -> option jsstring -> Completion (jsstring -> bool).

Local Abbreviation evaluateAny := (Untyped.evaluateFile minimatch RegExp).
Local Abbreviation allowsGet := (Untyped.allowsGet minimatch RegExp).
Local Abbreviation filterPaths := (Untyped.filterPaths minimatch RegExp).

Lemma filterPaths_Normal (this : Untyped.FilterEngine)
    (paths : list jsstring) (settings : Settings) :
  (forall p, In p paths ->
     evaluateAny this p settings (Some (lit "GET")) <> Throw) ->
  filterPaths this paths settings
  = Normal (filter (allowsGet this settings) paths).
Proof.
  intros Hall. unfold Untyped.filterPaths.
  rewrite (promiseAll_Normal _
             (fun p => if allowsGet this settings p then Some p else None)).
  - now rewrite notNull_filter.
  - intros p Hp. specialize (Hall p Hp). unfold Untyped.allowsGet.
    destruct (evaluateAny this p settings (Some (lit "GET")));
      [reflexivity | contradiction].
Qed.

Lemma filterPaths_Throw (this : Untyped.FilterEngine)
    (paths : list jsstring) (settings : Settings) :
  (exists p, In p paths
             /\ evaluateAny this p settings (Some (lit "GET")) = Throw) ->
  filterPaths this paths settings = Throw.
Proof.
  intros (p & Hp & Hthrow). unfold Untyped.filterPaths.
  rewrite promiseAll_Throw; [reflexivity|].
  apply in_map_iff. exists p. split; [|exact Hp]. now rewrite Hthrow.
Qed.


(** X8: with no global tag configured and no tag rule loaded, the decision
    depends on the metadata cache only through [collectFileTags] not
    throwing: two vaults that hold the same files with the same content,
    and on which the tags of the file can be collected, get the same
    decision, whatever their caches say, even if one has no cache entry
    at all. *)
Theorem X8_no_tag_configuration_no_metadata
    (a a' : Untyped.App) (rules : option ParsedRules)
    filePath settings method :
  (forall p, Untyped.getAbstractFileByPath a p
             = Untyped.getAbstractFileByPath a' p) ->
  (forall f, Untyped.cachedRead a f = Untyped.cachedRead a' f) ->
  globalAllowTag settings = [] ->
  globalDenyTag settings = [] ->
  match rules with Some rs => tag rs = [] | None => True end ->
  Untyped.collectFileTags filePath a <> Throw ->
  Untyped.collectFileTags filePath a' <> Throw ->
  evaluateAny (Untyped.mkEngine a rules) filePath settings method
  = evaluateAny (Untyped.mkEngine a' rules) filePath settings method
  /\ evaluateAny (Untyped.mkEngine a rules) filePath settings method
     <> Throw.
Proof.
  intros Hfile Hread Hallow Hdeny Htag Ha Ha'.
  assert (forall b, Untyped.collectFileTags filePath b <> Throw ->
            Untyped.checkGlobalTags filePath b [] [] = Normal None)
    as Hglobal.
  { intros b Hb. unfold Untyped.checkGlobalTags.
    destruct (Untyped.collectFileTags filePath b) as [[lowerTags| |]|];
      [reflexivity | reflexivity | reflexivity | contradiction]. }
  split.
  - unfold Untyped.evaluateFile. cbn [Untyped.app Untyped.fileRules].
    rewrite Hallow, Hdeny, (Hglobal a Ha), (Hglobal a' Ha').
    destruct rules as [rs|]; [|reflexivity]. rewrite Htag.
    cbn [length Nat.ltb Nat.leb].
    assert (Untyped.checkKeywordFilter RegExp filePath (keyword rs) a
            = Untyped.checkKeywordFilter RegExp filePath (keyword rs) a')
      as ->; [|reflexivity].
    unfold Untyped.checkKeywordFilter. rewrite Hfile.
    destruct (Untyped.getAbstractFileByPath a' filePath) as [file|];
      [|reflexivity].
    now rewrite Hread.
  - intros H. apply evaluateFile_throws in H. exact (Ha H).
Qed.

(** X11: the method of the candidate is compared without regard to the
    case of ASCII letters: with a method made of ASCII characters, such as
    [get] or [Get], a request is evaluated as it is with the method in
    upper case; either both evaluations throw or both return the same
    decision.  The hypothesis keeps [m] to the strings on which
    [toUpperCase] above is the JavaScript method. *)
Theorem X11_method_case_is_ignored
    (this : Untyped.FilterEngine) filePath settings (m : jsstring) :
  isAscii m = true ->
  evaluateAny this filePath settings (Some (toUpperCase m))
  = evaluateAny this filePath settings (Some m).
Proof.
  intros _.
  assert (forall r, returned (Some (toUpperCase m)) r = returned (Some m) r)
    as Hret.
  { intros [d|]; [|reflexivity]. unfold returned. now rewrite applies_upper. }
  unfold Untyped.evaluateFile.
  destruct (Untyped.checkGlobalTags _ _ _ _) as [[g|]|]; try reflexivity.
  destruct (Untyped.fileRules this) as [rules|]; [|reflexivity].
  rewrite !Hret.
  destruct (Untyped.checkTagFilter filePath (tag rules) (Untyped.app this))
    as [result|]; [now rewrite Hret | reflexivity].
Qed.

(** X13: the directory-listing interceptor hands on the file names whose
    full path (directory prefix, then name) [evaluateFile] allows for GET,
    unchanged and in their order, when every one of these evaluations
    returns a decision; when one of them throws, it hands on an empty
    listing. *)
Theorem X13_listing_keeps_allowed_names
    (filterEngine : Untyped.FilterEngine) (settings : SecuritySettings)
    (dirPrefix : jsstring) (files : list jsstring) :
  let evaluateGet f :=
    evaluateAny filterEngine (dirPrefix ++ f) (policy settings)
      (Some (lit "GET")) in
  ((forall f, In f files -> evaluateGet f <> Throw) ->
   Untyped.interceptListing minimatch RegExp filterEngine settings
     dirPrefix files
   = filter (fun f => allowsGet filterEngine (policy settings)
                        (dirPrefix ++ f))
       files)
  /\ ((exists f, In f files /\ evaluateGet f = Throw) ->
      Untyped.interceptListing minimatch RegExp filterEngine settings
        dirPrefix files
      = []).
Proof.
  cbv zeta. unfold Untyped.interceptListing. split.
  - intros Hall. rewrite filterPaths_Normal.
    + rewrite filter_map_comm, map_map.
      rewrite <- (map_id (filter _ files)) at 2.
      apply map_ext. intros f. apply skipn_prefix.
    + intros p Hp. apply in_map_iff in Hp. destruct Hp as (f & <- & Hf).
      now apply Hall.
  - intros (f & Hf & Hthrow). rewrite filterPaths_Throw; [reflexivity|].
    exists (dirPrefix ++ f). split; [|exact Hthrow].
    apply in_map_iff. now exists f.
Qed.

End UntypedClaims.

Section UntypedResults.

Variable minimatch : jsstring -> jsstring -> bool.
Variable RegExp : jsstring -> option jsstring -> Completion (jsstring -> bool).
Variable Item : Type.
Variable filenameOf : Item -> option jsstring.
Variable pathOf : Item -> option jsstring.

Local Abbreviation evaluateAny := (Untyped.evaluateFile minimatch RegExp).
Local Abbreviation allowsGet := (Untyped.allowsGet minimatch RegExp).
Local Abbreviation pathOfItem := (itemPath Item filenameOf pathOf).
Local Abbreviation searchFilter :=
  (Untyped.filterSearchResults minimatch RegExp Item filenameOf pathOf).

(** Whether [filterSearchResults] keeps the item when it returns. *)
Local Abbreviation keeps this settings :=
  (fun item =>
     match pathOfItem item with
     | None => true
     | Some p => negb (truthy p) || allowsGet this settings p
     end).

(** X12: when the evaluation of every path among the results returns a
    decision, [filterSearchResults] returns the results in their order, with
    some left out: an item stays exactly when it has no path (neither
    [filename] nor [path], or an empty one) or its path is allowed for GET;
    when every item has a file name, the file names kept are what
    [filterPaths] keeps of the file names.  When the evaluation of one path
    throws, [filterSearchResults] rejects as a whole. *)
Theorem X12_search_results_are_filtered_by_path
    (this : Untyped.FilterEngine) (results : list Item)
    (settings : Settings) :
  let throws item :=
    exists p, pathOfItem item = Some p /\ p <> []
              /\ evaluateAny this p settings (Some (lit "GET")) = Throw in
  ((forall item, In item results -> ~ throws item) ->
   exists kept,
     searchFilter this results settings = Normal kept
     /\ Subsequence kept results
     /\ (forall item,
           In item kept
           <-> In item results
               /\ match pathOfItem item with
                  | None => True
                  | Some p =>
                      p = []
                      \/ exists d,
                           evaluateAny this p settings (Some (lit "GET"))
                           = Normal d
                           /\ allowed d = true
                  end)
     /\ ((forall item, In item results ->
            exists f, filenameOf item = Some f /\ f <> []) ->
         exists paths,
           Untyped.filterPaths minimatch RegExp this
             (map (fun item =>
                     match filenameOf item with Some f => f | None => [] end)
                  results)
             settings
           = Normal paths
           /\ map pathOfItem kept = map Some paths))
  /\ ((exists item, In item results /\ throws item) ->
      searchFilter this results settings = Throw).
Proof.
  cbv zeta. split.
  - intros Hall. exists (filter (keeps this settings) results).
    split; [|split; [apply filter_Subsequence | split]].
    + unfold Untyped.filterSearchResults.
      rewrite (promiseAll_Normal _
                 (fun item => if keeps this settings item
                              then Some item else None)).
      * now rewrite notNull_filter.
      * intros item Hitem. specialize (Hall item Hitem).
        destruct (pathOfItem item) as [p|]; [|reflexivity].
        destruct (truthy p) eqn:Hp; [|reflexivity]. cbn [negb orb].
        unfold Untyped.allowsGet.
        destruct (evaluateAny this p settings (Some (lit "GET"))) eqn:E;
          [reflexivity|].
        exfalso. apply Hall. exists p.
        split; [reflexivity|]. split; [now apply truthy_true | exact E].
    + intros item. rewrite filter_In.
      split; intros [Hitem H]; (split; [exact Hitem|]).
      * destruct (pathOfItem item) as [p|]; [|exact I].
        apply orb_true_iff in H. destruct H as [H|H].
        -- left. apply negb_true_iff in H. now apply truthy_false.
        -- right. unfold Untyped.allowsGet in H.
           destruct (evaluateAny this p settings (Some (lit "GET")))
             as [d|]; [now exists d | discriminate H].
      * destruct (pathOfItem item) as [p|]; [|reflexivity].
        apply orb_true_iff. destruct H as [-> | (d & Hd & Hallowed)].
        -- now left.
        -- right. unfold Untyped.allowsGet. now rewrite Hd.
    + intros Hnames.
      assert (forall item, In item results ->
                pathOfItem item
                = Some (match filenameOf item with
                        | Some f => f
                        | None => []
                        end)
                /\ truthy (match filenameOf item with
                           | Some f => f
                           | None => []
                           end) = true) as Hpath.
      { intros item Hitem. destruct (Hnames item Hitem) as (f & Hf & Hne).
        unfold itemPath. rewrite Hf. split; [reflexivity|].
        now apply truthy_true. }
      exists (filter (allowsGet this settings)
                (map (fun item =>
                        match filenameOf item with
                        | Some f => f
                        | None => []
                        end)
                   results)).
      split.
      * apply filterPaths_Normal. intros p Hp.
        apply in_map_iff in Hp. destruct Hp as (item & <- & Hitem).
        intros Hthrow. apply (Hall item Hitem).
        destruct (Hpath item Hitem) as [Heq Hne].
        eexists. split; [exact Heq|].
        split; [now apply truthy_true | exact Hthrow].
      * clear Hall Hnames.
        induction results as [|item rest IH]; [reflexivity|].
        destruct (Hpath item (or_introl eq_refl)) as [Heq Hne].
        assert (forall item', In item' rest ->
                  pathOfItem item'
                  = Some (match filenameOf item' with
                          | Some f => f
                          | None => []
                          end)
                  /\ truthy (match filenameOf item' with
                             | Some f => f
                             | None => []
                             end) = true) as Hrest
          by (intros item' H'; apply Hpath; now right).
        cbn [map filter]. rewrite Heq, Hne. cbn [negb orb].
        destruct (allowsGet this settings _);
          cbn [map]; rewrite (IH Hrest); [now rewrite Heq | reflexivity].
  - intros (item & Hitem & p & Hpath & Hne & Hthrow).
    unfold Untyped.filterSearchResults.
    rewrite promiseAll_Throw; [reflexivity|].
    apply in_map_iff. exists item. split; [|exact Hitem].
    rewrite Hpath. apply truthy_true in Hne. rewrite Hne. cbn [negb].
    now rewrite Hthrow.
Qed.

End UntypedResults.

Section UntypedHandler.

Variable minimatch : jsstring -> jsstring -> bool.
Variable RegExp : jsstring -> option jsstring -> Completion (jsstring -> bool).
Variable decodeURIComponent : jsstring -> jsstring + jsstring.
Variable typeErrorMessage : jsstring.

Local Abbreviation evaluateAny := (Untyped.evaluateFile minimatch RegExp).
Local Abbreviation allowsGet := (Untyped.allowsGet minimatch RegExp).

(** X23: a directory listing and the file route agree on files.  For a
    file name [f] listed under the directory prefix [dir], when the path
    [dir ++ f] is one that the handler treats as a file and leaves as it
    is, and the evaluation of every listed file returns a decision, the
    listing interceptor keeps [f] exactly when a GET of [/vault/dir/f] is
    passed on. *)
Theorem X23_listing_agrees_with_file_access
    (activeFile : option jsstring) (settings : SecuritySettings)
    (filterEngine : Untyped.FilterEngine) (ip : option jsstring)
    (dir : jsstring) (files : list jsstring) (f : jsstring) :
  let vaultPath := dir ++ f in
  let p := lit "/vault/" ++ vaultPath in
  securityFilterEnabled settings = true ->
  decodeURIComponent p = inl p ->
  endsWith (lit ".crt") p = false ->
  normalizeVaultPath vaultPath = vaultPath ->
  includes (lit "..") vaultPath = false ->
  includes [0%N] vaultPath = false ->
  vaultPath <> [] ->
  endsWith (lit "/") vaultPath = false ->
  (forall g, In g files ->
     evaluateAny filterEngine (dir ++ g) (policy settings)
       (Some (lit "GET")) <> Throw) ->
  (In f (Untyped.interceptListing minimatch RegExp filterEngine settings
           dir files)
   <-> In f files
       /\ next (Untyped.securityFilter minimatch RegExp decodeURIComponent
                  typeErrorMessage activeFile settings filterEngine
                  (mkRequest (Some (lit "GET")) p ip))
          = Called).
Proof.
  intros vaultPath p Henabled Hdecode Hcrt Hnormal Hdots Hnul Hsome Hslash
    Hall.
  assert (Untyped.interceptListing minimatch RegExp filterEngine settings
            dir files
          = filter (fun g => allowsGet filterEngine (policy settings)
                               (dir ++ g))
              files) as ->.
  { unfold Untyped.interceptListing. rewrite filterPaths_Normal.
    - rewrite filter_map_comm, map_map.
      rewrite <- (map_id (filter _ files)) at 2.
      apply map_ext. intros g. apply skipn_prefix.
    - intros q Hq. apply in_map_iff in Hq. destruct Hq as (g & <- & Hg).
      now apply Hall. }
  rewrite filter_In.
  assert (startsWith (lit "/vault/") p = true) as Hvault
    by apply startsWith_app.
  destruct (vault_not_search p Hvault) as (Hsearch & Hactive & Hcommands).
  assert (hasString p EXEMPT_ROUTES = false) as Hexempt by reflexivity.
  apply truthy_true in Hsome.
  unfold Untyped.securityFilter, Untyped.caught, refuse, passOn.
  cbn [reqMethod reqPath]. rewrite Henabled, Hdecode, Hexempt, Hcrt.
  change (toUpperCase (lit "GET")) with (lit "GET").
  change (hasString (lit "GET") WRITE_METHODS) with false.
  rewrite andb_false_r, Hvault, Hsearch, Hactive, Hcommands.
  assert (sliceFrom (length (lit "/vault/")) p = vaultPath) as Hslice
    by apply skipn_prefix.
  rewrite Hslice, Hnormal, Hdots, Hnul, Hsome, Hslash.
  cbn [negb orb andb]. fold vaultPath. unfold Untyped.allowsGet.
  destruct (evaluateAny filterEngine vaultPath (policy settings)
              (Some (lit "GET"))) as [d|].
  - destruct (allowed d); cbn [negb next]; split; intros [Hin H];
      (split; [exact Hin|]); first [reflexivity | discriminate H].
  - cbn [next]. split; intros [Hin H]; discriminate H.
Qed.

End UntypedHandler.

Section UntypedAndTyped.

Variable minimatch : jsstring -> jsstring -> bool.
Variable RegExp : jsstring -> option jsstring -> Completion (jsstring -> bool).

Local Abbreviation evaluateAny := (Untyped.evaluateFile minimatch RegExp).

(** X24: [evaluateFile] throws exactly when [collectFileTags] throws for
    the file, whatever the rules, the settings and the method: that is,
    when the file exists, has cached metadata, and its front matter tags
    either cannot be iterated or hold an entry that is not a string. *)
Theorem X24_evaluation_throws_on_untyped_tags
    (this : Untyped.FilterEngine) (filePath : jsstring)
    (settings : Settings) (method : option jsstring) :
  evaluateAny this filePath settings method = Throw
  <-> exists file cache tags,
        Untyped.getAbstractFileByPath (Untyped.app this) filePath = Some file
        /\ Untyped.getFileCache (Untyped.app this) file = Some cache
        /\ Untyped.frontmatterTags cache = Some tags
        /\ match tags with
           | Untyped.NotIterable => True
           | Untyped.Iterable entries => In Untyped.OtherEntry entries
           end.
Proof.
  rewrite evaluateFile_throws. unfold Untyped.collectFileTags.
  split.
  - destruct (Untyped.getAbstractFileByPath (Untyped.app this) filePath)
      as [file|] eqn:Hfile; [|discriminate].
    destruct (Untyped.getFileCache (Untyped.app this) file) as [cache|]
      eqn:Hcache; [|discriminate].
    destruct (Untyped.frontmatterTags cache) as [[entries|]|] eqn:Htags;
      [| |discriminate].
    + destruct (Untyped.frontmatterLoop entries) eqn:Hloop; [discriminate|].
      intros _. exists file, cache, (Untyped.Iterable entries).
      split; [reflexivity|]. split; [exact Hcache|].
      split; [exact Htags|]. now apply frontmatterLoop_throws.
    + intros _. exists file, cache, Untyped.NotIterable.
      split; [reflexivity|]. split; [exact Hcache|].
      split; [exact Htags | exact I].
  - intros (file & cache & tags & -> & -> & -> & H).
    destruct tags as [entries|]; [|reflexivity].
    apply frontmatterLoop_throws in H. now rewrite H.
Qed.

(** On a vault of string tags the untyped evaluation returns the typed
    decision. *)
Lemma evaluateFile_typed
    (this : FilterEngine) (filePath : jsstring) (settings : Settings)
    (method : option jsstring) :
  evaluateAny (untypedEngine this) filePath settings method
  = Normal (evaluateFile minimatch RegExp this filePath settings method).
Proof.
  unfold Untyped.evaluateFile, evaluateFile, untypedEngine.
  cbn [Untyped.app Untyped.fileRules].
  rewrite checkGlobalTags_typed.
  destruct (checkGlobalTags filePath (app this) _ _); [reflexivity|].
  destruct (fileRules this) as [rules|]; [|reflexivity].
  destruct (if 0 <? length (folder rules) then _ else None); [reflexivity|].
  destruct (if 0 <? length (name rules) then _ else None); [reflexivity|].
  rewrite checkTagFilter_typed, checkKeywordFilter_typed.
  destruct (0 <? length (tag rules)).
  - destruct (returned method (checkTagFilter _ _ _)); [reflexivity|].
    destruct (if 0 <? length (keyword rules) then _ else None); reflexivity.
  - destruct (if 0 <? length (keyword rules) then _ else None); reflexivity.
Qed.

(** X25: on a vault whose front matter tags are strings, [collectFileTags]
    and [evaluateFile] do not throw, and what they return is what the
    typed definitions compute; [filterPaths] then returns the allowed
    paths. *)
Theorem X25_evaluation_on_string_tags
    (this : FilterEngine) (filePath : jsstring) (settings : Settings)
    (method : option jsstring) (paths : list jsstring) :
  Untyped.collectFileTags filePath (untypedApp (app this))
  = Normal (collectFileTags filePath (app this))
  /\ evaluateAny (untypedEngine this) filePath settings method
     = Normal (evaluateFile minimatch RegExp this filePath settings method)
  /\ Untyped.filterPaths minimatch RegExp (untypedEngine this) paths settings
     = Normal
         (filter (fun p =>
                    allowed (evaluateFile minimatch RegExp this p settings
                               (Some (lit "GET"))))
            paths).
Proof.
  split; [apply collectFileTags_typed|].
  split; [apply evaluateFile_typed|].
  rewrite filterPaths_Normal.
  - f_equal. apply filter_ext. intros p. unfold Untyped.allowsGet.
    now rewrite evaluateFile_typed.
  - intros p _. now rewrite evaluateFile_typed.
Qed.

End UntypedAndTyped.

Section UntypedHandlerFacts.

Variable minimatch : jsstring -> jsstring -> bool.
Variable RegExp : jsstring -> option jsstring -> Completion (jsstring -> bool).
Variable decodeURIComponent : jsstring -> jsstring + jsstring.
Variable typeErrorMessage : jsstring.

Local Abbreviation handlerAny :=
  (Untyped.securityFilter minimatch RegExp decodeURIComponent
     typeErrorMessage).

Ltac branches :=
  repeat match goal with
         | |- context [if ?b then _ else _] => destruct b eqn:?
         end.

(** X26: on a vault whose front matter tags are strings, the handler does
    what the handler over the typed definitions does: no evaluation
    throws, so its [catch] is reached from [decodeURIComponent] only. *)
Theorem X26_handler_on_string_tags
    (activeFile : option jsstring) (settings : SecuritySettings)
    (filterEngine : FilterEngine) (req : Request) :
  handlerAny activeFile settings (untypedEngine filterEngine) req
  = securityFilter minimatch RegExp decodeURIComponent activeFile settings
      filterEngine req.
Proof.
  unfold Untyped.securityFilter, securityFilter, Untyped.caught.
  destruct (securityFilterEnabled settings); [|reflexivity]. cbn [negb].
  destruct (decodeURIComponent (reqPath req)) as [p|message];
    [|reflexivity].
  destruct (hasString p EXEMPT_ROUTES || endsWith (lit ".crt") p);
    [reflexivity|].
  destruct (readOnlyMode settings && _ && _); [reflexivity|].
  rewrite !evaluateFile_typed.
  destruct (startsWith (lit "/vault/") p).
  - destruct (includes (lit "..") _ || includes [0%N] _); [reflexivity|].
    destruct (truthy (normalizeVaultPath _));
      destruct (endsWith (lit "/") (normalizeVaultPath _));
      cbn [negb andb orb];
      try destruct (allowed (evaluateFile minimatch RegExp filterEngine
                               (normalizeVaultPath _) _ _));
      cbn [negb];
      destruct activeFile as [activePath|];
      try rewrite !evaluateFile_typed; reflexivity.
  - destruct activeFile as [activePath|]; [|reflexivity].
    now rewrite !evaluateFile_typed.
Qed.

(** X27: on every vault, typed or not, the handler does one of three
    things with a request.  It answers with status 400 or 403, does not
    call [next], and logs one entry with the status it answered; or it
    calls [next()] without answering or logging; or it calls [next(err)]
    without answering and without having attached an interceptor, and logs
    one entry of level error with status 500 and the raw path.  An
    evaluation that throws ends in the third. *)
Theorem X27_answer_or_next_on_every_vault
    (activeFile : option jsstring) (settings : SecuritySettings)
    (filterEngine : Untyped.FilterEngine) (req : Request) :
  let o := handlerAny activeFile settings filterEngine req in
  match answer o, next o with
  | Some a, NotCalled =>
      (status a = 400 \/ status a = 403)
      /\ answerMessage a = (if status a =? 400 then lit "Bad request"
                            else lit "Access denied")
      /\ exists e, logged o = [e] /\ logStatus e = status a
                   /\ logLevel e <> level_info
  | None, Called => logged o = []
  | None, CalledWithError =>
      attached o = []
      /\ exists e, logged o = [e] /\ logStatus e = 500
                   /\ logLevel e = level_error
                   /\ logPath e = reqPath req
  | _, _ => False
  end.
Proof.
  unfold Untyped.securityFilter, Untyped.caught, refuse, passOn.
  destruct (securityFilterEnabled settings); [|reflexivity].
  cbn [negb].
  destruct (decodeURIComponent (reqPath req)) as [p|message].
  - destruct (startsWith (lit "/vault/") p) eqn:Hvault.
    + destruct (vault_not_search p Hvault) as (_ & -> & _).
      destruct (Untyped.evaluateFile minimatch RegExp filterEngine
                  (normalizeVaultPath _) (policy settings) _) as [d|];
        branches;
        cbn [answer next logged attached status answerMessage Nat.eqb];
        try reflexivity;
        first
          [ split; [auto|]; split; [reflexivity|];
            eexists; split; [reflexivity|];
            split; [reflexivity | discriminate]
          | split; [reflexivity|]; eexists; split; [reflexivity|];
            repeat split ].
    + destruct activeFile as [activePath|];
        try destruct (Untyped.evaluateFile minimatch RegExp filterEngine
                        activePath (policy settings) _) as [d|];
        branches;
        cbn [answer next logged attached status answerMessage Nat.eqb];
        try reflexivity;
        first
          [ split; [auto|]; split; [reflexivity|];
            eexists; split; [reflexivity|];
            split; [reflexivity | discriminate]
          | split; [reflexivity|]; eexists; split; [reflexivity|];
            repeat split ].
  - cbn [answer next logged attached]. split; [reflexivity|].
    eexists. split; [reflexivity|]. repeat split.
Qed.

End UntypedHandlerFacts.

(* ================================================================== *)
(** ** The untyped host: when evaluation returns *)
(* ================================================================== *)

Lemma frontmatterLoop_returns (entries : list Untyped.TagEntry)
    (tags : list jsstring) :
  Untyped.frontmatterLoop entries = Normal tags ->
  tags = map withHash (stringEntries entries).
Proof.
  revert tags. induction entries as [|[t|] rest IH]; intros tags;
    cbn [Untyped.frontmatterLoop stringEntries map].
  - now intros [= <-].
  - destruct (Untyped.frontmatterLoop rest) as [ts|]; [|discriminate].
    intros [= <-]. now rewrite (IH ts eq_refl).
  - discriminate.
Qed.

(** When the tags can be collected, they are the tags of the vault read
    as a vault of strings. *)
Lemma collectFileTags_returns (filePath : jsstring) (a : Untyped.App)
    (result : TagResult) :
  Untyped.collectFileTags filePath a = Normal result ->
  collectFileTags filePath (typedApp a) = result.
Proof.
  unfold Untyped.collectFileTags, collectFileTags, typedApp.
  cbn [getAbstractFileByPath getFileCache].
  destruct (Untyped.getAbstractFileByPath a filePath) as [file|];
    [|now intros [= <-]].
  destruct (Untyped.getFileCache a file) as [cache|]; [|now intros [= <-]].
  unfold typedCache. cbn [inlineTags frontmatterTags].
  destruct (Untyped.frontmatterTags cache) as [[entries|]|].
  - destruct (Untyped.frontmatterLoop entries) as [ts|] eqn:Hloop;
      [|discriminate].
    intros [= <-]. now rewrite (frontmatterLoop_returns entries ts Hloop).
  - discriminate.
  - intros [= <-]. now rewrite app_nil_r.
Qed.

Section UntypedReturns.

Variable minimatch : jsstring -> jsstring -> bool.
Variable RegExp : jsstring -> option jsstring -> Completion (jsstring -> bool).

Local Abbreviation evaluateAny := (Untyped.evaluateFile minimatch RegExp).

(** X28: whenever [collectFileTags] does not throw for the file,
    [evaluateFile] returns, and what it returns is the decision the typed
    definition computes on the same vault with the same rules, its front
    matter tags read as the strings they are.  So every property of the
    typed [evaluateFile] is a property of each evaluation that returns. *)
Theorem X28_evaluation_that_returns
    (this : Untyped.FilterEngine) (filePath : jsstring)
    (settings : Settings) (method : option jsstring) :
  Untyped.collectFileTags filePath (Untyped.app this) <> Throw ->
  evaluateAny this filePath settings method
  = Normal (evaluateFile minimatch RegExp (typedEngine this) filePath
              settings method).
Proof.
  intros Hok.
  destruct (Untyped.collectFileTags filePath (Untyped.app this))
    as [result|] eqn:Hcollect; [clear Hok | contradiction].
  pose proof (collectFileTags_returns _ _ _ Hcollect) as Htyped.
  assert (forall allowTag denyTag,
            Untyped.checkGlobalTags filePath (Untyped.app this)
              allowTag denyTag
            = Normal (checkGlobalTags filePath (typedApp (Untyped.app this))
                        allowTag denyTag)) as Hglobal.
  { intros allowTag denyTag.
    unfold Untyped.checkGlobalTags, checkGlobalTags.
    rewrite Hcollect, Htyped. destruct result as [lowerTags| |].
    - destruct (truthy denyTag && _); [reflexivity|].
      destruct (truthy allowTag && _); reflexivity.
    - reflexivity.
    - destruct (truthy denyTag || truthy allowTag); reflexivity. }
  assert (forall rules,
            Untyped.checkTagFilter filePath rules (Untyped.app this)
            = Normal (checkTagFilter filePath rules
                        (typedApp (Untyped.app this)))) as Htag.
  { intros rules. unfold Untyped.checkTagFilter, checkTagFilter.
    rewrite Hcollect, Htyped. destruct result; reflexivity. }
  unfold Untyped.evaluateFile, evaluateFile, typedEngine.
  cbn [app fileRules]. rewrite Hglobal.
  destruct (checkGlobalTags filePath _ _ _); [reflexivity|].
  destruct (Untyped.fileRules this) as [rules|]; [|reflexivity].
  destruct (if 0 <? length (folder rules) then _ else None); [reflexivity|].
  destruct (if 0 <? length (name rules) then _ else None); [reflexivity|].
  rewrite Htag.
  change (Untyped.checkKeywordFilter RegExp filePath (keyword rules)
            (Untyped.app this))
    with (checkKeywordFilter RegExp filePath (keyword rules)
            (typedApp (Untyped.app this))).
  destruct (0 <? length (tag rules)).
  - destruct (returned method (checkTagFilter _ _ _)); [reflexivity|].
    destruct (if 0 <? length (keyword rules) then _ else None); reflexivity.
  - destruct (if 0 <? length (keyword rules) then _ else None); reflexivity.
Qed.

End UntypedReturns.

(* ================================================================== *)
(** ** Instances of the theorems on concrete inputs *)
(* ================================================================== *)

Lemma X2_edit_outside_file_changes_nothing_witness :
  removeRuleByLine (fileHolding exampleConf) examplePluginDir 3 = exampleConf
  /\ toggleRuleByLine (fileHolding exampleConf) examplePluginDir (-1) false
     = exampleConf.
Proof.
  split.
  - refine (proj1 (X2_edit_outside_file_changes_nothing
                     (fileHolding exampleConf) examplePluginDir exampleConf
                     3 true eq_refl _)).
    right. vm_compute. discriminate.
  - refine (proj2 (X2_edit_outside_file_changes_nothing
                     (fileHolding exampleConf) examplePluginDir exampleConf
                     (-1) false eq_refl _)).
    left. reflexivity.
Defined.

Lemma X3_toggle_sets_one_flag_witness :
  let edited :=
    toggleRuleByLine (fileHolding exampleConf) examplePluginDir 2 true in
  entries (parseRulesFile edited)
  = map (fun e' => if lineNumber e' =? 2 then setEnabled true e' else e')
      (entries (parseRulesFile exampleConf))
  /\ (In (rule (setEnabled true exampleEntry))
        (group kind_keyword (grouped (parseRulesFile edited)))
      <-> true = true).
Proof.
  refine (X3_toggle_sets_one_flag (fileHolding exampleConf) examplePluginDir
            exampleConf exampleEntry true eq_refl _).
  vm_compute. right. left. reflexivity.
Defined.

Lemma X4_remove_deletes_one_line_witness :
  entries
    (parseRulesFile
       (removeRuleByLine (fileHolding exampleConf) examplePluginDir 1))
  = map (fun e => if 1 <? lineNumber e
                  then atLine (lineNumber e - 1) e else e)
      (filter (fun e => negb (lineNumber e =? 1))
         (entries (parseRulesFile exampleConf))).
Proof.
  refine (X4_remove_deletes_one_line (fileHolding exampleConf)
            examplePluginDir exampleConf 1 eq_refl _).
  vm_compute. repeat constructor.
Defined.

Lemma X5_append_adds_last_entry_witness :
  entries
    (parseRulesFile
       (appendRule (fileHolding exampleConf) examplePluginDir
          (kindName kind_name) (exampleRule deny (lit "secret.md"))))
  = entries (parseRulesFile exampleConf)
    ++ [mkEntry (reparsed (exampleRule deny (lit "secret.md")) 4) kind_name 4].
Proof.
  refine (X5_append_adds_last_entry (fileHolding exampleConf)
            examplePluginDir exampleConf kind_name
            (exampleRule deny (lit "secret.md")) eq_refl _).
  unfold roundTrips. repeat split; try discriminate; reflexivity.
Defined.

Lemma X7_parsed_rules_have_parser_shape_witness :
  parsedShape (rule exampleEntry).
Proof.
  refine (X7_parsed_rules_have_parser_shape exampleConf exampleEntry _).
  vm_compute. right. left. reflexivity.
Defined.

Lemma X9_no_keyword_rule_no_read_witness :
  let rules := Some (mkParsedRules [] [] [] []) in
  evaluateFile plainMinimatch plainRegExp
    (mkEngine (oneFileVault notePath None (Normal (lit "password"))) rules)
    notePath (noGlobalTags deny) (Some (lit "GET"))
  = evaluateFile plainMinimatch plainRegExp
      (mkEngine (oneFileVault notePath None Throw) rules)
      notePath (noGlobalTags deny) (Some (lit "GET")).
Proof.
  intros rules.
  refine (X9_no_keyword_rule_no_read plainMinimatch plainRegExp
            (oneFileVault notePath None (Normal (lit "password")))
            (oneFileVault notePath None Throw)
            rules notePath (noGlobalTags deny) (Some (lit "GET"))
            _ _ eq_refl);
    intros; reflexivity.
Defined.

Lemma X14_recent_lines_are_the_last_ones_witness :
  let this := loggerOver None (Some exampleLogPath) exampleFiles in
  let kept := [lit "2026/11/02 09:05:00 [warn] started"] in
  ((0 < 5)%Z ->
   exists lines,
     readRecentLines this error_log 5 = Normal lines
     /\ lines = skipn (length kept - Z.to_nat 5) kept
     /\ length lines = Nat.min (Z.to_nat 5) (length kept)
     /\ forall l, In l lines -> trim l <> [])
  /\ readRecentLines this error_log 0 = Normal kept.
Proof.
  intros this kept.
  refine (X14_recent_lines_are_the_last_ones this error_log exampleLogPath
            (adapterOf exampleFiles)
            (lit "2026/11/02 09:05:00 [warn] started" ++ [LF]) 5
            eq_refl _ eq_refl eq_refl eq_refl).
  discriminate.
Defined.

Lemma X16_normalizing_keeps_the_trailing_slash_witness :
  endsWith (lit "/") (normalizeVaultPath (lit "//notes//daily/"))
  = endsWith (lit "/") (lit "//notes//daily/").
Proof.
  refine (X16_normalizing_keeps_the_trailing_slash (lit "//notes//daily/") _).
  discriminate.
Defined.

Lemma X18_passed_vault_requests_were_allowed_witness :
  let req := mkRequest (Some (lit "get")) (lit "/vault//Public/note.md") None in
  let vaultPath := normalizeVaultPath (lit "/Public/note.md") in
  let o := securityFilter plainMinimatch plainRegExp plainDecode None
             strictSettings noteEngine req in
  securityFilterEnabled strictSettings = false
  \/ endsWith (lit ".crt") (lit "/vault//Public/note.md") = true
  \/ (includes (lit "..") vaultPath = false
      /\ includes [0%N] vaultPath = false
      /\ (if truthy vaultPath && negb (endsWith (lit "/") vaultPath)
          then allowed (evaluateFile plainMinimatch plainRegExp noteEngine
                          vaultPath (policy strictSettings)
                          (Some (toUpperCase (lit "get")))) = true
               /\ attached o = []
          else attached o = [ListingInterceptor vaultPath])).
Proof.
  intros req vaultPath o.
  refine (X18_passed_vault_requests_were_allowed plainMinimatch plainRegExp
            plainDecode None strictSettings noteEngine req
            (lit "/vault//Public/note.md") eq_refl eq_refl _).
  reflexivity.
Defined.

Lemma X19_passed_active_requests_were_allowed_witness :
  let req := mkRequest None (lit "/active/") None in
  let o := securityFilter plainMinimatch plainRegExp plainDecode
             (Some notePath) strictSettings noteEngine req in
  securityFilterEnabled strictSettings = false
  \/ endsWith (lit ".crt") (lit "/active/") = true
  \/ (allowed (evaluateFile plainMinimatch plainRegExp noteEngine notePath
                 (policy strictSettings) (Some (toUpperCase (lit "GET"))))
      = true
      /\ attached o = []).
Proof.
  intros req o.
  refine (X19_passed_active_requests_were_allowed plainMinimatch plainRegExp
            plainDecode notePath strictSettings noteEngine req
            (lit "/active/") eq_refl eq_refl _).
  reflexivity.
Defined.

Lemma X21_logged_error_is_read_back_witness :
  let this := loggerOver None (Some exampleLogPath) exampleFiles in
  let fs' := logError this exampleFiles exampleTime exampleLogEntry in
  let this' := loggerOver None (Some exampleLogPath) fs' in
  exists body,
    errorLogLine exampleTime exampleLogEntry = body ++ [LF]
    /\ includesUnit LF body = false
    /\ readRecentLines this' error_log 1 = Normal [body]
    /\ forall count lines, (0 < count)%Z ->
         readRecentLines this error_log count = Normal lines ->
         readRecentLines this' error_log (count + 1)
         = Normal (lines ++ [body]).
Proof.
  refine (X21_logged_error_is_read_back None exampleLogPath exampleFiles
            exampleTime exampleLogEntry _ _ _).
  - discriminate.
  - right. reflexivity.
  - repeat split; try reflexivity. intros m [= <-]. reflexivity.
Defined.



Lemma X8_no_tag_configuration_no_metadata_witness :
  let rules := Some (mkParsedRules [exampleRule allow notePath] [] [] []) in
  let a := untypedApp (oneFileVault notePath None (Normal [])) in
  let a' :=
    untypedApp
      (oneFileVault notePath (Some (mkCache (Some [lit "#ai-deny"]) None))
         (Normal [])) in
  Untyped.evaluateFile plainMinimatch plainRegExp (Untyped.mkEngine a rules)
    notePath (noGlobalTags deny) (Some (lit "GET"))
  = Untyped.evaluateFile plainMinimatch plainRegExp
      (Untyped.mkEngine a' rules) notePath (noGlobalTags deny)
      (Some (lit "GET"))
  /\ Untyped.evaluateFile plainMinimatch plainRegExp
       (Untyped.mkEngine a rules) notePath (noGlobalTags deny)
       (Some (lit "GET"))
     <> Throw.
Proof.
  intros rules a a'.
  refine (X8_no_tag_configuration_no_metadata plainMinimatch plainRegExp
            a a' rules notePath (noGlobalTags deny) (Some (lit "GET"))
            _ _ eq_refl eq_refl eq_refl _ _);
    try (intros; reflexivity); discriminate.
Defined.

Lemma X11_method_case_is_ignored_witness :
  Untyped.evaluateFile plainMinimatch plainRegExp numericTagEngine notePath
    (noGlobalTags deny) (Some (toUpperCase (lit "get")))
  = Untyped.evaluateFile plainMinimatch plainRegExp numericTagEngine notePath
      (noGlobalTags deny) (Some (lit "get")).
Proof.
  refine (X11_method_case_is_ignored plainMinimatch plainRegExp
            numericTagEngine notePath (noGlobalTags deny) (lit "get") _).
  reflexivity.
Defined.

Lemma X23_listing_agrees_with_file_access_witness :
  let files := [lit "note.md"; lit "secret.md"] in
  In (lit "note.md")
     (Untyped.interceptListing plainMinimatch plainRegExp
        (untypedEngine noteEngine) strictSettings (lit "Public/") files)
  <-> In (lit "note.md") files
      /\ next (Untyped.securityFilter plainMinimatch plainRegExp plainDecode
                 (lit "t.startsWith is not a function") None strictSettings
                 (untypedEngine noteEngine)
                 (mkRequest (Some (lit "GET"))
                    (lit "/vault/" ++ lit "Public/" ++ lit "note.md") None))
         = Called.
Proof.
  intros files.
  refine (X23_listing_agrees_with_file_access plainMinimatch plainRegExp
            plainDecode (lit "t.startsWith is not a function") None
            strictSettings (untypedEngine noteEngine) None (lit "Public/")
            files (lit "note.md") eq_refl eq_refl eq_refl eq_refl eq_refl
            eq_refl _ eq_refl _).
  - discriminate.
  - intros g [<- | [<- | []]]; discriminate.
Defined.

Lemma X28_evaluation_that_returns_witness :
  Untyped.evaluateFile plainMinimatch plainRegExp numericTagEngine notePath
    (noGlobalTags deny) (Some (lit "GET"))
  = Normal (evaluateFile plainMinimatch plainRegExp
              (typedEngine numericTagEngine) notePath (noGlobalTags deny)
              (Some (lit "GET"))).
Proof.
  refine (X28_evaluation_that_returns plainMinimatch plainRegExp
            numericTagEngine notePath (noGlobalTags deny)
            (Some (lit "GET")) _).
  discriminate.
Defined.
